(** * Forge project lifecycle service: a shallow embedding

    The development follows the four source modules:
    - [server/config.py]          the projects root and the folder names,
    - [server/utils/paths.py]     the path resolver,
    - [server/models/project.py]  the schema of the persisted records,
    - [server/services/project_service.py]
                                  create / list / open / get.

    Python values are modelled as follows.
    - [str] is [string]; every character stands for the Unicode code point
      with the same number, so the model covers the strings whose code
      points are below 256 (ASCII and the Latin-1 supplement).
    - [datetime] is [Z]: a naive UTC instant counted in microseconds, as
      [datetime.utcnow()] yields it and as the service writes it; a
      datetime with a UTC offset, which only a metadata file written by
      another program can carry, is outside the model.
    - A [pathlib] path is the list of its parts below the projects root.
      The join [PROJECTS_ROOT / project_id] splits the identifier at the
      separators and drops the empty parts and the parts ["."], as
      [pathlib] does.
    - The file system is the tree below the projects root: a finite map
      from paths to nodes. Every operation takes the file system and
      returns the new one together with its result or the exception it
      raised, so that the writes done before an exception stay visible.
      The operations are those of CPython 3.11 on Linux with the UTF-8
      file system encoding: a name of more than 255 bytes is refused with
      [OSError] (ENAMETOOLONG), and [Path.exists] and [Path.is_dir] turn
      only ENOENT and ENOTDIR into [False].
    - The clock is an input: each operation receives the instants that its
      calls of [datetime.utcnow()] observe.
    - PyYAML, json and the pydantic (de)serialisers are library code; they
      are taken as an interface [Libs] described by their contracts.

    Outside the model are: the disk above the projects root, and with it
    the identifiers that are absolute or have a part [".."], which lead
    there (the statements that depend on where an identifier leads say
    [in_tree]); symbolic links, permissions, quotas and the limit PATH_MAX
    on whole paths; other processes writing at the same time. *)

From Stdlib Require Import Ascii String.
From stdpp Require Import sorting countable strings gmap fin_maps list.

Local Open Scope Z_scope.
Local Open Scope string_scope.
Local Open Scope list_scope.

(** ** Python strings *)

Module PyStr.

Definition code (c : ascii) : N := Ascii.N_of_ascii c.

Definition between (lo hi : N) (c : ascii) : bool :=
  ((lo <=? code c) && (code c <=? hi))%N.

Definition is_lower_az (c : ascii) : bool := between 97 122 c.
Definition is_upper_AZ (c : ascii) : bool := between 65 90 c.
Definition is_digit_09 (c : ascii) : bool := between 48 57 c.
Definition is_hyphen (c : ascii) : bool := (code c =? 45)%N.
Definition is_slash (c : ascii) : bool := (code c =? 47)%N.

(** [c.isalnum()] for a single character: the code points below 256 whose
    Unicode category is a letter or whose numeric type is decimal, digit
    or numeric. *)
Definition char_isalnum (c : ascii) : bool :=
  is_digit_09 c || is_upper_AZ c || is_lower_az c
  || (code c =? 170)%N                (* U+00AA feminine ordinal *)
  || between 178 179 c                (* U+00B2, U+00B3 superscripts *)
  || (code c =? 181)%N                (* U+00B5 micro sign *)
  || between 185 186 c                (* U+00B9, U+00BA *)
  || between 188 190 c                (* U+00BC .. U+00BE fractions *)
  || between 192 214 c                (* U+00C0 .. U+00D6 *)
  || between 216 246 c                (* U+00D8 .. U+00F6 *)
  || between 248 255 c.               (* U+00F8 .. U+00FF *)

(** [c.lower()] for a single character below 256: the upper-case letters
    are A-Z and U+00C0 .. U+00DE without the multiplication sign U+00D7;
    each maps to the code point 32 above it. *)
Definition char_is_upper (c : ascii) : bool :=
  is_upper_AZ c || (between 192 222 c && negb (code c =? 215)%N).

Definition char_lower (c : ascii) : ascii :=
  if char_is_upper c then Ascii.ascii_of_N (code c + 32) else c.

(** [s.replace("-", "")] *)
Fixpoint replace_hyphen_empty (s : string) : string :=
  match s with
  | EmptyString => EmptyString
  | String c r =>
      if is_hyphen c then replace_hyphen_empty r
      else String c (replace_hyphen_empty r)
  end.

Fixpoint all_chars (f : ascii → bool) (s : string) : bool :=
  match s with
  | EmptyString => true
  | String c r => f c && all_chars f r
  end.

Fixpoint any_char (f : ascii → bool) (s : string) : bool :=
  match s with
  | EmptyString => false
  | String c r => f c || any_char f r
  end.

(** Truth value of a string: [bool(s)], false exactly for the empty one. *)
Definition truthy (s : string) : bool :=
  match s with EmptyString => false | String _ _ => true end.

(** [s.isalnum()]: at least one character and all of them alphanumeric. *)
Definition isalnum (s : string) : bool := truthy s && all_chars char_isalnum s.

(** [s.lower()] *)
Fixpoint lower (s : string) : string :=
  match s with
  | EmptyString => EmptyString
  | String c r => String (char_lower c) (lower r)
  end.

(** [a or b] on strings. *)
Definition or_else (a b : string) : string := if truthy a then a else b.

(** [s.split("/")]: the pieces between the separators, at least one. *)
Fixpoint split_slash (s : string) : list string :=
  match s with
  | EmptyString => [EmptyString]
  | String c r =>
      if is_slash c then EmptyString :: split_slash r
      else
        match split_slash r with
        | x :: l => String c x :: l
        | [] => [String c EmptyString]
        end
  end.

(** [len(os.fsencode(s))] with the UTF-8 file system encoding: a code
    point below 128 takes one byte, one from 128 to 255 takes two. *)
Fixpoint utf8_length (s : string) : nat :=
  match s with
  | EmptyString => 0
  | String c r => ((if (code c <? 128)%N then 1 else 2) + utf8_length r)%nat
  end.

End PyStr.

(** ** server/models/project.py *)

Definition datetime := Z.

Inductive ProjectStatus := ACTIVE | PAUSED | ARCHIVED.

Record ProjectRules := {
  allow_cross_project_access : bool;
  llm_edit_scope : string;
  max_llm_edit_size : Z
}.

(** [ProjectRules()] with the field defaults. *)
Definition ProjectRules_default : ProjectRules :=
  {| allow_cross_project_access := false;
     llm_edit_scope := "markdown_only";
     max_llm_edit_size := 500 |}.

Record ProjectMeta := {
  id : string;
  name : string;
  created_at : datetime;
  last_opened_at : option datetime;
  description : string;
  status : ProjectStatus;
  rules : ProjectRules
}.

Record ChatMessage := {
  msg_id : string;
  timestamp : datetime;
  role : string;
  content : string
}.

Record Conversation := {
  conversation_id : string;
  conv_created_at : datetime;
  messages : list ChatMessage
}.

#[global] Instance ProjectStatus_eq_dec : EqDecision ProjectStatus.
Proof. solve_decision. Defined.
#[global] Instance ProjectRules_eq_dec : EqDecision ProjectRules.
Proof. solve_decision. Defined.
#[global] Instance ProjectMeta_eq_dec : EqDecision ProjectMeta.
Proof. solve_decision. Defined.

(** The class [[a-z0-9-]] of the [id] field's pattern. *)
Definition id_char (c : ascii) : bool :=
  PyStr.is_lower_az c || PyStr.is_digit_09 c || PyStr.is_hyphen c.

(** [pattern=r"^[a-z0-9-]+$"]: one or more characters of the class, and
    nothing else between the start and the end of the text. *)
Definition id_pattern (s : string) : bool :=
  PyStr.truthy s && PyStr.all_chars id_char s.

(** [min_length=1, max_length=100], counted in characters. *)
Definition name_length_ok (s : string) : bool :=
  (1 <=? String.length s)%nat && (String.length s <=? 100)%nat.

(** What every constructed [ProjectMeta] satisfies. *)
Definition ProjectMeta_valid (m : ProjectMeta) : Prop :=
  id_pattern (id m) = true ∧ name_length_ok (name m) = true.

(** ** Exceptions *)

(** [ValueError] is the one raised by the identifier checks of
    [create_project] (the spec's InvalidIdentifier); [ValidationError] is
    pydantic's, raised by a model constructor. [ProjectExistsError] is the
    spec's AlreadyExists and [ProjectNotFoundError] its NotFound. The last
    five are the [OSError]s of the file operations; the last one is a plain
    [OSError] whose [errno] is ENAMETOOLONG. *)
Inductive exn :=
  | ValueError
  | ProjectExistsError
  | ProjectNotFoundError
  | ValidationError
  | TypeError
  | YAMLError
  | FileNotFoundError
  | FileExistsError
  | NotADirectoryError
  | IsADirectoryError
  | OSError_ENAMETOOLONG.

#[global] Instance exn_eq_dec : EqDecision exn.
Proof. solve_decision. Defined.

Definition is_OSError (e : exn) : bool :=
  match e with
  | FileNotFoundError | FileExistsError | NotADirectoryError | IsADirectoryError
  | OSError_ENAMETOOLONG => true
  | _ => false
  end.

(** The keyword constructor used by [create_project]:
    [ProjectMeta(id=..., name=..., description=..., created_at=...)].
    The arguments are strings and a datetime, so the only validators that
    can fail are the pattern of [id] and the length bounds of [name]; the
    other fields take their defaults. *)
Definition ProjectMeta_new (project_id nm descr : string) (now : datetime)
  : exn + ProjectMeta :=
  if id_pattern project_id && name_length_ok nm then
    inr {| id := project_id; name := nm; created_at := now;
           last_opened_at := None; description := descr;
           status := ACTIVE; rules := ProjectRules_default |}
  else inl ValidationError.

(** [Conversation(conversation_id=..., created_at=..., messages=[])] *)
Definition Conversation_new (cid : string) (now : datetime) : Conversation :=
  {| conversation_id := cid; conv_created_at := now; messages := [] |}.

(** ** The file system below the projects root *)

(** A path is the list of its parts below [PROJECTS_ROOT], the root
    itself being the empty list. [p </> s] is the join [p / s] for a
    folder or file name [s] of the source, which is a single part. *)
Abbreviation path := (list string).

Inductive node :=
  | Dir
  | File (text : string).

#[global] Instance node_eq_dec : EqDecision node.
Proof. solve_decision. Defined.

Abbreviation FS := (gmap (list string) node).

Notation "p </> s" := (p ++ [s]) (at level 40, left associativity, only parsing).

(** The longest name a directory can hold, in bytes. *)
Definition NAME_MAX : nat := 255.

Definition name_too_long (c : string) : bool :=
  (NAME_MAX <? PyStr.utf8_length c)%nat.

(** Path resolution as the operating system does it: every proper prefix
    of the path has to be a directory. [walk fs cur rest] has checked the
    prefixes of [cur] and still has to descend through [rest]. The result
    is the entry at the path, if any, or the error of the first step that
    fails: the prefix is missing (ENOENT) or is a regular file (ENOTDIR),
    or the next name is longer than [NAME_MAX] (ENAMETOOLONG). A
    directory holds no entry under such a name, so ENAMETOOLONG is the
    answer where the lookup of such a name finds nothing; the operations
    below never store one. The directories above the projects root
    exist. *)
Fixpoint walk (fs : FS) (cur : path) (rest : list string) : exn + option node :=
  match rest with
  | [] => inr (fs !! cur)
  | c :: rest' =>
      match fs !! cur with
      | Some Dir =>
          match fs !! (cur ++ [c]) with
          | None =>
              if name_too_long c then inl OSError_ENAMETOOLONG
              else walk fs (cur ++ [c]) rest'
          | Some _ => walk fs (cur ++ [c]) rest'
          end
      | Some (File _) => inl NotADirectoryError
      | None => inl FileNotFoundError
      end
  end.

(** [os.stat(p)], with ENOENT for the path itself given as [inr None]. *)
Definition stat (fs : FS) (p : path) : exn + option node := walk fs [] p.

(** The path resolves to an entry, and to a directory. *)
Definition path_exists (fs : FS) (p : path) : bool :=
  match stat fs p with inr (Some _) => true | _ => false end.

Definition is_dir (fs : FS) (p : path) : bool :=
  match stat fs p with inr (Some Dir) => true | _ => false end.

(** The errors of [os.stat] that [Path.exists()] and [Path.is_dir()]
    answer with [False]: ENOENT and ENOTDIR (and EBADF and ELOOP, which the
    model does not have); any other [OSError] is raised again. *)
Definition ignore_error (e : exn) : bool :=
  match e with
  | FileNotFoundError | NotADirectoryError => true
  | _ => false
  end.

(** [Path.exists()] *)
Definition Path_exists (p : path) (fs : FS) : exn + bool :=
  match stat fs p with
  | inr (Some _) => inr true
  | inr None => inr false
  | inl e => if ignore_error e then inr false else inl e
  end.

(** [Path.is_dir()] *)
Definition Path_is_dir (p : path) (fs : FS) : exn + bool :=
  match stat fs p with
  | inr (Some Dir) => inr true
  | inr _ => inr false
  | inl e => if ignore_error e then inr false else inl e
  end.

(** [os.mkdir(p)] *)
Definition os_mkdir (p : path) (fs : FS) : exn + FS :=
  match stat fs p with
  | inl e => inl e
  | inr (Some _) => inl FileExistsError
  | inr None => inr (<[p := Dir]> fs)
  end.

(** [with open(p, "w") as f: f.write(text)]: the file is created or
    truncated, then written. *)
Definition write_text (p : path) (text : string) (fs : FS) : exn + FS :=
  match stat fs p with
  | inl e => inl e
  | inr (Some Dir) => inl IsADirectoryError
  | inr _ => inr (<[p := File text]> fs)
  end.

(** [with open(p) as f: f.read()] *)
Definition read_text (p : path) (fs : FS) : exn + string :=
  match stat fs p with
  | inl e => inl e
  | inr None => inl FileNotFoundError
  | inr (Some Dir) => inl IsADirectoryError
  | inr (Some (File text)) => inr text
  end.

(** [q] without its prefix [p], when it has that prefix. *)
Fixpoint strip_prefix (p q : path) : option path :=
  match p, q with
  | [], _ => Some q
  | a :: p', b :: q' => if decide (a = b) then strip_prefix p' q' else None
  | _ :: _, [] => None
  end.

(** The name [c] when [q] is the child [p </> c] of [p]. *)
Definition child_name (p q : path) : option string :=
  match strip_prefix p q with
  | Some [c] => Some c
  | _ => None
  end.

(** The entries of the file system that are children of [p], in the order
    of the map's entries. *)
Definition children (fs : FS) (p : path) : list path :=
  filter (λ q, is_Some (child_name p q)) (map_to_list fs).*1.

(** [Path.iterdir()]: the children of a directory, in the order the
    operating system reports them, which it leaves unspecified. *)
Definition iterdir (fs : FS) (p : path) : exn + list path :=
  match stat fs p with
  | inl e => inl e
  | inr None => inl FileNotFoundError
  | inr (Some (File _)) => inl NotADirectoryError
  | inr (Some Dir) => inr (children fs p)
  end.

(** ** The libraries: PyYAML, json and pydantic's (de)serialisers *)

(** [pyobj] is what [yaml.safe_load] returns and [model_dump(mode="json")]
    produces. [ProjectMeta_kwargs now data] is the constructor [ProjectMeta] applied
    to the mapping [data] as its keyword arguments: it
    raises when [data] is no mapping or a field fails its validator, and
    [now] is the instant that [default_factory=datetime.utcnow] yields when
    [data] carries no [created_at]. The three laws are the contracts the
    service relies on: a dumped record is read back as dumped, a valid
    record is rebuilt from its dump, and whatever the constructor returns
    has passed the validators. *)
Class Libs := {
  pyobj : Type;
  model_dump : ProjectMeta → pyobj;
  yaml_dump : pyobj → string;
  yaml_safe_load : string → exn + pyobj;
  ProjectMeta_kwargs : datetime → pyobj → exn + ProjectMeta;
  Conversation_json_dump : Conversation → string;
  yaml_safe_load_dump :
    ∀ m, yaml_safe_load (yaml_dump (model_dump m)) = inr (model_dump m);
  ProjectMeta_kwargs_dump :
    ∀ now m, ProjectMeta_valid m → ProjectMeta_kwargs now (model_dump m) = inr m;
  ProjectMeta_kwargs_valid :
    ∀ now data m, ProjectMeta_kwargs now data = inr m → ProjectMeta_valid m
}.

(** ** Computations on the file system that may raise *)

Definition M (A : Type) : Type := FS → (exn + A) * FS.

Definition ret {A} (a : A) : M A := λ fs, (inr a, fs).

Definition raise {A} (e : exn) : M A := λ fs, (inl e, fs).

Definition bind {A B} (c : M A) (k : A → M B) : M B :=
  λ fs, match c fs with
        | (inr a, fs') => k a fs'
        | (inl e, fs') => (inl e, fs')
        end.

Declare Scope fs_scope.
Notation "x ← y ; z" := (bind y (λ x, z))
  (at level 20, y at level 100, z at level 200, only parsing) : fs_scope.
Notation "y ;; z" := (bind y (λ _, z))
  (at level 100, z at level 200, only parsing, right associativity) : fs_scope.
Local Open Scope fs_scope.

(** A result computed elsewhere, an exception being raised here. *)
Definition lift {A} (r : exn + A) : M A :=
  λ fs, (r, fs).

(** Reading the file system. *)
Definition query {A} (op : FS → exn + A) : M A := λ fs, (op fs, fs).

(** An operation that changes the file system or fails and changes
    nothing. *)
Definition effect (op : FS → exn + FS) : M unit :=
  λ fs, match op fs with
        | inr fs' => (inr tt, fs')
        | inl e => (inl e, fs)
        end.

(** [try: c  except Exception: h] *)
Definition try_except {A} (c h : M A) : M A :=
  λ fs, match c fs with
        | (inl _, fs') => h fs'
        | r => r
        end.

(** [for x in l: body(x)] *)
Fixpoint for_each {A} (l : list A) (body : A → M unit) : M unit :=
  match l with
  | [] => ret tt
  | x :: l' => body x;; for_each l' body
  end.

(** A [for] loop that updates a local variable [acc]. *)
Fixpoint for_fold {A B} (l : list A) (acc : B) (body : B → A → M B) : M B :=
  match l with
  | [] => ret acc
  | x :: l' => acc' ← body acc x; for_fold l' acc' body
  end.

(** ** [Path.mkdir]

    [Path.mkdir(parents, exist_ok)] tries [os.mkdir]; on
    [FileNotFoundError] with [parents] it makes the parent with
    [parents=True, exist_ok=True] and then calls itself without [parents];
    on any other [OSError] it succeeds only if [exist_ok] and the path is a
    directory. The parents it has made stay when a later step fails. *)

(** The handler [except OSError: if not exist_ok or not self.is_dir():
    raise], entered with the exception [e]. *)
Definition except_OSError (exist_ok : bool) (p : path) (e : exn) : M unit :=
  if exist_ok then
    d ← query (Path_is_dir p);
    if d then ret tt else raise e
  else raise e.

(** [Path.mkdir(parents=False, exist_ok)] *)
Definition mkdir_leaf (exist_ok : bool) (p : path) : M unit :=
  λ fs, match os_mkdir p fs with
        | inr fs' => (inr tt, fs')
        | inl FileNotFoundError => (inl FileNotFoundError, fs)
        | inl e => except_OSError exist_ok p e fs
        end.

(** [Path.mkdir(parents, exist_ok)], on the reversed path so that the
    recursion on the parent is structural. *)
Fixpoint mkdir_rev (parents exist_ok : bool) (rp : list string) : M unit :=
  λ fs, match os_mkdir (reverse rp) fs with
        | inr fs' => (inr tt, fs')
        | inl FileNotFoundError =>
            match rp with
            | _ :: rparent =>
                if parents then
                  (mkdir_rev true true rparent;;
                   mkdir_leaf exist_ok (reverse rp)) fs
                else (inl FileNotFoundError, fs)
            | [] => (inl FileNotFoundError, fs)
            end
        | inl e => except_OSError exist_ok (reverse rp) e fs
        end.

Definition mkdir (parents exist_ok : bool) (p : path) : M unit :=
  mkdir_rev parents exist_ok (reverse p).

(** ** server/config.py *)

Definition PROJECTS_ROOT : path := [].
Definition PROJECT_DIRS : list string := ["docs"; "chat"; "meta"; "history"].

(** ** server/utils/paths.py *)

(** The parts that [pathlib] makes of a string: the pieces between the
    separators, without the empty ones and the ones that are ["."]. *)
Definition pathlib_parts (s : string) : list string :=
  filter (λ x, x ≠ "" ∧ x ≠ ".") (PyStr.split_slash s).

(** A string that starts with a separator is an absolute path; its anchor
    is ["//"] when it starts with exactly two separators and ["/"]
    otherwise. *)
Definition is_absolute (s : string) : bool :=
  match s with
  | String c _ => PyStr.is_slash c
  | EmptyString => false
  end.

Definition anchor (s : string) : string :=
  match s with
  | String _ (String c2 EmptyString) => if PyStr.is_slash c2 then "//" else "/"
  | String _ (String c2 (String c3 _)) =>
      if PyStr.is_slash c2 && negb (PyStr.is_slash c3) then "//" else "/"
  | _ => "/"
  end.

(** [base / s] for a string [s]: the parts of [s] are appended to those of
    [base], unless [s] is absolute, which replaces [base]. An absolute path
    is written with its anchor as first part; it leads out of the tree
    below the projects root. *)
Definition joinpath (base : path) (s : string) : path :=
  if is_absolute s then anchor s :: pathlib_parts s
  else base ++ pathlib_parts s.

Definition get_project_path (project_id : string) : path :=
  joinpath PROJECTS_ROOT project_id.

Definition get_project_docs_path (project_id : string) : path :=
  get_project_path project_id </> "docs".

Definition get_project_chat_path (project_id : string) : path :=
  get_project_path project_id </> "chat".

Definition get_project_meta_path (project_id : string) : path :=
  get_project_path project_id </> "meta".

Definition get_project_history_path (project_id : string) : path :=
  get_project_path project_id </> "history".

Definition project_exists (project_id : string) (fs : FS) : exn + bool :=
  Path_is_dir (get_project_path project_id) fs.

(** ** server/services/project_service.py *)

Definition nl : string := String (Ascii.ascii_of_nat 10) EmptyString.

(** The f-string written to [meta/summary.md]. *)
Definition summary_template (description : string) : string :=
  "# Project Summary
" +:+ "
## Intent
" +:+ PyStr.or_else description "[Describe what this project is trying to achieve]" +:+ "

## Current Focus
[What are you working on right now?]

## Constraints
- [List any hard constraints or rules]

## Open Questions
- [What decisions are pending?]

## Last Known Good State
[What was working last time you touched this?]

## Notes to Future Me
[Anything you'll forget but shouldn't]
".

(** The f-string written to [docs/index.md]. *)
Definition index_template (name description : string) : string :=
  "# " +:+ name +:+ nl +:+ nl +:+ description +:+ nl.

Section Service.
Context `{Libs}.

(** [create_project]; [t_meta] and [t_conv] are the instants of its two
    calls of [datetime.utcnow()]. *)
Definition create_project (t_meta t_conv : datetime)
    (project_id name description : string) : M ProjectMeta :=
  if negb (PyStr.truthy project_id)
     || negb (PyStr.isalnum (PyStr.replace_hyphen_empty project_id))
  then raise ValueError
  else if negb (bool_decide (project_id = PyStr.lower project_id))
  then raise ValueError
  else
    found ← query (project_exists project_id);
    if found then raise ProjectExistsError
    else
      let project_path := get_project_path project_id in
      for_each PROJECT_DIRS
        (λ dir_name, mkdir true true (project_path </> dir_name));;
      mkdir false true (get_project_history_path project_id </> "docs");;
      mkdir false true (get_project_history_path project_id </> "meta");;
      meta ← lift (ProjectMeta_new project_id name description t_meta);
      let meta_path := get_project_meta_path project_id </> "project.yaml" in
      effect (write_text meta_path (yaml_dump (model_dump meta)));;
      let summary_path := get_project_meta_path project_id </> "summary.md" in
      effect (write_text summary_path (summary_template description));;
      let chat_path := get_project_chat_path project_id </> "main.json" in
      let conversation := Conversation_new "main" t_conv in
      effect (write_text chat_path (Conversation_json_dump conversation));;
      let index_path := get_project_docs_path project_id </> "index.md" in
      effect (write_text index_path (index_template name description));;
      ret meta.

(** [data = yaml.safe_load(f)] on the opened file, then the constructor
    [ProjectMeta] on the keyword arguments [data]. *)
Definition load_meta (now : datetime) (meta_file : path) : M ProjectMeta :=
  text ← query (read_text meta_file);
  data ← lift (yaml_safe_load text);
  lift (ProjectMeta_kwargs now data).

(** [p.last_opened_at or p.created_at]: a datetime is always true. *)
Definition sort_key (p : ProjectMeta) : datetime :=
  match last_opened_at p with
  | Some t => t
  | None => created_at p
  end.

(** [sorted(l, key=key, reverse=True)]: descending and stable, elements
    with equal keys keep their order. *)
Fixpoint insert_desc {A} (key : A → Z) (x : A) (l : list A) : list A :=
  match l with
  | [] => [x]
  | y :: l' => if (key x <? key y)%Z then y :: insert_desc key x l' else x :: y :: l'
  end.

Definition sorted_reverse {A} (key : A → Z) (l : list A) : list A :=
  foldr (insert_desc key) [] l.

(** The body of the loop of [list_projects] for one entry of the root. *)
Definition scan_entry (clock : path → datetime)
    (projects : list ProjectMeta) (p : path) : M (list ProjectMeta) :=
  d ← query (Path_is_dir p);
  if negb d then ret projects
  else
    let meta_file := p </> "meta" </> "project.yaml" in
    e ← query (Path_exists meta_file);
    if negb e then ret projects
    else
      try_except
        (m ← load_meta (clock p) meta_file; ret (projects ++ [m]))
        (ret projects).

(** [list_projects]; [clock p] is the instant the clock shows while the
    entry [p] is loaded. *)
Definition list_projects (clock : path → datetime) : M (list ProjectMeta) :=
  let projects := [] in
  root_found ← query (Path_exists PROJECTS_ROOT);
  if negb root_found then ret projects
  else
    entries ← query (λ fs, iterdir fs PROJECTS_ROOT);
    projects ← for_fold entries projects (scan_entry clock);
    ret (sorted_reverse sort_key projects).

Definition set_last_opened_at (m : ProjectMeta) (t : datetime) : ProjectMeta :=
  {| id := id m; name := name m; created_at := created_at m;
     last_opened_at := Some t; description := description m;
     status := status m; rules := rules m |}.

(** [open_project]; [t_load] is the instant at which the metadata is
    rebuilt and [t_now] the one of its own [datetime.utcnow()]. *)
Definition open_project (t_load t_now : datetime) (project_id : string)
  : M ProjectMeta :=
  found ← query (project_exists project_id);
  if negb found then raise ProjectNotFoundError
  else
    let meta_path := get_project_meta_path project_id </> "project.yaml" in
    meta ← load_meta t_load meta_path;
    let meta := set_last_opened_at meta t_now in
    effect (write_text meta_path (yaml_dump (model_dump meta)));;
    ret meta.

(** [get_project] *)
Definition get_project (t_load : datetime) (project_id : string)
  : M ProjectMeta :=
  found ← query (project_exists project_id);
  if negb found then raise ProjectNotFoundError
  else
    let meta_path := get_project_meta_path project_id </> "project.yaml" in
    load_meta t_load meta_path.

End Service.

(** ** A reference implementation of the libraries

    One implementation of [Libs], used to run the service on concrete
    inputs: the dumped text of a record is its number in an enumeration of
    all records, written in binary. *)

Definition ProjectStatus_to_nat (s : ProjectStatus) : nat :=
  match s with ACTIVE => 0 | PAUSED => 1 | ARCHIVED => 2 end.

Definition ProjectStatus_of_nat (n : nat) : ProjectStatus :=
  match n with 0%nat => ACTIVE | 1%nat => PAUSED | _ => ARCHIVED end.

#[global] Instance ProjectStatus_countable : Countable ProjectStatus.
Proof.
  apply (inj_countable' ProjectStatus_to_nat ProjectStatus_of_nat).
  by intros [].
Defined.

#[global] Instance ProjectRules_countable : Countable ProjectRules.
Proof.
  apply (inj_countable'
    (λ r, (allow_cross_project_access r, llm_edit_scope r, max_llm_edit_size r))
    (λ t, {| allow_cross_project_access := t.1.1; llm_edit_scope := t.1.2;
             max_llm_edit_size := t.2 |})).
  by intros [].
Defined.

#[global] Instance ProjectMeta_countable : Countable ProjectMeta.
Proof.
  apply (inj_countable'
    (λ m, (id m, name m, created_at m, last_opened_at m, description m,
           status m, rules m))
    (λ t, {| id := t.1.1.1.1.1.1; name := t.1.1.1.1.1.2;
             created_at := t.1.1.1.1.2; last_opened_at := t.1.1.1.2;
             description := t.1.1.2; status := t.1.2; rules := t.2 |})).
  by intros [].
Defined.

Fixpoint bits_of_pos (p : positive) : string :=
  match p with
  | xH => EmptyString
  | xO q => String "0" (bits_of_pos q)
  | xI q => String "1" (bits_of_pos q)
  end.

Fixpoint bits_to_pos (s : string) : option positive :=
  match s with
  | EmptyString => Some xH
  | String c r =>
      if Ascii.eqb c "0" then xO <$> bits_to_pos r
      else if Ascii.eqb c "1" then xI <$> bits_to_pos r
      else None
  end.

Definition ref_yaml_safe_load (text : string) : exn + ProjectMeta :=
  match bits_to_pos text ≫= decode with
  | Some m => inr m
  | None => inl YAMLError
  end.

Definition ref_kwargs (now : datetime) (m : ProjectMeta) : exn + ProjectMeta :=
  if id_pattern (id m) && name_length_ok (name m) then inr m
  else inl ValidationError.

#[global, program] Instance ref_libs : Libs := {|
  pyobj := ProjectMeta;
  model_dump m := m;
  yaml_dump m := bits_of_pos (encode m);
  yaml_safe_load := ref_yaml_safe_load;
  ProjectMeta_kwargs := ref_kwargs;
  Conversation_json_dump c := conversation_id c
|}.
Next Obligation.
  intros m. unfold ref_yaml_safe_load.
  assert (Hbits : ∀ p, bits_to_pos (bits_of_pos p) = Some p).
  { induction p as [p IH|p IH|]; simpl; rewrite ?IH; done. }
  rewrite Hbits. simpl. by rewrite decode_encode.
Qed.
Next Obligation.
  intros now m [Hid Hname]. unfold ref_kwargs. by rewrite Hid, Hname.
Qed.
Next Obligation.
  intros now data m. unfold ref_kwargs, ProjectMeta_valid.
  destruct (id_pattern (id data)) eqn:Hid, (name_length_ok (name data)) eqn:Hname;
    intros Heq; simplify_eq/=; done.
Qed.

(** ** Sample inputs

    File systems and values on which the service is run with the
    reference libraries. *)

Definition demo_meta : ProjectMeta :=
  {| id := "notes"; name := "Notes"; created_at := 10; last_opened_at := None;
     description := "first"; status := ACTIVE; rules := ProjectRules_default |}.

(** The disk after [create_project("notes", "Notes", "first")] on an empty
    one. *)
Definition demo_fs : FS := (create_project 10 11 "notes" "Notes" "first" ∅).2.

(** The same with a stray file and an empty folder next to the project. *)
Definition mixed_fs : FS :=
  <[["broken"] := Dir]> (<[["readme.txt"] := File "hi"]> demo_fs).

(** The disk after [create_project("draft", "")], which fails. *)
Definition partial_fs : FS :=
  (create_project 10 11 "draft" "" "" {[PROJECTS_ROOT := Dir]}).2.

(** The one-character string U+00E9, a lower-case letter outside a-z. *)
Definition e_acute : string := String (Ascii.ascii_of_nat 233) EmptyString.

(** ** The vocabulary of the statements *)

(** The two checks at the head of [create_project] let [project_id] pass. *)
Definition id_checks_pass (project_id : string) : bool :=
  PyStr.truthy project_id
  && PyStr.isalnum (PyStr.replace_hyphen_empty project_id)
  && bool_decide (project_id = PyStr.lower project_id).

Definition not_hyphen (c : ascii) : bool := negb (PyStr.is_hyphen c).

(** A character the checks let through: a hyphen, or alphanumeric and not
    upper case. *)
Definition passing_char (c : ascii) : bool :=
  PyStr.is_hyphen c || (PyStr.char_isalnum c && negb (PyStr.char_is_upper c)).

Definition is_ascii_char (c : ascii) : bool := (PyStr.code c <? 128)%N.

Definition dirs_preserved (fs fs' : FS) : Prop :=
  ∀ q, fs !! q = Some Dir → fs' !! q = Some Dir.

(** A computation that leaves the file system as it found it. *)
Definition read_only {A} (c : M A) : Prop := ∀ fs, (c fs).2 = fs.

(** A computation whose exceptions all satisfy [P]. *)
Definition raises_only {A} (P : exn → Prop) (c : M A) : Prop :=
  ∀ fs e fs', c fs = (inl e, fs') → P e.

(** A computation that never removes a directory. *)
Definition preserves_dirs {A} (c : M A) : Prop :=
  ∀ fs r fs', c fs = (r, fs') → dirs_preserved fs fs'.

(** The projects root is absent or a directory. *)
Definition root_ok (fs : FS) : Prop :=
  fs !! PROJECTS_ROOT = None ∨ fs !! PROJECTS_ROOT = Some Dir.

(** Nothing is stored at the project path or below it. *)
Definition nothing_at (project_id : string) (fs : FS) : Prop :=
  ∀ q, fs !! (get_project_path project_id ++ q) = None.

(** The directory tree that [create_project] makes. *)
Definition scaffold (project_id : string) (fs : FS) : FS :=
  <[get_project_history_path project_id </> "meta" := Dir]>
  (<[get_project_history_path project_id </> "docs" := Dir]>
  (<[get_project_history_path project_id := Dir]>
  (<[get_project_meta_path project_id := Dir]>
  (<[get_project_chat_path project_id := Dir]>
  (<[get_project_docs_path project_id := Dir]>
  (<[get_project_path project_id := Dir]>
  (<[PROJECTS_ROOT := Dir]> fs))))))).

(** The four files that [create_project] writes. *)
Definition seed_files (project_id yaml summary chat index : string) (fs : FS) : FS :=
  <[get_project_docs_path project_id </> "index.md" := File index]>
  (<[get_project_chat_path project_id </> "main.json" := File chat]>
  (<[get_project_meta_path project_id </> "summary.md" := File summary]>
  (<[get_project_meta_path project_id </> "project.yaml" := File yaml]> fs))).

Definition descending {A} (key : A → Z) : list A → Prop :=
  StronglySorted (λ a b, (key b ≤ key a)%Z).

Section Vocabulary.
Context `{Libs}.

(** What a request to create a project and then read it back should give. *)
Definition create_then_get (t_meta t_conv t_load : datetime)
    (project_id nm descr : string) (fs : FS) : Prop :=
  ∃ m fs1,
    create_project t_meta t_conv project_id nm descr fs = (inr m, fs1)
    ∧ get_project t_load project_id fs1 = (inr m, fs1)
    ∧ id m = project_id ∧ name m = nm ∧ description m = descr
    ∧ status m = ACTIVE ∧ last_opened_at m = None.

(** The record that the entry [p] of the projects root contributes to the
    listing, if its metadata can be read, parsed and validated. *)
Definition loaded (clock : path → datetime) (fs : FS) (p : path) : option ProjectMeta :=
  match (load_meta (clock p) (p </> "meta" </> "project.yaml") fs).1 with
  | inr m => Some m
  | inl _ => None
  end.

(** Why an entry of the projects root yields no record. *)
Inductive unloadable (clock : path → datetime) (fs : FS) (p : path) : Prop :=
  | no_metadata_file :
      path_exists fs (p </> "meta" </> "project.yaml") = false →
      unloadable clock fs p
  | metadata_unreadable e :
      read_text (p </> "meta" </> "project.yaml") fs = inl e →
      unloadable clock fs p
  | metadata_unparsable text e :
      read_text (p </> "meta" </> "project.yaml") fs = inr text →
      yaml_safe_load text = inl e →
      unloadable clock fs p
  | metadata_invalid text data e :
      read_text (p </> "meta" </> "project.yaml") fs = inr text →
      yaml_safe_load text = inr data →
      ProjectMeta_kwargs (clock p) data = inl e →
      unloadable clock fs p.

End Vocabulary.

(** ** Further sample inputs *)

Definition log_meta : ProjectMeta :=
  {| id := "log"; name := "Log"; created_at := 50; last_opened_at := None;
     description := ""; status := ACTIVE; rules := ProjectRules_default |}.

(** The sample disk after a second project ["log"] was created on it. *)
Definition two_fs : FS := (create_project 50 51 "log" "Log" "" demo_fs).2.

(** A disk on which a regular file sits where the project ["notes"]
    would go. *)
Definition blocked_fs : FS :=
  <[get_project_path "notes" := File "in the way"]> {[PROJECTS_ROOT := Dir]}.

(** A disk on which the projects root is a regular file. *)
Definition file_root_fs : FS := {[PROJECTS_ROOT := File "not a folder"]}.

Definition todo_meta : ProjectMeta :=
  {| id := "todo"; name := "Todo"; created_at := 10; last_opened_at := None;
     description := ""; status := ACTIVE; rules := ProjectRules_default |}.

(** The disk with a third project ["todo"], created at the same instant
    as ["notes"]. *)
Definition tie_fs : FS := (create_project 10 11 "todo" "Todo" "" two_fs).2.

(** The sample disk with a copy of the metadata of ["notes"] inside its
    folder [docs], so that ["notes/docs"] reads as a project too. *)
Definition nested_fs : FS :=
  <[["notes"; "docs"; "meta"; "project.yaml"] :=
      File (yaml_dump (model_dump demo_meta))]>
    (<[["notes"; "docs"; "meta"] := Dir]> demo_fs).

(** An identifier of 256 letters, one more than a folder name may have. *)
Definition long_id : string := string_of_list_ascii (repeat "a"%char 256).

(** ** Further vocabulary: what an operation may touch *)

(** A computation that changes the file system only at the paths in [P],
    whatever its outcome. *)
Definition touches_only {A} (P : path → Prop) (c : M A) : Prop :=
  ∀ fs r fs', c fs = (r, fs') → ∀ q, ¬ P q → fs' !! q = fs !! q.

(** The paths that belong to a project: the projects root, the project
    path and everything below it. *)
Definition project_area (project_id : string) (q : path) : Prop :=
  q = PROJECTS_ROOT ∨ get_project_path project_id `prefix_of` q.

(** Two file systems that hold the same entries at the prefixes of [p],
    [p] included. *)
Definition agree_along (p : path) (fs fs' : FS) : Prop :=
  ∀ q, q `prefix_of` p → fs' !! q = fs !! q.

(** A computation whose every run relates the file system before to the
    one after by [R], whatever its outcome. *)
Definition keeps {A : Type} (R : relation FS) (c : M A) : Prop :=
  ∀ fs r fs', c fs = (r, fs') → R fs fs'.

(** Every directory is still a directory and every file still a file,
    its text possibly rewritten. *)
Definition kinds_kept (fs fs' : FS) : Prop :=
  ∀ q, match fs !! q with
       | Some Dir => fs' !! q = Some Dir
       | Some (File _) => ∃ text, fs' !! q = Some (File text)
       | None => True
       end.

(** [fs'] is [fs] with directories added at some prefixes of [p]. *)
Definition dirs_added (p : path) (fs fs' : FS) : Prop :=
  ∀ q, fs' !! q = fs !! q
       ∨ (fs !! q = None ∧ fs' !! q = Some Dir ∧ q `prefix_of` p).

(** A name of one folder: not empty, not ["."], and without separator. *)
Definition is_component (s : string) : bool :=
  PyStr.truthy s && negb (String.eqb s ".")
  && PyStr.all_chars (λ c, negb (PyStr.is_slash c)) s.

(** The identifiers whose path lies in the tree below the projects root
    whatever is on disk: those that are not absolute and have no part
    [".."]. *)
Definition in_tree (project_id : string) : bool :=
  negb (is_absolute project_id)
  && forallb (λ x, negb (String.eqb x "..")) (pathlib_parts project_id).


(** Every entry of [fs'] that [fs] does not have has such a name. *)
Definition names_kept (fs fs' : FS) : Prop :=
  ∀ q c, fs !! (q </> c) = None → is_Some (fs' !! (q </> c)) →
         name_too_long c = false.

(** The six directories of a project, below the project path. *)
Definition project_subdirs : list path :=
  [["docs"]; ["chat"]; ["meta"]; ["history"];
   ["history"; "docs"]; ["history"; "meta"]].

(** Characters that no accepted identifier contains: the upper-case
    letters A-Z, the control characters, and space, dot, slash, colon,
    backslash and underscore. *)
Definition unsafe_char (c : ascii) : bool :=
  PyStr.is_upper_AZ c || (PyStr.code c <? 32)%N
  || (PyStr.code c =? 32)%N || (PyStr.code c =? 46)%N || (PyStr.code c =? 47)%N
  || (PyStr.code c =? 58)%N || (PyStr.code c =? 92)%N || (PyStr.code c =? 95)%N.

(** * Properties *)

(** ** The identifier checks of [create_project] *)

Ltac by_cases_on_char c :=
  destruct c as [[] [] [] [] [] [] [] []]; vm_compute; try done.

Lemma char_lower_fixed c :
  PyStr.char_lower c = c ↔ PyStr.char_is_upper c = false.
Proof. by_cases_on_char c; split; done. Qed.

Lemma id_char_passing c : id_char c = true → passing_char c = true.
Proof. by_cases_on_char c. Qed.

Lemma passing_ascii_id_char c :
  is_ascii_char c = true → passing_char c = true → id_char c = true.
Proof. by_cases_on_char c. Qed.

Lemma id_char_ascii c : id_char c = true → is_ascii_char c = true.
Proof. by_cases_on_char c. Qed.

Lemma lower_fixed_iff s :
  s = PyStr.lower s ↔ PyStr.all_chars (λ c, negb (PyStr.char_is_upper c)) s = true.
Proof.
  induction s as [|c s IH]; simpl; [done|].
  rewrite andb_true_iff, negb_true_iff, <- IH, <- char_lower_fixed.
  split; [intros [= Hc Hs]|intros [Hc Hs]]; [split|]; congruence.
Qed.

Lemma all_chars_replace_hyphen f s :
  PyStr.all_chars f (PyStr.replace_hyphen_empty s)
  = PyStr.all_chars (λ c, PyStr.is_hyphen c || f c) s.
Proof.
  induction s as [|c s IH]; simpl; [done|].
  destruct (PyStr.is_hyphen c); simpl; by rewrite IH.
Qed.

Lemma truthy_replace_hyphen s :
  PyStr.truthy (PyStr.replace_hyphen_empty s) = PyStr.any_char not_hyphen s.
Proof.
  induction s as [|c s IH]; simpl; [done|]. unfold not_hyphen at 1.
  by destruct (PyStr.is_hyphen c).
Qed.

Lemma any_char_truthy f s : PyStr.any_char f s = true → PyStr.truthy s = true.
Proof. by destruct s. Qed.

Lemma all_chars_and f g s :
  PyStr.all_chars (λ c, f c && g c) s = PyStr.all_chars f s && PyStr.all_chars g s.
Proof.
  induction s as [|c s IH]; simpl; [done|]. rewrite IH.
  destruct (f c), (g c), (PyStr.all_chars f s); done.
Qed.

Lemma all_chars_ext f g s :
  (∀ c, f c = g c) → PyStr.all_chars f s = PyStr.all_chars g s.
Proof. intros Hfg. induction s as [|c s IH]; simpl; [done|]. by rewrite Hfg, IH. Qed.

Lemma all_chars_impl f g s :
  (∀ c, f c = true → g c = true) →
  PyStr.all_chars f s = true → PyStr.all_chars g s = true.
Proof.
  intros Hfg. induction s as [|c s IH]; simpl; [done|].
  rewrite !andb_true_iff. intros [Hc Hs]. split; [by apply Hfg|by apply IH].
Qed.

(** The checks accept exactly the strings that have a character other
    than a hyphen and consist of hyphens and alphanumeric characters that
    are not upper case. *)
Lemma id_checks_pass_spec s :
  id_checks_pass s = true
  ↔ PyStr.any_char not_hyphen s = true ∧ PyStr.all_chars passing_char s = true.
Proof.
  unfold id_checks_pass, PyStr.isalnum.
  rewrite !andb_true_iff, bool_decide_eq_true, lower_fixed_iff.
  rewrite truthy_replace_hyphen, all_chars_replace_hyphen.
  assert (PyStr.all_chars passing_char s
          = PyStr.all_chars (λ c, PyStr.is_hyphen c || PyStr.char_isalnum c) s
            && PyStr.all_chars (λ c, negb (PyStr.char_is_upper c)) s) as ->.
  { rewrite <- all_chars_and. apply all_chars_ext. intros c. by_cases_on_char c. }
  rewrite andb_true_iff. split.
  - by intros [[_ [Hany Hall]] Hlow].
  - intros (Hany & Hall & Hlow). eauto using any_char_truthy.
Qed.

(** On the identifiers of the pattern the checks fail only for those made
    of hyphens alone. *)
Lemma id_checks_pass_pattern s :
  id_pattern s = true → id_checks_pass s = PyStr.any_char not_hyphen s.
Proof.
  unfold id_pattern. rewrite andb_true_iff. intros [_ Hall].
  apply eq_true_iff_eq. rewrite id_checks_pass_spec.
  split; [by intros [Hany _]|]. intros Hany. split; [done|].
  eauto using all_chars_impl, id_char_passing.
Qed.

(** An ASCII string that passes the checks matches the pattern. *)
Lemma id_checks_pass_ascii s :
  PyStr.all_chars is_ascii_char s = true →
  id_checks_pass s = true → id_pattern s = true.
Proof.
  rewrite id_checks_pass_spec. intros Hascii [Hany Hall].
  unfold id_pattern. rewrite andb_true_iff. split; [eauto using any_char_truthy|].
  revert Hascii Hall. clear Hany.
  induction s as [|c s IH]; simpl; [done|].
  rewrite !andb_true_iff. intros [] []. eauto using passing_ascii_id_char.
Qed.

(** ** The path of an identifier *)

Lemma passing_char_no_slash c : passing_char c = true → PyStr.is_slash c = false.
Proof. by_cases_on_char c. Qed.

Lemma split_slash_component s :
  PyStr.all_chars (λ c, negb (PyStr.is_slash c)) s = true → PyStr.split_slash s = [s].
Proof.
  induction s as [|c s IH]; cbn [PyStr.all_chars PyStr.split_slash]; [done|].
  rewrite andb_true_iff, negb_true_iff. intros [-> Hs]. by rewrite IH.
Qed.

Lemma is_component_spec s :
  is_component s = true
  ↔ s ≠ "" ∧ s ≠ "." ∧ PyStr.all_chars (λ c, negb (PyStr.is_slash c)) s = true.
Proof.
  unfold is_component. rewrite !andb_true_iff, negb_true_iff, String.eqb_neq.
  split.
  - intros [[Hs Hdot] Hall]. split_and!; [|done..]. by intros ->.
  - intros (Hs & Hdot & Hall). split_and!; [|done..]. by destruct s.
Qed.

Lemma pathlib_parts_component s : is_component s = true → pathlib_parts s = [s].
Proof.
  rewrite is_component_spec. intros (Hs & Hdot & Hall). unfold pathlib_parts.
  rewrite split_slash_component by done.
  rewrite filter_cons, filter_nil. by rewrite decide_True.
Qed.

(** For a name without separator, other than ["."] and the empty one,
    the join appends one part. *)
Lemma joinpath_component base s : is_component s = true → joinpath base s = base </> s.
Proof.
  intros Hs. unfold joinpath. rewrite pathlib_parts_component by done.
  apply is_component_spec in Hs as (Hne & _ & Hall).
  destruct s as [|c s]; [done|]. cbn [is_absolute PyStr.all_chars] in *.
  apply andb_true_iff in Hall as [Hc%negb_true_iff _]. by rewrite Hc.
Qed.

Lemma id_checks_pass_component s : id_checks_pass s = true → is_component s = true.
Proof.
  rewrite id_checks_pass_spec, is_component_spec. intros [Hany Hall]. split_and!.
  - by intros ->.
  - by intros ->.
  - eapply all_chars_impl; [|exact Hall].
    intros c Hc. by rewrite (passing_char_no_slash _ Hc).
Qed.

(** An identifier that passes the checks of [create_project] names one
    folder directly below the projects root. *)
Lemma get_project_path_checked s :
  id_checks_pass s = true → get_project_path s = PROJECTS_ROOT </> s.
Proof. intros Hs. by apply joinpath_component, id_checks_pass_component. Qed.

(** On the identifiers of the pattern, bytes and characters are the same. *)
Lemma utf8_length_ascii s :
  PyStr.all_chars is_ascii_char s = true → PyStr.utf8_length s = String.length s.
Proof.
  induction s as [|c s IH]; cbn [PyStr.all_chars PyStr.utf8_length String.length];
    [done|].
  rewrite andb_true_iff. unfold is_ascii_char at 1. intros [-> Hs]. by rewrite IH.
Qed.

Lemma id_pattern_name_length s :
  id_pattern s = true → name_too_long s = negb (String.length s <=? NAME_MAX)%nat.
Proof.
  unfold id_pattern, name_too_long. rewrite andb_true_iff. intros [_ Hall].
  rewrite utf8_length_ascii by eauto using all_chars_impl, id_char_ascii.
  destruct (Nat.leb_spec (String.length s) NAME_MAX) as [Hle|Hlt].
  - by apply Nat.ltb_ge.
  - by apply Nat.ltb_lt.
Qed.

(** ** Stepping through a computation *)

Lemma bind_inr {A B} (c : M A) (k : A → M B) fs b fs2 :
  bind c k fs = (inr b, fs2) →
  ∃ a fs1, c fs = (inr a, fs1) ∧ k a fs1 = (inr b, fs2).
Proof. unfold bind. destruct (c fs) as [[e|a] fs1]; [done|]. eauto. Qed.

Lemma bind_step {A B} (c : M A) (k : A → M B) fs a fs1 :
  c fs = (inr a, fs1) → bind c k fs = k a fs1.
Proof. unfold bind. by intros ->. Qed.

Lemma bind_raise {A B} (c : M A) (k : A → M B) fs e fs1 :
  c fs = (inl e, fs1) → bind c k fs = (inl e, fs1).
Proof. unfold bind. by intros ->. Qed.

Lemma query_step {A B : Type} (op : FS → exn + A) (k : A → M B) fs a :
  op fs = inr a → bind (query op) k fs = k a fs.
Proof. intros Hop. apply bind_step. unfold query. by rewrite Hop. Qed.

Lemma query_raise {A B : Type} (op : FS → exn + A) (k : A → M B) fs e :
  op fs = inl e → bind (query op) k fs = (inl e, fs).
Proof. intros Hop. apply bind_raise. unfold query. by rewrite Hop. Qed.

Lemma query_inr {A : Type} (op : FS → exn + A) fs a fs1 :
  query op fs = (inr a, fs1) → op fs = inr a ∧ fs1 = fs.
Proof. unfold query. by intros [= -> ->]. Qed.

Lemma effect_inr op fs u fs1 : effect op fs = (inr u, fs1) → op fs = inr fs1.
Proof. unfold effect. destruct (op fs) as [e|fs']; [done|]. by intros [= _ <-]. Qed.

Lemma read_only_ret {A} (a : A) : read_only (ret a).
Proof. done. Qed.

Lemma read_only_raise {A} e : read_only (@raise A e).
Proof. done. Qed.

Lemma read_only_lift {A} (r : exn + A) : read_only (lift r).
Proof. done. Qed.

Lemma read_only_query {A} (op : FS → exn + A) : read_only (query op).
Proof. done. Qed.

Lemma read_only_bind {A B} (c : M A) (k : A → M B) :
  read_only c → (∀ a, read_only (k a)) → read_only (bind c k).
Proof.
  intros Hc Hk fs. unfold bind. specialize (Hc fs).
  destruct (c fs) as [[e|a] fs1]; simpl in *; subst; [done|]. apply Hk.
Qed.

Lemma read_only_run {A : Type} (c : M A) fs r fs' : read_only c → c fs = (r, fs') → fs' = fs.
Proof. intros Hc Hrun. specialize (Hc fs). by rewrite Hrun in Hc. Qed.

Lemma raises_only_ret {A} (P : exn → Prop) (a : A) : raises_only P (ret a).
Proof. by intros fs e fs'. Qed.

Lemma raises_only_raise {A} (P : exn → Prop) e : P e → raises_only P (@raise A e).
Proof. intros He fs e' fs' [= <- _]. done. Qed.

Lemma raises_only_lift {A} (P : exn → Prop) (r : exn + A) :
  (∀ e, r = inl e → P e) → raises_only P (lift r).
Proof. intros Hr fs e fs' [= -> _]. by apply Hr. Qed.

Lemma raises_only_query {A : Type} (P : exn → Prop) (op : FS → exn + A) :
  (∀ fs e, op fs = inl e → P e) → raises_only P (query op).
Proof. intros Hop fs e fs' [= Hfs _]. eauto. Qed.

Lemma raises_only_effect (P : exn → Prop) op :
  (∀ fs e, op fs = inl e → P e) → raises_only P (effect op).
Proof.
  intros Hop fs e fs'. unfold effect.
  destruct (op fs) as [e'|] eqn:Hfs; [|done]. intros [= <- _]. eauto.
Qed.

Lemma raises_only_bind {A B} (P : exn → Prop) (c : M A) (k : A → M B) :
  raises_only P c → (∀ a, raises_only P (k a)) → raises_only P (bind c k).
Proof.
  intros Hc Hk fs e fs'. unfold bind.
  destruct (c fs) as [[e'|a] fs1] eqn:Hfs.
  - intros [= <- _]. eauto.
  - apply Hk.
Qed.

Lemma raises_only_for_each {A} (P : exn → Prop) (l : list A) (body : A → M unit) :
  (∀ x, raises_only P (body x)) → raises_only P (for_each l body).
Proof.
  intros Hbody. induction l as [|x l IH]; simpl; [apply raises_only_ret|].
  apply raises_only_bind; [apply Hbody|]. by intros _.
Qed.

(** ** Path resolution *)

Lemma prefix_snoc_inv {A : Type} (q p : list A) (c : A) :
  q `prefix_of` p ++ [c] → q = p ++ [c] ∨ q `prefix_of` p.
Proof.
  intros [k Hk]. destruct k as [|x k _] using rev_ind.
  - left. by rewrite app_nil_r in Hk.
  - right. rewrite app_assoc in Hk. apply app_inj_2 in Hk as [-> _]; [|done].
    by exists k.
Qed.

Lemma walk_error fs cur rest e :
  walk fs cur rest = inl e →
  e = FileNotFoundError ∨ e = NotADirectoryError
  ∨ e = OSError_ENAMETOOLONG ∧ Exists (λ c, name_too_long c = true) rest.
Proof.
  revert cur. induction rest as [|c rest IH]; intros cur; cbn [walk]; [done|].
  assert (walk fs (cur ++ [c]) rest = inl e →
          e = FileNotFoundError ∨ e = NotADirectoryError
          ∨ e = OSError_ENAMETOOLONG
            ∧ Exists (λ c, name_too_long c = true) (c :: rest)) as Hrest.
  { intros [?|[?|[? ?]]]%IH; [by left|by right; left|].
    right; right. split; [done|]. by apply Exists_cons_tl. }
  destruct (fs !! cur) as [[]|].
  - destruct (fs !! (cur ++ [c])); [done|].
    destruct (name_too_long c) eqn:Hc; [|done].
    intros [= <-]. right; right. split; [done|]. by apply Exists_cons_hd.
  - intros [= <-]. by right; left.
  - intros [= <-]. by left.
Qed.

Lemma walk_error_OSError fs cur rest e : walk fs cur rest = inl e → is_OSError e = true.
Proof. by intros [->|[->|[-> _]]]%walk_error. Qed.

(** One step of [walk] that does not fail on the name. *)
Lemma walk_step fs cur c rest :
  fs !! cur = Some Dir →
  is_Some (fs !! (cur ++ [c])) ∨ name_too_long c = false →
  walk fs cur (c :: rest) = walk fs (cur ++ [c]) rest.
Proof.
  intros Hcur Hc. cbn [walk]. rewrite Hcur.
  destruct (fs !! (cur ++ [c])) as [n|]; [done|].
  destruct Hc as [[n Hn]|Hc]; [done|]. by rewrite Hc.
Qed.

Lemma walk_step_inv fs cur c rest o :
  walk fs cur (c :: rest) = inr o →
  fs !! cur = Some Dir ∧ walk fs (cur ++ [c]) rest = inr o.
Proof.
  cbn [walk]. destruct (fs !! cur) as [[]|]; try done.
  destruct (fs !! (cur ++ [c])); [done|]. by destruct (name_too_long c).
Qed.

Lemma walk_dirs fs cur rest :
  walk fs cur rest = inr (Some Dir)
  ↔ ∀ q, q `prefix_of` rest → fs !! (cur ++ q) = Some Dir.
Proof.
  revert cur. induction rest as [|c rest IH]; intros cur.
  - cbn [walk]. split.
    + intros [= Hcur] q ->%prefix_nil_inv. by rewrite app_nil_r.
    + intros Hq. f_equal. rewrite <- (app_nil_r cur). by apply Hq.
  - split.
    + intros [Hcur Hwalk]%walk_step_inv q Hq.
      destruct q as [|c' q]; [by rewrite app_nil_r|].
      apply prefix_cons_inv_1 in Hq as Hc. apply prefix_cons_inv_2 in Hq. subst c'.
      rewrite (cons_middle c cur q), app_assoc. by apply IH.
    + intros Hq. pose proof (Hq [] (prefix_nil _)) as Hcur.
      rewrite app_nil_r in Hcur.
      pose proof (Hq [c] (prefix_cons c _ _ (prefix_nil _))) as Hc.
      rewrite walk_step; [|done|left; by rewrite Hc].
      apply IH. intros q Hpre.
      rewrite <- app_assoc. apply Hq. simpl. by apply prefix_cons.
Qed.

Lemma walk_snoc fs cur rest c :
  walk fs cur rest = inr (Some Dir) →
  walk fs cur (rest ++ [c])
  = match fs !! (cur ++ rest ++ [c]) with
    | Some n => inr (Some n)
    | None => if name_too_long c then inl OSError_ENAMETOOLONG else inr None
    end.
Proof.
  revert cur. induction rest as [|c' rest IH]; intros cur.
  - cbn [walk app]. intros [= ->].
    destruct (fs !! (cur ++ [c])) as [n|]; [done|].
    by destruct (name_too_long c).
  - intros [Hcur Hwalk]%walk_step_inv. cbn [app walk]. rewrite Hcur.
    rewrite (IH _ Hwalk), <- app_assoc. cbn [app].
    destruct (fs !! (cur ++ [c'])) as [n|] eqn:Hc'; [done|].
    destruct (name_too_long c') eqn:Hlong; [|done].
    exfalso. revert Hwalk. clear -Hc' Hlong Hcur.
    destruct rest as [|c2 rest]; cbn [walk]; rewrite Hc'; done.
Qed.

Lemma walk_snoc_inv fs cur rest c o :
  walk fs cur (rest ++ [c]) = inr o → walk fs cur rest = inr (Some Dir).
Proof.
  revert cur. induction rest as [|c' rest IH]; intros cur.
  - cbn [app]. intros [Hcur _]%walk_step_inv. cbn [walk]. by rewrite Hcur.
  - cbn [app]. intros [Hcur Hwalk]%walk_step_inv.
    pose proof (IH _ Hwalk) as Hrest. revert Hwalk.
    cbn [walk]. rewrite Hcur.
    destruct (fs !! (cur ++ [c'])) as [n|] eqn:Hc'; [done|].
    destruct (name_too_long c') eqn:Hlong; [|done].
    exfalso. revert Hrest. clear -Hc'.
    destruct rest as [|c2 rest]; cbn [walk]; rewrite Hc'; done.
Qed.

Lemma is_dir_stat fs p : is_dir fs p = true ↔ stat fs p = inr (Some Dir).
Proof.
  unfold is_dir. destruct (stat fs p) as [e|[[]|]]; split; done.
Qed.

(** A path is a directory when it and all its prefixes are directory
    entries. *)
Lemma is_dir_spec fs p :
  is_dir fs p = true ↔ ∀ q, q `prefix_of` p → fs !! q = Some Dir.
Proof. rewrite is_dir_stat. unfold stat. by rewrite walk_dirs. Qed.

Lemma is_dir_lookup fs p : is_dir fs p = true → fs !! p = Some Dir.
Proof. rewrite is_dir_spec. intros Hp. by apply Hp. Qed.

Lemma is_dir_prefix fs p q : q `prefix_of` p → is_dir fs p = true → is_dir fs q = true.
Proof. rewrite !is_dir_spec. intros Hqp Hp r Hr. apply Hp. by etrans. Qed.

Lemma is_dir_parent fs p c : is_dir fs (p </> c) = true → is_dir fs p = true.
Proof. apply is_dir_prefix. by apply prefix_app_r. Qed.

(** The entry [c] of a directory [p]. *)
Lemma stat_child_eq fs p c :
  is_dir fs p = true →
  stat fs (p </> c)
  = match fs !! (p </> c) with
    | Some n => inr (Some n)
    | None => if name_too_long c then inl OSError_ENAMETOOLONG else inr None
    end.
Proof. rewrite is_dir_stat. apply walk_snoc. Qed.

Lemma stat_child fs p c :
  is_dir fs p = true → name_too_long c = false →
  stat fs (p </> c) = inr (fs !! (p </> c)).
Proof.
  intros Hdir Hc. rewrite stat_child_eq, Hc by done. by destruct (fs !! _).
Qed.

Lemma stat_child_found fs p c n :
  is_dir fs p = true → fs !! (p </> c) = Some n → stat fs (p </> c) = inr (Some n).
Proof. intros Hdir Hc. by rewrite stat_child_eq, Hc. Qed.

Lemma stat_child_long fs p c :
  is_dir fs p = true → fs !! (p </> c) = None → name_too_long c = true →
  stat fs (p </> c) = inl OSError_ENAMETOOLONG.
Proof. intros Hdir Hnone Hc. by rewrite stat_child_eq, Hnone, Hc. Qed.

Lemma stat_child_inv fs p c o :
  stat fs (p </> c) = inr o → is_dir fs p = true.
Proof. rewrite is_dir_stat. apply walk_snoc_inv. Qed.

Lemma stat_root fs : stat fs PROJECTS_ROOT = inr (fs !! PROJECTS_ROOT).
Proof. done. Qed.

Lemma stat_inr_lookup fs p o : stat fs p = inr o → o = fs !! p.
Proof.
  destruct p as [|c p _] using rev_ind; [by intros [= <-]|].
  intros Hstat. pose proof (stat_child_inv _ _ _ _ Hstat) as Hdir.
  rewrite (stat_child_eq fs p c Hdir) in Hstat.
  destruct (fs !! (p ++ [c])) as [n|]; [congruence|].
  destruct (name_too_long c); congruence.
Qed.

Lemma stat_error fs p e :
  stat fs p = inl e →
  e = FileNotFoundError ∨ e = NotADirectoryError
  ∨ e = OSError_ENAMETOOLONG ∧ Exists (λ c, name_too_long c = true) p.
Proof. apply walk_error. Qed.

Lemma walk_app fs cur p r :
  walk fs cur p = inr (Some Dir) → walk fs cur (p ++ r) = walk fs (cur ++ p) r.
Proof.
  revert cur. induction p as [|c p IH]; intros cur.
  - intros _. by rewrite app_nil_r.
  - intros [Hcur Hwalk]%walk_step_inv. cbn [app].
    rewrite walk_step; [|done|].
    + rewrite (IH _ Hwalk), <- app_assoc. done.
    + left. rewrite walk_dirs in Hwalk.
      rewrite <- (app_nil_r (cur ++ [c])), (Hwalk [] (prefix_nil _)). done.
Qed.

(** Below a directory, names that are short enough give no ENAMETOOLONG. *)
Lemma stat_below_error fs p r e :
  is_dir fs p = true → Forall (λ c, name_too_long c = false) r →
  stat fs (p ++ r) = inl e → e = FileNotFoundError ∨ e = NotADirectoryError.
Proof.
  rewrite is_dir_stat. unfold stat. intros Hdir Hr. rewrite (walk_app _ _ _ _ Hdir).
  intros [?|[?|[_ Hlong]]]%walk_error; [by left|by right|].
  apply Exists_exists in Hlong as (c & Hin & Hc).
  rewrite Forall_forall in Hr. specialize (Hr c Hin). congruence.
Qed.

(** ** [Path.exists] and [Path.is_dir] *)

Lemma Path_is_dir_inr p fs b : Path_is_dir p fs = inr b → is_dir fs p = b.
Proof.
  unfold Path_is_dir, is_dir.
  destruct (stat fs p) as [e|[[]|]]; [destruct (ignore_error e)|..]; by intros [= <-].
Qed.

Lemma Path_is_dir_inl p fs e :
  Path_is_dir p fs = inl e → e = OSError_ENAMETOOLONG ∧ stat fs p = inl e.
Proof.
  unfold Path_is_dir. destruct (stat fs p) as [e'|[[]|]] eqn:Hstat; try done.
  destruct (stat_error _ _ _ Hstat) as [->|[->|[-> _]]]; cbn [ignore_error]; try done.
  by intros [= <-].
Qed.

Lemma Path_is_dir_true p fs : is_dir fs p = true → Path_is_dir p fs = inr true.
Proof. rewrite is_dir_stat. unfold Path_is_dir. by intros ->. Qed.

(** When [stat] does not fail on a name, [Path.is_dir()] answers. *)
Lemma Path_is_dir_answers p fs :
  stat fs p ≠ inl OSError_ENAMETOOLONG → Path_is_dir p fs = inr (is_dir fs p).
Proof.
  unfold Path_is_dir, is_dir. destruct (stat fs p) as [e|[[]|]] eqn:Hstat; try done.
  by destruct (stat_error _ _ _ Hstat) as [->|[->|[-> _]]].
Qed.

Lemma Path_exists_answers p fs :
  stat fs p ≠ inl OSError_ENAMETOOLONG → Path_exists p fs = inr (path_exists fs p).
Proof.
  unfold Path_exists, path_exists. destruct (stat fs p) as [e|[[]|]] eqn:Hstat; try done.
  by destruct (stat_error _ _ _ Hstat) as [->|[->|[-> _]]].
Qed.

(** ** Directories are never removed *)

#[global] Instance dirs_preserved_preorder : PreOrder dirs_preserved.
Proof. split; [by intros fs q|]. intros fs1 fs2 fs3 H12 H23 q Hq. eauto. Qed.

Lemma dirs_preserved_is_dir fs fs' p :
  dirs_preserved fs fs' → is_dir fs p = true → is_dir fs' p = true.
Proof. rewrite !is_dir_spec. intros Hpres Hp q Hq. eauto. Qed.

Lemma dirs_preserved_insert fs p n :
  fs !! p ≠ Some Dir ∨ n = Dir → dirs_preserved fs (<[p := n]> fs).
Proof.
  intros Hp q Hq. destruct (decide (p = q)) as [->|Hne].
  - rewrite lookup_insert_eq. by destruct Hp as [Hp| ->]; [congruence|].
  - by rewrite lookup_insert_ne.
Qed.

(** ** Directories added along a path *)

#[global] Instance dirs_added_refl p : Reflexive (dirs_added p).
Proof. intros fs q. by left. Qed.

Lemma dirs_added_trans p fs1 fs2 fs3 :
  dirs_added p fs1 fs2 → dirs_added p fs2 fs3 → dirs_added p fs1 fs3.
Proof.
  intros H12 H23 q.
  destruct (H12 q) as [H1|(H1 & H2 & Hq)], (H23 q) as [H3|(H3 & H4 & Hq')].
  - left. congruence.
  - right. split_and!; [congruence|done..].
  - right. split_and!; [done|congruence|done].
  - congruence.
Qed.

Lemma dirs_added_prefix p p' fs fs' :
  p `prefix_of` p' → dirs_added p fs fs' → dirs_added p' fs fs'.
Proof.
  intros Hp Hadd q. destruct (Hadd q) as [?|(? & ? & ?)]; [by left|].
  right. split_and!; [done..|]. by etrans.
Qed.

Lemma dirs_added_insert p fs : fs !! p = None → dirs_added p fs (<[p := Dir]> fs).
Proof.
  intros Hp q. destruct (decide (p = q)) as [<-|Hne].
  - right. by rewrite lookup_insert_eq.
  - left. by rewrite lookup_insert_ne.
Qed.

Lemma dirs_added_preserved p fs fs' : dirs_added p fs fs' → dirs_preserved fs fs'.
Proof. intros Hadd q Hq. destruct (Hadd q) as [->|(? & _)]; congruence. Qed.

Lemma dirs_added_kinds_kept p fs fs' : dirs_added p fs fs' → kinds_kept fs fs'.
Proof.
  intros Hadd q. destruct (Hadd q) as [->|(-> & _)]; [|done].
  destruct (fs !! q) as [[]|]; eauto.
Qed.

Lemma dirs_added_elsewhere p fs fs' q :
  dirs_added p fs fs' → ¬ q `prefix_of` p → fs' !! q = fs !! q.
Proof. intros Hadd Hq. by destruct (Hadd q) as [?|(_ & _ & ?)]. Qed.

(** ** [os.mkdir] and [Path.mkdir] *)

Lemma os_mkdir_inr p fs fs' :
  os_mkdir p fs = inr fs' →
  fs !! p = None ∧ fs' = <[p := Dir]> fs ∧ is_dir fs' p = true.
Proof.
  unfold os_mkdir. destruct (stat fs p) as [e|[n|]] eqn:Hstat; try done.
  intros [= <-]. pose proof (stat_inr_lookup _ _ _ Hstat) as Hp.
  split_and!; [done..|]. apply is_dir_spec. intros q Hq.
  destruct (decide (q = p)) as [->|Hne]; [apply lookup_insert_eq|].
  rewrite lookup_insert_ne by done.
  destruct p as [|c p _] using rev_ind; [by apply prefix_nil_inv in Hq|].
  apply stat_child_inv in Hstat. rewrite is_dir_spec in Hstat. apply Hstat.
  apply prefix_snoc_inv in Hq as [?|?]; done.
Qed.

Lemma os_mkdir_inl p fs e : os_mkdir p fs = inl e → is_OSError e = true.
Proof.
  unfold os_mkdir. destruct (stat fs p) as [e'|[n|]] eqn:Hstat; try done.
  - intros [= <-]. by eapply walk_error_OSError.
  - by intros [= <-].
Qed.

Lemma except_OSError_read_only exist_ok p e : read_only (except_OSError exist_ok p e).
Proof.
  unfold except_OSError. destruct exist_ok; [|apply read_only_raise].
  apply read_only_bind; [apply read_only_query|].
  intros []; [apply read_only_ret|apply read_only_raise].
Qed.

Lemma except_OSError_inr exist_ok p e fs u fs' :
  except_OSError exist_ok p e fs = (inr u, fs') → fs' = fs ∧ is_dir fs p = true.
Proof.
  intros Hrun. split; [by eapply read_only_run, Hrun; apply except_OSError_read_only|].
  unfold except_OSError in Hrun. destruct exist_ok; [|done].
  apply bind_inr in Hrun as (d & fs1 & [Hd ->]%query_inr & Hrun).
  destruct d; [|done]. by apply Path_is_dir_inr in Hd.
Qed.

Lemma except_OSError_inl exist_ok p e fs e' fs' :
  except_OSError exist_ok p e fs = (inl e', fs') → e' = e ∨ e' = OSError_ENAMETOOLONG.
Proof.
  unfold except_OSError. destruct exist_ok; [|intros [= <- _]; by left].
  unfold bind, query. destruct (Path_is_dir p fs) as [e1|[]] eqn:Hd; [|done|].
  - intros [= <- _]. right. by apply Path_is_dir_inl in Hd as [-> _].
  - intros [= <- _]. by left.
Qed.

Lemma mkdir_leaf_dirs_added exist_ok p fs r fs' :
  mkdir_leaf exist_ok p fs = (r, fs') → dirs_added p fs fs'.
Proof.
  unfold mkdir_leaf. destruct (os_mkdir p fs) as [e|fs1] eqn:Hmk.
  - intros Hrun. assert (fs' = fs) as ->; [|done].
    destruct e;
      first [ congruence
            | exact (read_only_run _ _ _ _ (except_OSError_read_only _ _ _) Hrun) ].
  - intros [= _ <-]. apply os_mkdir_inr in Hmk as (Hnone & -> & _).
    by apply dirs_added_insert.
Qed.

Lemma mkdir_leaf_inr exist_ok p fs u fs' :
  mkdir_leaf exist_ok p fs = (inr u, fs') → is_dir fs' p = true.
Proof.
  unfold mkdir_leaf. destruct (os_mkdir p fs) as [e|fs1] eqn:Hmk.
  - destruct e; try done; intros [-> ?]%except_OSError_inr; done.
  - intros [= _ <-]. by apply os_mkdir_inr in Hmk as (_ & _ & ?).
Qed.

Lemma mkdir_leaf_inl exist_ok p fs e fs' :
  mkdir_leaf exist_ok p fs = (inl e, fs') → is_OSError e = true.
Proof.
  unfold mkdir_leaf. destruct (os_mkdir p fs) as [e0|fs1] eqn:Hmk; [|done].
  apply os_mkdir_inl in Hmk.
  destruct e0; try done; try (by intros [= <- _]);
    by intros [->| ->]%except_OSError_inl.
Qed.

(** Whatever its outcome, [Path.mkdir] only adds directories, at prefixes
    of its path. *)
Lemma mkdir_rev_dirs_added parents exist_ok rp fs r fs' :
  mkdir_rev parents exist_ok rp fs = (r, fs') → dirs_added (reverse rp) fs fs'.
Proof.
  revert parents exist_ok fs r fs'.
  induction rp as [|c rparent IH]; intros parents exist_ok fs r fs'; cbn [mkdir_rev].
  - destruct (os_mkdir (reverse []) fs) as [e|fs1] eqn:Hmk.
    + intros Hrun. assert (fs' = fs) as ->; [|done].
      destruct e;
        first [ congruence
              | exact (read_only_run _ _ _ _ (except_OSError_read_only _ _ _) Hrun) ].
    + intros [= _ <-]. apply os_mkdir_inr in Hmk as (Hnone & -> & _).
      by apply dirs_added_insert.
  - destruct (os_mkdir (reverse (c :: rparent)) fs) as [e|fs1] eqn:Hmk.
    + destruct e;
        try (intros Hrun;
             by rewrite (read_only_run _ _ _ _ (except_OSError_read_only _ _ _) Hrun)).
      destruct parents; [|by intros [= _ <-]].
      assert (reverse rparent `prefix_of` reverse (c :: rparent)) as Hpre.
      { rewrite reverse_cons. by apply prefix_app_r. }
      unfold bind. destruct (mkdir_rev true true rparent fs) as [[e|[]] fs1] eqn:Hparent.
      * intros [= _ <-]. eapply dirs_added_prefix; [done|]. by eapply IH.
      * intros Hleaf%mkdir_leaf_dirs_added. eapply dirs_added_trans; [|done].
        eapply dirs_added_prefix; [done|]. by eapply IH.
    + intros [= _ <-]. apply os_mkdir_inr in Hmk as (Hnone & -> & _).
      by apply dirs_added_insert.
Qed.

Lemma mkdir_rev_inr parents exist_ok rp fs u fs' :
  mkdir_rev parents exist_ok rp fs = (inr u, fs') → is_dir fs' (reverse rp) = true.
Proof.
  destruct rp as [|c rparent]; cbn [mkdir_rev].
  - destruct (os_mkdir (reverse []) fs) as [e|fs1] eqn:Hmk.
    + destruct e; try done; intros [-> ?]%except_OSError_inr; done.
    + intros [= _ <-]. by apply os_mkdir_inr in Hmk as (_ & _ & ?).
  - destruct (os_mkdir (reverse (c :: rparent)) fs) as [e|fs1] eqn:Hmk.
    + destruct e; try (intros [-> ?]%except_OSError_inr; done).
      destruct parents; [|done].
      intros ([] & fs1 & _ & Hleaf)%bind_inr. by eapply mkdir_leaf_inr.
    + intros [= _ <-]. by apply os_mkdir_inr in Hmk as (_ & _ & ?).
Qed.

Lemma mkdir_rev_inl parents exist_ok rp fs e fs' :
  mkdir_rev parents exist_ok rp fs = (inl e, fs') → is_OSError e = true.
Proof.
  revert parents exist_ok fs e fs'.
  induction rp as [|c rparent IH]; intros parents exist_ok fs e fs'; cbn [mkdir_rev].
  - destruct (os_mkdir (reverse []) fs) as [e0|fs1] eqn:Hmk; [|done].
    apply os_mkdir_inl in Hmk.
    destruct e0; try done; try (by intros [= <- _]);
      by intros [->| ->]%except_OSError_inl.
  - destruct (os_mkdir (reverse (c :: rparent)) fs) as [e0|fs1] eqn:Hmk; [|done].
    apply os_mkdir_inl in Hmk.
    destruct e0; try done; try (by intros [->| ->]%except_OSError_inl).
    destruct parents; [|by intros [= <- _]].
    unfold bind. destruct (mkdir_rev true true rparent fs) as [[e1|[]] fs1] eqn:Hparent.
    + intros [= <- _]. by eapply IH.
    + apply mkdir_leaf_inl.
Qed.

Lemma mkdir_dirs_added parents exist_ok p fs r fs' :
  mkdir parents exist_ok p fs = (r, fs') → dirs_added p fs fs'.
Proof.
  unfold mkdir. intros Hrun%mkdir_rev_dirs_added. by rewrite reverse_involutive in Hrun.
Qed.

Lemma mkdir_inr parents exist_ok p fs u fs' :
  mkdir parents exist_ok p fs = (inr u, fs') →
  dirs_preserved fs fs' ∧ is_dir fs' p = true.
Proof.
  intros Hrun. split.
  - by eapply dirs_added_preserved, mkdir_dirs_added.
  - unfold mkdir in Hrun. apply mkdir_rev_inr in Hrun.
    by rewrite reverse_involutive in Hrun.
Qed.

Lemma mkdir_inl parents exist_ok p fs e fs' :
  mkdir parents exist_ok p fs = (inl e, fs') → is_OSError e = true.
Proof. apply mkdir_rev_inl. Qed.

(** ** Writing and reading a file *)

Lemma write_text_inr p text fs fs' :
  write_text p text fs = inr fs' →
  fs !! p ≠ Some Dir ∧ fs' = <[p := File text]> fs ∧ dirs_preserved fs fs'.
Proof.
  unfold write_text. destruct (stat fs p) as [e|o] eqn:Hstat; [done|].
  apply stat_inr_lookup in Hstat as ->.
  destruct (fs !! p) as [[]|] eqn:Hp; try done; intros [= <-];
    (split_and!; [done..|]); apply dirs_preserved_insert; left; congruence.
Qed.

Lemma write_text_inl p text fs e :
  write_text p text fs = inl e → is_OSError e = true.
Proof.
  unfold write_text. destruct (stat fs p) as [e'|[[]|]] eqn:Hstat; try done.
  - intros [= <-]. by eapply walk_error_OSError.
  - by intros [= <-].
Qed.

Section ServiceProperties.
Context `{Libs}.

Lemma read_only_load_meta now meta_file : read_only (load_meta now meta_file).
Proof.
  unfold load_meta.
  repeat (apply read_only_bind; [|intros]);
    auto using read_only_query, read_only_lift.
Qed.

Lemma read_only_get_project t_load project_id :
  read_only (get_project t_load project_id).
Proof.
  unfold get_project. apply read_only_bind; [apply read_only_query|].
  intros []; simpl; [apply read_only_load_meta|apply read_only_raise].
Qed.

(** What [load_meta] does to a readable file. *)
Lemma load_meta_file now p c text fs :
  is_dir fs p = true → fs !! (p </> c) = Some (File text) →
  load_meta now (p </> c) fs
  = (data ← lift (yaml_safe_load text); lift (ProjectMeta_kwargs now data)) fs.
Proof.
  intros Hdir Hfile. unfold load_meta.
  rewrite (query_step _ _ fs text); [done|].
  unfold read_text. by rewrite (stat_child_found _ _ _ _ Hdir Hfile).
Qed.

Lemma load_meta_decodes now p c text data m fs :
  is_dir fs p = true → fs !! (p </> c) = Some (File text) →
  yaml_safe_load text = inr data → ProjectMeta_kwargs now data = inr m →
  load_meta now (p </> c) fs = (inr m, fs).
Proof.
  intros Hdir Hfile Hyaml Hkw. rewrite (load_meta_file _ _ _ text) by done.
  unfold bind, lift. by rewrite Hyaml, Hkw.
Qed.

(** A successful load tells what is on disk. *)
Lemma load_meta_inr now p c m fs fs' :
  load_meta now (p </> c) fs = (inr m, fs') →
  fs' = fs ∧ is_dir fs p = true ∧
  ∃ text data, fs !! (p </> c) = Some (File text) ∧
    yaml_safe_load text = inr data ∧ ProjectMeta_kwargs now data = inr m.
Proof.
  intros Hload. pose proof (read_only_run _ _ _ _ (read_only_load_meta _ _) Hload) as ->.
  split; [done|]. unfold load_meta in Hload.
  apply bind_inr in Hload as (text & fs1 & [Hread ->]%query_inr & Hload).
  apply bind_inr in Hload as (data & fs2 & Hyaml & Hkw).
  unfold lift in *. unfold read_text in Hread.
  destruct (stat fs (p </> c)) as [e|o] eqn:Hstat; [done|].
  apply stat_child_inv in Hstat as Hdir. apply stat_inr_lookup in Hstat as ->.
  split; [done|]. exists text, data.
  destruct (fs !! (p </> c)) as [[]|]; simplify_eq. split_and!; congruence.
Qed.

Lemma load_meta_missing now p fs :
  path_exists fs p = false →
  ∃ e, is_OSError e = true ∧ load_meta now p fs = (inl e, fs).
Proof.
  unfold path_exists. intros Hmissing.
  destruct (stat fs p) as [e|[n|]] eqn:Hstat; [|done|].
  - exists e. split; [by eapply walk_error_OSError|].
    apply query_raise. unfold read_text. by rewrite Hstat.
  - exists FileNotFoundError. split; [done|].
    apply query_raise. unfold read_text. by rewrite Hstat.
Qed.

(** Below a directory, with names that are short enough, the error is
    ENOENT or ENOTDIR. *)
Lemma load_meta_missing_below now p r fs :
  is_dir fs p = true → Forall (λ c, name_too_long c = false) r →
  path_exists fs (p ++ r) = false →
  ∃ e, (e = FileNotFoundError ∨ e = NotADirectoryError)
       ∧ load_meta now (p ++ r) fs = (inl e, fs).
Proof.
  unfold path_exists. intros Hdir Hr Hmissing.
  destruct (stat fs (p ++ r)) as [e|[n|]] eqn:Hstat; [|done|].
  - exists e. split; [by eapply stat_below_error|].
    apply query_raise. unfold read_text. by rewrite Hstat.
  - exists FileNotFoundError. split; [by left|].
    apply query_raise. unfold read_text. by rewrite Hstat.
Qed.

Lemma project_exists_inr project_id fs b :
  project_exists project_id fs = inr b → is_dir fs (get_project_path project_id) = b.
Proof. apply Path_is_dir_inr. Qed.

Lemma project_exists_true project_id fs :
  is_dir fs (get_project_path project_id) = true →
  project_exists project_id fs = inr true.
Proof. apply Path_is_dir_true. Qed.

Lemma project_exists_inl project_id fs e :
  project_exists project_id fs = inl e → e = OSError_ENAMETOOLONG.
Proof. by intros [-> _]%Path_is_dir_inl. Qed.

End ServiceProperties.

(** ** Readers: get and open on missing projects, get leaves the disk alone *)

Section Readers.
Context `{Libs}.


(** C8: for a project whose directory exists and whose metadata file holds
    a text that decodes to the record [m], [get_project] returns [m] and
    the file system after the call is the one before it, so the persisted
    record, its [last_opened_at] included, is untouched. *)
Theorem get_project_returns_stored t_load project_id text data m fs :
  is_dir fs (get_project_meta_path project_id) = true →
  fs !! (get_project_meta_path project_id </> "project.yaml") = Some (File text) →
  yaml_safe_load text = inr data →
  ProjectMeta_kwargs t_load data = inr m →
  get_project t_load project_id fs = (inr m, fs).
Proof.
  intros Hmeta Hfile Hyaml Hkw. unfold get_project.
  rewrite (query_step _ _ fs true); cbn [negb].
  - by apply (load_meta_decodes _ _ _ text data).
  - apply project_exists_true. by apply (is_dir_parent _ _ "meta").
Qed.

(** C9: when the project directory exists but there is no
    [meta/project.yaml] in it, [open_project] and [get_project] pass the
    existence check and fail in reading the file: the exception is the
    [OSError] of the read, not [ProjectNotFoundError]. *)
Theorem open_get_without_metadata t_load t_now project_id fs :
  project_exists project_id fs = inr true →
  path_exists fs (get_project_meta_path project_id </> "project.yaml") = false →
  ∃ e, (e = FileNotFoundError ∨ e = NotADirectoryError)
    ∧ e ≠ ProjectNotFoundError
    ∧ open_project t_load t_now project_id fs = (inl e, fs)
    ∧ get_project t_load project_id fs = (inl e, fs).
Proof.
  intros Hdir Hmissing. pose proof (project_exists_inr _ _ _ Hdir) as Hfolder.
  unfold get_project_meta_path in Hmissing. rewrite <- app_assoc in Hmissing.
  destruct (load_meta_missing_below t_load _ ["meta"; "project.yaml"] fs
              Hfolder) as (e & He & Hload); [by repeat constructor|done|].
  rewrite (app_assoc _ ["meta"] ["project.yaml"]) in Hload.
  exists e. split_and!; [done|by destruct He as [-> | ->]|..].
  - unfold open_project. rewrite (query_step _ _ fs true Hdir); cbn [negb].
    by apply bind_raise.
  - unfold get_project. by rewrite (query_step _ _ fs true Hdir).
Qed.

End Readers.

(** ** The identifier checks, as [create_project] applies them *)

Section IdentifierChecks.
Context `{Libs}.

Lemma create_project_checks_fail t_meta t_conv project_id nm descr fs :
  id_checks_pass project_id = false →
  create_project t_meta t_conv project_id nm descr fs = (inl ValueError, fs).
Proof.
  unfold id_checks_pass, create_project. intros Hfail.
  destruct (PyStr.truthy project_id); [|done].
  destruct (PyStr.isalnum _); [|done].
  by destruct (bool_decide _).
Qed.

(** After the checks [create_project] is the rest of its body. *)
Lemma create_project_checks_pass t_meta t_conv project_id nm descr :
  id_checks_pass project_id = true →
  create_project t_meta t_conv project_id nm descr
  = (found ← query (project_exists project_id);
     if found then raise ProjectExistsError
     else
       for_each PROJECT_DIRS
         (λ dir_name, mkdir true true (get_project_path project_id </> dir_name));;
       mkdir false true (get_project_history_path project_id </> "docs");;
       mkdir false true (get_project_history_path project_id </> "meta");;
       meta ← lift (ProjectMeta_new project_id nm descr t_meta);
       effect (write_text (get_project_meta_path project_id </> "project.yaml")
                 (yaml_dump (model_dump meta)));;
       effect (write_text (get_project_meta_path project_id </> "summary.md")
                 (summary_template descr));;
       effect (write_text (get_project_chat_path project_id </> "main.json")
                 (Conversation_json_dump (Conversation_new "main" t_conv)));;
       effect (write_text (get_project_docs_path project_id </> "index.md")
                 (index_template nm descr));;
       ret meta).
Proof.
  unfold id_checks_pass, create_project. rewrite !andb_true_iff.
  by intros [[-> ->] ->].
Qed.

Lemma raises_only_mkdir (P : exn → Prop) parents exist_ok p :
  (∀ e, is_OSError e = true → P e) → raises_only P (mkdir parents exist_ok p).
Proof. intros HP fs e fs' Hrun. by eapply HP, mkdir_inl. Qed.

Lemma raises_only_write_text (P : exn → Prop) p text :
  (∀ e, is_OSError e = true → P e) → raises_only P (effect (write_text p text)).
Proof.
  intros HP. apply raises_only_effect. intros fs e Hrun. by eapply HP, write_text_inl.
Qed.

Lemma raises_only_project_exists (P : exn → Prop) project_id :
  (∀ e, is_OSError e = true → P e) → raises_only P (query (project_exists project_id)).
Proof.
  intros HP. apply raises_only_query. intros fs e ->%project_exists_inl. by apply HP.
Qed.

Lemma raises_only_ProjectMeta_new (P : exn → Prop) project_id nm descr now :
  P ValidationError → raises_only P (lift (ProjectMeta_new project_id nm descr now)).
Proof.
  intros HP. apply raises_only_lift. unfold ProjectMeta_new.
  intros e. by destruct (_ && _); intros [= <-].
Qed.

(** What [create_project] raises once the identifier has passed the
    checks. *)
Lemma create_project_raises_after_checks (P : exn → Prop)
    t_meta t_conv project_id nm descr :
  id_checks_pass project_id = true →
  P ProjectExistsError → P ValidationError → (∀ e, is_OSError e = true → P e) →
  raises_only P (create_project t_meta t_conv project_id nm descr).
Proof.
  intros Hpass Hexists Hinvalid HOS. rewrite create_project_checks_pass by done.
  apply raises_only_bind; [by apply raises_only_project_exists|].
  intros []; [by apply raises_only_raise|].
  apply raises_only_bind;
    [apply raises_only_for_each; intros dir_name; by apply raises_only_mkdir|].
  intros _.
  repeat (apply raises_only_bind; [|intros ?]);
    first
      [ apply raises_only_ret
      | by apply raises_only_mkdir
      | by apply raises_only_write_text
      | by apply raises_only_ProjectMeta_new ].
Qed.

Lemma OSError_not_ValueError e : is_OSError e = true → e ≠ ValueError.
Proof. by intros He ->. Qed.

(** [ValueError] comes from the identifier checks and from nowhere else. *)
Lemma create_project_ValueError t_meta t_conv project_id nm descr fs :
  (create_project t_meta t_conv project_id nm descr fs).1 = inl ValueError
  ↔ id_checks_pass project_id = false.
Proof.
  split; [|intros Hfail; by rewrite create_project_checks_fail].
  destruct (id_checks_pass project_id) eqn:Hpass; [|done].
  destruct (create_project _ _ _ _ _ fs) as [[e|m] fs'] eqn:Hrun; [|done].
  intros [= ->]. exfalso.
  by apply (create_project_raises_after_checks (λ e, e ≠ ValueError)
              _ _ _ _ _ Hpass ltac:(done) ltac:(done) OSError_not_ValueError
              _ _ _ Hrun).
Qed.

(** C1: the identifier ["-"] consists of hyphens only, so it is in the
    class the specification accepts and it matches the pattern of the
    [id] field; [create_project] rejects it with the [ValueError] of its
    identifier checks, because removing the hyphens leaves the empty
    string, which [isalnum] refuses. *)
Theorem create_project_hyphen_only t_meta t_conv nm descr fs :
  id_pattern "-" = true
  ∧ create_project t_meta t_conv "-" nm descr fs = (inl ValueError, fs).
Proof. split; [done|]. by apply create_project_checks_fail. Qed.

(** Apart from the identifiers made of hyphens alone, the pattern and the
    checks agree on ASCII identifiers. *)
Lemma create_project_ValueError_ascii t_meta t_conv project_id nm descr fs :
  PyStr.all_chars is_ascii_char project_id = true →
  PyStr.any_char not_hyphen project_id = true →
  (create_project t_meta t_conv project_id nm descr fs).1 = inl ValueError
  ↔ id_pattern project_id = false.
Proof.
  intros Hascii Hany. rewrite create_project_ValueError.
  destruct (id_pattern project_id) eqn:Hpat.
  - rewrite id_checks_pass_pattern by done. by rewrite Hany.
  - split; [done|]. intros _.
    destruct (id_checks_pass project_id) eqn:Hpass; [|done].
    apply id_checks_pass_ascii in Hpass; congruence.
Qed.

End IdentifierChecks.

(** ** Creating a project where there is none *)

Ltac fs_lookup :=
  repeat first
    [ rewrite lookup_insert_eq
    | rewrite lookup_insert_ne by congruence ].

(** The paths of a project whose identifier has passed the checks. *)
Ltac fs_paths :=
  unfold get_project_history_path, get_project_meta_path, get_project_chat_path,
    get_project_docs_path in *;
  try match goal with
      | H : id_checks_pass ?s = true |- _ =>
          rewrite ?(get_project_path_checked s H) in *
      end;
  unfold PROJECTS_ROOT in *;
  cbn [app] in *.

Ltac fs_is_dir :=
  apply is_dir_stat; unfold stat; cbn [walk app]; fs_lookup; try done.

Lemma stat_short fs p :
  Forall (λ c, name_too_long c = false) p → stat fs p ≠ inl OSError_ENAMETOOLONG.
Proof.
  intros Hp [?|[?|[_ Hlong]]]%stat_error; [done..|].
  apply Exists_exists in Hlong as (c & Hin & Hc).
  rewrite Forall_forall in Hp. specialize (Hp c Hin). congruence.
Qed.

Lemma os_mkdir_child p c fs :
  is_dir fs p = true → fs !! (p </> c) = None → name_too_long c = false →
  os_mkdir (p </> c) fs = inr (<[p </> c := Dir]> fs).
Proof.
  intros Hdir Hnone Hc. unfold os_mkdir. by rewrite (stat_child _ _ _ Hdir Hc), Hnone.
Qed.

Lemma mkdir_child parents exist_ok p c fs :
  is_dir fs p = true → fs !! (p </> c) = None → name_too_long c = false →
  mkdir parents exist_ok (p </> c) fs = (inr tt, <[p </> c := Dir]> fs).
Proof.
  intros Hdir Hnone Hc. unfold mkdir. rewrite reverse_snoc. cbn [mkdir_rev].
  rewrite reverse_cons, reverse_involutive. by rewrite os_mkdir_child.
Qed.

Lemma is_dir_insert p q n fs :
  fs !! q ≠ Some Dir ∨ n = Dir →
  is_dir fs p = true → is_dir (<[q := n]> fs) p = true.
Proof. intros Hq. apply dirs_preserved_is_dir. by apply dirs_preserved_insert. Qed.

Lemma write_text_child p c text fs :
  is_dir fs p = true → fs !! (p </> c) ≠ Some Dir → name_too_long c = false →
  write_text (p </> c) text fs = inr (<[p </> c := File text]> fs).
Proof.
  intros Hdir Hfile Hc. unfold write_text. rewrite (stat_child _ _ _ Hdir Hc).
  by destruct (fs !! (p </> c)) as [[]|].
Qed.

(** Writing over a file that is there. *)
Lemma write_text_over p c text old fs :
  is_dir fs p = true → fs !! (p </> c) = Some (File old) →
  write_text (p </> c) text fs = inr (<[p </> c := File text]> fs).
Proof.
  intros Hdir Hfile. unfold write_text.
  by rewrite (stat_child_found _ _ _ _ Hdir Hfile).
Qed.

Lemma mkdir_parents_step p c fs fs1 :
  stat fs (p </> c) = inl FileNotFoundError →
  mkdir true true p fs = (inr tt, fs1) →
  fs1 !! (p </> c) = None → name_too_long c = false →
  mkdir true true (p </> c) fs = (inr tt, <[p </> c := Dir]> fs1).
Proof.
  intros Hstat Hparent Hnone Hc.
  pose proof (mkdir_inr _ _ _ _ _ _ Hparent) as [_ Hdir].
  unfold mkdir in *. rewrite reverse_snoc. cbn [mkdir_rev].
  rewrite reverse_cons, reverse_involutive.
  unfold os_mkdir at 1. rewrite Hstat. unfold bind. rewrite Hparent.
  unfold mkdir_leaf. by rewrite os_mkdir_child.
Qed.

Lemma mkdir_root fs :
  fs !! PROJECTS_ROOT = None →
  mkdir true true PROJECTS_ROOT fs = (inr tt, <[PROJECTS_ROOT := Dir]> fs).
Proof.
  unfold PROJECTS_ROOT. intros Hroot. unfold mkdir, reverse.
  cbn [rev_append mkdir_rev]. unfold reverse. cbn [rev_append].
  unfold os_mkdir, stat. cbn [walk]. by rewrite Hroot.
Qed.

(** The first [mkdir(parents=True)] makes the project directory, and the
    projects root if it is missing. *)
Lemma mkdir_parents_fresh project_id dir_name fs :
  id_checks_pass project_id = true →
  name_too_long project_id = false → name_too_long dir_name = false →
  root_ok fs → nothing_at project_id fs →
  mkdir true true (get_project_path project_id </> dir_name) fs
  = (inr tt,
     <[get_project_path project_id </> dir_name := Dir]>
       (<[get_project_path project_id := Dir]>
       (<[PROJECTS_ROOT := Dir]> fs))).
Proof.
  unfold root_ok, nothing_at. intros Hpass Hshort Hdir Hroot Hfresh. fs_paths.
  pose proof (Hfresh []) as Hid. pose proof (Hfresh [dir_name]) as Hsub.
  cbn [app] in Hid, Hsub.
  assert (mkdir true true [project_id] fs
          = (inr tt, <[[project_id] := Dir]> (<[[] := Dir]> fs))) as Hproject.
  { destruct Hroot as [Hroot|Hroot].
    - apply (mkdir_parents_step [] project_id); [|by apply mkdir_root| |done].
      + unfold stat. cbn [app walk]. by rewrite Hroot.
      + by rewrite lookup_insert_ne.
    - rewrite (insert_id fs []) by done.
      apply (mkdir_child _ _ [] project_id); [|done..].
      apply is_dir_stat. unfold stat. cbn [walk]. by rewrite Hroot. }
  apply (mkdir_parents_step [project_id] dir_name); [|done| |done].
  - unfold stat. cbn [app walk]. destruct Hroot as [Hroot|Hroot]; rewrite Hroot; [done|].
    by rewrite Hid, Hshort.
  - cbn [app]. by fs_lookup.
Qed.

Lemma scaffold_is_dir project_id fs p :
  id_checks_pass project_id = true →
  p ∈ [PROJECTS_ROOT; get_project_path project_id;
       get_project_docs_path project_id; get_project_chat_path project_id;
       get_project_meta_path project_id; get_project_history_path project_id;
       get_project_history_path project_id </> "docs";
       get_project_history_path project_id </> "meta"] →
  is_dir (scaffold project_id fs) p = true.
Proof.
  intros Hpass Hp. unfold scaffold. fs_paths.
  repeat (apply elem_of_cons in Hp as [->|Hp]); [fs_is_dir..|].
  by apply elem_of_nil in Hp.
Qed.

Lemma scaffold_no_metadata project_id fs :
  id_checks_pass project_id = true →
  nothing_at project_id fs →
  scaffold project_id fs !! (get_project_meta_path project_id </> "project.yaml")
  = None.
Proof.
  intros Hpass Hfresh. unfold scaffold, nothing_at in *. fs_paths. fs_lookup.
  apply (Hfresh ["meta"; "project.yaml"]).
Qed.

(** Nothing at the project path: the project does not exist, whatever the
    length of its name. *)
Lemma nothing_at_project_exists project_id fs :
  id_checks_pass project_id = true →
  name_too_long project_id = false →
  nothing_at project_id fs →
  project_exists project_id fs = inr false.
Proof.
  intros Hpass Hshort Hfresh. unfold project_exists.
  rewrite Path_is_dir_answers.
  - f_equal. apply not_true_is_false. intros Hdir%is_dir_lookup.
    specialize (Hfresh []). rewrite app_nil_r in Hfresh. congruence.
  - apply stat_short. rewrite get_project_path_checked by done.
    by repeat constructor.
Qed.

Section Creation.
Context `{Libs}.

(** [create_project] on a place where nothing is stored: the directory
    tree is made, then the record is built; if that fails the tree stays,
    otherwise the four files are written. *)
Lemma create_project_fresh t_meta t_conv project_id nm descr fs :
  id_checks_pass project_id = true →
  name_too_long project_id = false →
  root_ok fs → nothing_at project_id fs →
  create_project t_meta t_conv project_id nm descr fs
  = match ProjectMeta_new project_id nm descr t_meta with
    | inl e => (inl e, scaffold project_id fs)
    | inr m =>
        (inr m,
         seed_files project_id (yaml_dump (model_dump m)) (summary_template descr)
           (Conversation_json_dump (Conversation_new "main" t_conv))
           (index_template nm descr) (scaffold project_id fs))
    end.
Proof.
  intros Hpass Hshort Hroot Hfresh. rewrite create_project_checks_pass by done.
  rewrite (query_step _ _ fs false) by by apply nothing_at_project_exists.
  pose proof (mkdir_parents_fresh project_id "docs" fs Hpass Hshort eq_refl
                Hroot Hfresh) as Hdocs.
  unfold seed_files, scaffold, nothing_at in *. fs_paths.
  unfold for_each, PROJECT_DIRS, bind, effect, ret, lift.
  rewrite Hdocs.
  rewrite (mkdir_child _ _ [project_id] "chat");
    [|fs_is_dir|cbn [app]; fs_lookup; apply (Hfresh [_])|done].
  rewrite (mkdir_child _ _ [project_id] "meta");
    [|fs_is_dir|cbn [app]; fs_lookup; apply (Hfresh [_])|done].
  rewrite (mkdir_child _ _ [project_id] "history");
    [|fs_is_dir|cbn [app]; fs_lookup; apply (Hfresh [_])|done].
  rewrite (mkdir_child _ _ [project_id; "history"] "docs");
    [|fs_is_dir|cbn [app]; fs_lookup; apply (Hfresh [_; _])|done].
  rewrite (mkdir_child _ _ [project_id; "history"] "meta");
    [|fs_is_dir|cbn [app]; fs_lookup; apply (Hfresh [_; _])|done].
  cbn [app].
  destruct (ProjectMeta_new project_id nm descr t_meta) as [e|m]; [done|].
  rewrite (write_text_child [project_id; "meta"] "project.yaml");
    [|fs_is_dir|cbn [app]; fs_lookup; by rewrite (Hfresh [_; _])|done].
  rewrite (write_text_child [project_id; "meta"] "summary.md");
    [|fs_is_dir|cbn [app]; fs_lookup; by rewrite (Hfresh [_; _])|done].
  rewrite (write_text_child [project_id; "chat"] "main.json");
    [|fs_is_dir|cbn [app]; fs_lookup; by rewrite (Hfresh [_; _])|done].
  rewrite (write_text_child [project_id; "docs"] "index.md");
    [|fs_is_dir|cbn [app]; fs_lookup; by rewrite (Hfresh [_; _])|done].
  done.
Qed.

End Creation.

Lemma preserves_dirs_read_only {A : Type} (c : M A) : read_only c → preserves_dirs c.
Proof. intros Hc fs r fs' Hrun. by rewrite (read_only_run _ _ _ _ Hc Hrun). Qed.

Lemma preserves_dirs_effect op :
  (∀ fs fs', op fs = inr fs' → dirs_preserved fs fs') → preserves_dirs (effect op).
Proof.
  intros Hop fs r fs'. unfold effect. destruct (op fs) as [e|fs1] eqn:Hfs.
  - by intros [= _ <-].
  - intros [= _ <-]. eauto.
Qed.

Lemma preserves_dirs_bind {A B : Type} (c : M A) (k : A → M B) :
  preserves_dirs c → (∀ a, preserves_dirs (k a)) → preserves_dirs (bind c k).
Proof.
  intros Hc Hk fs r fs'. unfold bind.
  destruct (c fs) as [[e|a] fs1] eqn:Hfs.
  - intros [= _ <-]. eauto.
  - intros Hrun. etrans; [by eapply Hc|by eapply Hk].
Qed.

Lemma preserves_dirs_mkdir parents exist_ok p :
  preserves_dirs (mkdir parents exist_ok p).
Proof. intros fs r fs' Hrun. by eapply dirs_added_preserved, mkdir_dirs_added. Qed.

Lemma preserves_dirs_write_text p text :
  preserves_dirs (effect (write_text p text)).
Proof.
  apply preserves_dirs_effect. intros fs fs' Hw.
  by apply write_text_inr in Hw as (_ & _ & ?).
Qed.

Section CreationClaims.
Context `{Libs}.

Lemma get_project_exists t_load project_id fs :
  project_exists project_id fs = inr true →
  get_project t_load project_id fs
  = load_meta t_load (get_project_meta_path project_id </> "project.yaml") fs.
Proof. intros Hdir. unfold get_project. by rewrite (query_step _ _ fs true Hdir). Qed.

Lemma create_project_exists t_meta t_conv project_id nm descr fs :
  id_checks_pass project_id = true →
  project_exists project_id fs = inr true →
  create_project t_meta t_conv project_id nm descr fs = (inl ProjectExistsError, fs).
Proof.
  intros Hpass Hdir. rewrite create_project_checks_pass by done.
  by rewrite (query_step _ _ fs true Hdir).
Qed.

(** A successful [create_project] leaves the project directory behind. *)
Lemma create_project_inr_exists t_meta t_conv project_id nm descr fs m fs1 :
  create_project t_meta t_conv project_id nm descr fs = (inr m, fs1) →
  id_checks_pass project_id = true ∧ project_exists project_id fs1 = inr true.
Proof.
  intros Hrun.
  destruct (id_checks_pass project_id) eqn:Hpass;
    [|by rewrite create_project_checks_fail in Hrun].
  split; [done|]. rewrite create_project_checks_pass in Hrun by done.
  apply bind_inr in Hrun as (found & fs0 & [Hfound ->]%query_inr & Hrun).
  destruct found; [done|].
  apply bind_inr in Hrun as ([] & fsB & Hdirs & Hrun).
  cbn [for_each PROJECT_DIRS] in Hdirs.
  apply bind_inr in Hdirs as ([] & fsA & Hdocs & Hdirs).
  apply mkdir_inr in Hdocs as [_ Hdocs%is_dir_parent].
  apply project_exists_true.
  assert (dirs_preserved fsA fsB) as HAB.
  { clear -Hdirs. revert fsB Hdirs. generalize (inr tt : exn + ()). revert fsA.
    repeat (apply preserves_dirs_bind; [|intros ?]);
      first [apply preserves_dirs_mkdir | by apply preserves_dirs_read_only]. }
  assert (dirs_preserved fsB fs1) as HB1.
  { clear -Hrun. revert fs1 Hrun. generalize (inr m : exn + ProjectMeta). revert fsB.
    repeat (apply preserves_dirs_bind; [|intros ?]);
      first [ apply preserves_dirs_mkdir | apply preserves_dirs_write_text
            | by apply preserves_dirs_read_only ]. }
  eapply dirs_preserved_is_dir; [|exact Hdocs]. by etrans.
Qed.

(** C2, as amended: for an identifier that matches the pattern, has a
    character other than a hyphen and is at most 255 characters long, a
    name of 1 to 100 characters, and a file system that holds nothing at
    the project path (the projects root being a directory or absent),
    [create_project] succeeds and a following [get_project] returns the
    created record, whose [id], [name] and [description] are the
    arguments, whose [status] is active and whose [last_opened_at] is
    absent. *)
Theorem create_then_get_valid t_meta t_conv t_load project_id nm descr fs :
  id_pattern project_id = true →
  PyStr.any_char not_hyphen project_id = true →
  (String.length project_id ≤ NAME_MAX)%nat →
  name_length_ok nm = true →
  root_ok fs → nothing_at project_id fs →
  create_then_get t_meta t_conv t_load project_id nm descr fs.
Proof.
  intros Hpat Hany Hlen Hname Hroot Hfresh.
  assert (id_checks_pass project_id = true) as Hpass.
  { by rewrite id_checks_pass_pattern. }
  assert (name_too_long project_id = false) as Hshort.
  { rewrite id_pattern_name_length by done. apply negb_false_iff.
    by apply Nat.leb_le. }
  pose proof (create_project_fresh t_meta t_conv project_id nm descr fs
                Hpass Hshort Hroot Hfresh) as Hcreate.
  unfold ProjectMeta_new in Hcreate. rewrite Hpat, Hname in Hcreate.
  cbn [andb] in Hcreate.
  eexists _, _. split; [exact Hcreate|]. split; [|done].
  rewrite get_project_exists.
  - eapply (load_meta_decodes _ (get_project_meta_path project_id)).
    + unfold seed_files, scaffold. fs_paths. fs_is_dir.
    + unfold seed_files. fs_paths. by fs_lookup.
    + apply yaml_safe_load_dump.
    + by apply ProjectMeta_kwargs_dump.
  - apply project_exists_true. unfold seed_files, scaffold. fs_paths. fs_is_dir.
Qed.

(** When the record cannot be built, the tree made before stays on disk
    without a metadata file, and the identifier is taken from then on. *)
Lemma create_project_invalid_meta t_meta t_conv project_id nm descr fs :
  id_checks_pass project_id = true →
  name_too_long project_id = false →
  id_pattern project_id && name_length_ok nm = false →
  root_ok fs → nothing_at project_id fs →
  create_project t_meta t_conv project_id nm descr fs
  = (inl ValidationError, scaffold project_id fs)
  ∧ path_exists (scaffold project_id fs)
      (get_project_meta_path project_id </> "project.yaml") = false
  ∧ ∀ t_meta' t_conv' nm' descr',
      create_project t_meta' t_conv' project_id nm' descr' (scaffold project_id fs)
      = (inl ProjectExistsError, scaffold project_id fs).
Proof.
  intros Hpass Hshort Hinvalid Hroot Hfresh. split_and!.
  - rewrite create_project_fresh by done. unfold ProjectMeta_new. by rewrite Hinvalid.
  - unfold path_exists.
    rewrite stat_child; [|apply scaffold_is_dir; [done|set_solver]|done].
    by rewrite scaffold_no_metadata.
  - intros. apply create_project_exists; [done|].
    apply project_exists_true, scaffold_is_dir; [done|set_solver].
Qed.

(** C10: there are an identifier that matches the pattern and a name that
    breaks the length bounds (the empty one) for which [create_project]
    raises pydantic's [ValidationError] only after the whole directory
    tree has been made: the six directories are on disk, there is no
    metadata file, and creating the same identifier again raises
    [ProjectExistsError]. *)
Theorem create_project_invalid_name_partial :
  ∃ project_id nm,
    id_pattern project_id = true ∧ name_length_ok nm = false ∧
    ∀ t_meta t_conv descr, ∃ fs1,
      create_project t_meta t_conv project_id nm descr {[PROJECTS_ROOT := Dir]}
      = (inl ValidationError, fs1)
      ∧ Forall (λ d, is_dir fs1 (get_project_path project_id ++ d) = true)
          [["docs"]; ["chat"]; ["meta"]; ["history"];
           ["history"; "docs"]; ["history"; "meta"]]
      ∧ path_exists fs1 (get_project_meta_path project_id </> "project.yaml") = false
      ∧ ∀ t_meta' t_conv' nm' descr',
          create_project t_meta' t_conv' project_id nm' descr' fs1
          = (inl ProjectExistsError, fs1).
Proof.
  exists "notes", "". split; [done|]. split; [done|]. intros t_meta t_conv descr.
  assert (id_checks_pass "notes" = true) as Hpass by done.
  destruct (create_project_invalid_meta t_meta t_conv "notes" "" descr
              {[PROJECTS_ROOT := Dir]}) as (Hrun & Hmissing & Hagain); try done.
  { right. apply lookup_singleton_eq. }
  { intros q. rewrite get_project_path_checked by done.
    by apply lookup_singleton_ne. }
  eexists. split; [exact Hrun|]. split; [|done].
  unfold scaffold. fs_paths. repeat constructor; fs_is_dir.
Qed.

(** C4: once [create_project] has succeeded for an identifier, its
    project directory exists, and calling [create_project] again with that
    identifier, whatever the other arguments, raises [ProjectExistsError]
    and returns the file system as the first call left it. *)
Theorem create_project_twice t_meta t_conv t_meta' t_conv'
    project_id nm descr nm' descr' fs m fs1 :
  create_project t_meta t_conv project_id nm descr fs = (inr m, fs1) →
  project_exists project_id fs1 = inr true
  ∧ create_project t_meta' t_conv' project_id nm' descr' fs1
    = (inl ProjectExistsError, fs1).
Proof.
  intros [Hpass Hdir]%create_project_inr_exists.
  split; [done|]. by apply create_project_exists.
Qed.

End CreationClaims.

(** ** Opening a project *)

Section Opening.
Context `{Libs}.

Lemma set_last_opened_at_valid m t :
  ProjectMeta_valid m → ProjectMeta_valid (set_last_opened_at m t).
Proof. done. Qed.

(** [open_project] on a project whose metadata file decodes to [m]. *)
Lemma open_project_stored t_load t_now project_id text data m fs :
  is_dir fs (get_project_meta_path project_id) = true →
  fs !! (get_project_meta_path project_id </> "project.yaml") = Some (File text) →
  yaml_safe_load text = inr data →
  ProjectMeta_kwargs t_load data = inr m →
  open_project t_load t_now project_id fs
  = (inr (set_last_opened_at m t_now),
     <[get_project_meta_path project_id </> "project.yaml" :=
         File (yaml_dump (model_dump (set_last_opened_at m t_now)))]> fs).
Proof.
  intros Hmeta Hfile Hyaml Hkw. unfold open_project.
  rewrite (query_step _ _ fs true); cbn [negb].
  - rewrite (bind_step _ _ fs m fs) by by apply (load_meta_decodes _ _ _ text data).
    unfold bind, effect, ret. by rewrite (write_text_over _ _ _ text).
  - apply project_exists_true. by apply (is_dir_parent _ _ "meta").
Qed.

(** C3: on a project whose metadata file decodes to the record [m],
    [open_project] returns [m] with [last_opened_at] set to the current
    instant and all other fields as they were, rewrites the metadata file
    and nothing else, and the rewritten file decodes to the returned
    record; a second [open_project], at an instant that is not earlier,
    yields a [last_opened_at] that is later than or equal to the first. *)
Theorem open_project_touch t_load t_now t_load' t_now' project_id text data m fs :
  is_dir fs (get_project_meta_path project_id) = true →
  fs !! (get_project_meta_path project_id </> "project.yaml") = Some (File text) →
  yaml_safe_load text = inr data →
  ProjectMeta_kwargs t_load data = inr m →
  (t_now ≤ t_now')%Z →
  ∃ m1 fs1,
    open_project t_load t_now project_id fs = (inr m1, fs1)
    ∧ last_opened_at m1 = Some t_now
    ∧ id m1 = id m ∧ name m1 = name m ∧ created_at m1 = created_at m
    ∧ description m1 = description m ∧ status m1 = status m ∧ rules m1 = rules m
    ∧ (∀ p, p ≠ get_project_meta_path project_id </> "project.yaml" →
            fs1 !! p = fs !! p)
    ∧ (∀ t, get_project t project_id fs1 = (inr m1, fs1))
    ∧ ∃ m2 fs2 t1 t2,
        open_project t_load' t_now' project_id fs1 = (inr m2, fs2)
        ∧ last_opened_at m1 = Some t1 ∧ last_opened_at m2 = Some t2 ∧ (t1 ≤ t2)%Z.
Proof.
  intros Hmeta Hfile Hyaml Hkw Hclock.
  pose proof (ProjectMeta_kwargs_valid _ _ _ Hkw) as Hvalid.
  eexists _, _. split; [by eapply open_project_stored|].
  set (m1 := set_last_opened_at m t_now).
  set (fs1 := <[_ := File (yaml_dump (model_dump m1))]> fs).
  assert (is_dir fs1 (get_project_meta_path project_id) = true) as Hmeta1.
  { apply is_dir_insert; [|done]. left. by rewrite Hfile. }
  assert (fs1 !! (get_project_meta_path project_id </> "project.yaml")
          = Some (File (yaml_dump (model_dump m1)))) as Hfile1.
  { apply lookup_insert_eq. }
  assert (∀ t, ProjectMeta_kwargs t (model_dump m1) = inr m1) as Hkw1.
  { intros t. by apply ProjectMeta_kwargs_dump, set_last_opened_at_valid. }
  split_and!; try done.
  - intros p Hp. by apply lookup_insert_ne.
  - intros t. rewrite get_project_exists.
    + eapply load_meta_decodes; [done..|apply yaml_safe_load_dump|apply Hkw1].
    + apply project_exists_true. by apply (is_dir_parent _ _ "meta").
  - eexists _, _, t_now, t_now'. split.
    + apply (open_project_stored _ _ _ (yaml_dump (model_dump m1)) (model_dump m1) m1);
        [done|done|apply yaml_safe_load_dump|apply Hkw1].
    + done.
Qed.

End Opening.

(** ** Listing the projects *)

(** [sorted(..., reverse=True)] returns a permutation of its argument
    with the keys in descending order. *)
Lemma insert_desc_perm {A} (key : A → Z) x l : insert_desc key x l ≡ₚ x :: l.
Proof.
  induction l as [|y l IH]; simpl; [done|].
  destruct (key x <? key y)%Z; [|done]. rewrite IH. apply Permutation_swap.
Qed.

Lemma sorted_reverse_perm {A} (key : A → Z) l : sorted_reverse key l ≡ₚ l.
Proof.
  induction l as [|x l IH]; simpl; [done|].
  unfold sorted_reverse in *. simpl. by rewrite insert_desc_perm, IH.
Qed.

Lemma insert_desc_descending {A} (key : A → Z) x l :
  descending key l → descending key (insert_desc key x l).
Proof.
  unfold descending. induction 1 as [|y l Hsorted IH Hy]; simpl.
  { repeat constructor. }
  destruct (key x <? key y)%Z eqn:Hlt.
  - apply Z.ltb_lt in Hlt. apply SSorted_cons; [exact IH|].
    rewrite insert_desc_perm. apply Forall_cons_2; [lia|exact Hy].
  - apply Z.ltb_ge in Hlt. apply SSorted_cons; [by apply SSorted_cons|].
    apply Forall_cons_2; [lia|].
    eapply Forall_impl; [exact Hy|]. intros z Hz. simpl in *. lia.
Qed.

Lemma sorted_reverse_descending {A} (key : A → Z) l :
  descending key (sorted_reverse key l).
Proof.
  induction l as [|x l IH]; [constructor|]. by apply insert_desc_descending.
Qed.

Lemma strip_prefix_spec p q r : strip_prefix p q = Some r ↔ q = p ++ r.
Proof.
  revert q. induction p as [|a p IH]; intros [|b q]; simpl;
    try (split; congruence).
  case_decide; subst; rewrite ?IH; split; congruence.
Qed.

Lemma child_name_spec p q c : child_name p q = Some c ↔ q = p </> c.
Proof.
  unfold child_name. rewrite <- strip_prefix_spec.
  destruct (strip_prefix p q) as [[|c' [|]]|]; split; congruence.
Qed.

Lemma elem_of_children fs p q :
  q ∈ children fs p ↔ ∃ c, q = p </> c ∧ is_Some (fs !! q).
Proof.
  unfold children. rewrite list_elem_of_filter, list_elem_of_fmap. split.
  - intros [[c Hc] ([q' n] & -> & Hq%elem_of_map_to_list)].
    exists c. by apply child_name_spec in Hc.
  - intros (c & -> & [n Hn]). split.
    + exists c. by apply child_name_spec.
    + exists (p ++ [c], n). by rewrite elem_of_map_to_list.
Qed.

Lemma NoDup_children fs p : NoDup (children fs p).
Proof. apply NoDup_filter, NoDup_fst_map_to_list. Qed.

Section Listing.
Context `{Libs}.

Lemma load_meta_run now p fs :
  load_meta now p fs
  = (match read_text p fs with
     | inl e => inl e
     | inr text =>
         match yaml_safe_load text with
         | inl e => inl e
         | inr data => ProjectMeta_kwargs now data
         end
     end, fs).
Proof.
  unfold load_meta, bind, query, lift.
  destruct (read_text p fs) as [e|text]; [done|].
  by destruct (yaml_safe_load text).
Qed.

Lemma unloadable_loaded clock fs p : unloadable clock fs p → loaded clock fs p = None.
Proof.
  unfold loaded. rewrite load_meta_run. cbn [fst].
  intros [Hmissing|e Hread|text e Hread Hyaml|text data e Hread Hyaml Hkw].
  - destruct (load_meta_missing (clock p) _ _ Hmissing) as (e & _ & Hload).
    rewrite load_meta_run in Hload. injection Hload as Hload. by rewrite Hload.
  - by rewrite Hread.
  - by rewrite Hread, Hyaml.
  - by rewrite Hread, Hyaml, Hkw.
Qed.

Lemma loaded_None_unloadable clock fs p :
  loaded clock fs p = None → unloadable clock fs p.
Proof.
  unfold loaded. rewrite load_meta_run. cbn [fst].
  destruct (read_text _ fs) as [e|text] eqn:Hread;
    [intros _; by eapply metadata_unreadable|].
  destruct (yaml_safe_load text) as [e|data] eqn:Hyaml.
  { intros _. by eapply metadata_unparsable. }
  destruct (ProjectMeta_kwargs (clock p) data) as [e|m] eqn:Hkw; [|done].
  intros _. by eapply metadata_invalid.
Qed.

(** One turn of the loop, for an entry whose name the file system does
    not refuse: the accumulator grows by the record of the entry, if it
    has one; nothing is raised and nothing is written. *)
Lemma scan_entry_run clock projects p fs :
  stat fs p ≠ inl OSError_ENAMETOOLONG →
  scan_entry clock projects p fs
  = (inr (projects ++ option_list (loaded clock fs p)), fs).
Proof.
  intros Hp. unfold scan_entry, loaded.
  rewrite (query_step _ _ fs (is_dir fs p)) by by apply Path_is_dir_answers.
  destruct (is_dir fs p) eqn:Hdir; cbn [negb].
  - rewrite (query_step _ _ fs (path_exists fs (p </> "meta" </> "project.yaml"))).
    2:{ apply Path_exists_answers. rewrite <- app_assoc. intros Hstat.
        apply stat_below_error in Hstat as [?|?]; [done..|]. by repeat constructor. }
    destruct (path_exists fs _) eqn:Hfile; cbn [negb].
    + unfold try_except, bind, ret. rewrite load_meta_run. cbn [fst].
      destruct (read_text _ fs) as [e|text]; [by rewrite app_nil_r|].
      destruct (yaml_safe_load text) as [e|data]; [by rewrite app_nil_r|].
      by destruct (ProjectMeta_kwargs _ data); rewrite ?app_nil_r.
    + destruct (load_meta_missing (clock p) _ _ Hfile) as (e & _ & ->).
      cbn [fst option_list]. by rewrite app_nil_r.
  - rewrite load_meta_run. unfold read_text. cbn [fst].
    destruct (stat fs (p </> "meta" </> "project.yaml")) as [e|o] eqn:Hstat;
      [cbn [option_list]; by rewrite app_nil_r|].
    apply stat_child_inv, is_dir_parent in Hstat. congruence.
Qed.

Lemma for_fold_scan_run clock entries projects fs :
  Forall (λ p, stat fs p ≠ inl OSError_ENAMETOOLONG) entries →
  for_fold entries projects (scan_entry clock) fs
  = (inr (projects ++ omap (loaded clock fs) entries), fs).
Proof.
  intros Hentries. revert projects.
  induction Hentries as [|p entries Hp _ IH]; intros projects; simpl.
  { by rewrite app_nil_r. }
  unfold bind. rewrite scan_entry_run by done. cbv beta iota. rewrite IH.
  destruct (loaded clock fs p); simpl; by rewrite <- ?app_assoc, ?app_nil_r.
Qed.

(** The entries that [iterdir] reports can be looked up. *)
Lemma children_stat fs p q :
  is_dir fs p = true → q ∈ children fs p → stat fs q ≠ inl OSError_ENAMETOOLONG.
Proof.
  intros Hdir (c & -> & [n Hn])%elem_of_children.
  by rewrite (stat_child_found _ _ _ _ Hdir Hn).
Qed.

(** [list_projects], case by case on the projects root. *)
Lemma list_projects_run clock fs :
  list_projects clock fs
  = match fs !! PROJECTS_ROOT with
    | None => (inr [], fs)
    | Some (File _) => (inl NotADirectoryError, fs)
    | Some Dir =>
        (inr (sorted_reverse sort_key
                (omap (loaded clock fs) (children fs PROJECTS_ROOT))), fs)
    end.
Proof.
  unfold list_projects. cbv zeta.
  destruct (fs !! PROJECTS_ROOT) as [[]|] eqn:Hroot.
  - rewrite (query_step _ _ fs true)
      by (unfold Path_exists; by rewrite stat_root, Hroot).
    cbn [negb].
    rewrite (query_step _ _ fs (children fs PROJECTS_ROOT))
      by (unfold iterdir; by rewrite stat_root, Hroot).
    assert (Forall (λ p, stat fs p ≠ inl OSError_ENAMETOOLONG)
              (children fs PROJECTS_ROOT)) as Hentries.
    { apply Forall_forall. intros q. apply children_stat.
      apply is_dir_stat. by rewrite stat_root, Hroot. }
    by rewrite (bind_step _ _ fs _ fs (for_fold_scan_run clock _ [] fs Hentries)).
  - rewrite (query_step _ _ fs true)
      by (unfold Path_exists; by rewrite stat_root, Hroot).
    cbn [negb]. apply query_raise. unfold iterdir. by rewrite stat_root, Hroot.
  - by rewrite (query_step _ _ fs false)
      by (unfold Path_exists; by rewrite stat_root, Hroot).
Qed.

Lemma loaded_without_root clock fs p :
  fs !! PROJECTS_ROOT = None → p ≠ PROJECTS_ROOT → loaded clock fs p = None.
Proof.
  intros Hroot Hp. apply unloadable_loaded, no_metadata_file.
  unfold path_exists, stat, PROJECTS_ROOT in *.
  destruct p as [|c p]; [done|]. cbn [app walk]. by rewrite Hroot.
Qed.

Lemma sort_key_default m : sort_key m = default (created_at m) (last_opened_at m).
Proof. unfold sort_key. by destruct (last_opened_at m). Qed.

Lemma descending_ext {A : Type} (key key' : A → Z) l :
  (∀ x, key x = key' x) → descending key l → descending key' l.
Proof.
  intros Hkey. unfold descending. induction 1 as [|x l _ IH Hx]; constructor; [done|].
  eapply Forall_impl; [exact Hx|]. intros y. simpl. by rewrite !Hkey.
Qed.

Lemma omap_loaded_without_root clock fs :
  fs !! PROJECTS_ROOT = None →
  omap (loaded clock fs) (children fs PROJECTS_ROOT) = [].
Proof.
  intros Hroot.
  assert (Forall (λ p, p ≠ PROJECTS_ROOT) (children fs PROJECTS_ROOT)) as Hne.
  { apply Forall_forall. intros p (c & -> & _)%elem_of_children. by unfold PROJECTS_ROOT. }
  induction Hne as [|p l Hp _ IH]; [done|].
  cbn [omap list_omap]. by rewrite loaded_without_root.
Qed.

(** C5: when the projects root is a directory or absent, [list_projects]
    raises nothing, writes nothing, and returns the records that load and
    validate from the entries of the root, each once, in descending order
    of [last_opened_at] if present and of [created_at] otherwise; when the
    root is absent the result is empty. *)
Theorem list_projects_sorted_loaded clock fs :
  root_ok fs →
  ∃ l, list_projects clock fs = (inr l, fs)
    ∧ l ≡ₚ omap (loaded clock fs) (children fs PROJECTS_ROOT)
    ∧ descending (λ m, default (created_at m) (last_opened_at m)) l
    ∧ (fs !! PROJECTS_ROOT = None → l = []).
Proof.
  intros Hroot. rewrite list_projects_run. destruct Hroot as [Hroot|Hroot]; rewrite Hroot.
  - exists []. split_and!; [done| |constructor|done].
    by rewrite omap_loaded_without_root.
  - eexists. split_and!; [done| | |done].
    + apply sorted_reverse_perm.
    + eapply descending_ext; [apply sort_key_default|].
      apply sorted_reverse_descending.
Qed.

(** C6: an entry of the projects root that has no metadata file, or whose
    metadata cannot be read, parsed or validated, adds nothing to the
    listing: [list_projects] raises nothing and returns what the other
    entries yield. *)
Theorem list_projects_skips_unloadable clock fs before p after :
  fs !! PROJECTS_ROOT = Some Dir →
  children fs PROJECTS_ROOT = before ++ p :: after →
  unloadable clock fs p →
  list_projects clock fs
  = (inr (sorted_reverse sort_key (omap (loaded clock fs) (before ++ after))), fs).
Proof.
  intros Hroot Hentries Hbad%unloadable_loaded.
  rewrite list_projects_run, Hroot, Hentries.
  rewrite !omap_app. cbn [omap list_omap]. by rewrite Hbad.
Qed.

End Listing.

(** ** The service on the sample inputs *)

(** Closed equations on the sample inputs are settled by evaluating both
    sides in the virtual machine, without printing the disk back. *)
Ltac by_evaluation :=
  lazymatch goal with |- @eq ?A _ ?y => vm_cast_no_check (@eq_refl A y) end.

(** The checks of [create_project] let U+00E9 through, although it is not
    in the pattern of the [id] field: the directory tree is made and only
    then the model constructor rejects the identifier. *)
Lemma create_project_e_acute :
  id_pattern e_acute = false
  ∧ id_checks_pass e_acute = true
  ∧ create_project 10 11 e_acute "Notes" "" {[PROJECTS_ROOT := Dir]}
    = (inl ValidationError, scaffold e_acute {[PROJECTS_ROOT := Dir]}).
Proof.
  split; [done|]. split; [done|].
  rewrite create_project_fresh; [done..| |].
  - right. apply lookup_singleton_eq.
  - intros q. rewrite get_project_path_checked by done. by apply lookup_singleton_ne.
Qed.

Lemma nothing_at_notes : nothing_at "notes" {[PROJECTS_ROOT := Dir]}.
Proof.
  intros q. rewrite get_project_path_checked by done. by apply lookup_singleton_ne.
Qed.

Lemma root_ok_singleton : root_ok {[PROJECTS_ROOT := Dir]}.
Proof. right. apply lookup_singleton_eq. Qed.

(** The claim C2 as it is worded fails for an empty name: the identifier
    matches the pattern and nothing is stored under it, yet
    [create_project] does not succeed. *)
Lemma create_then_get_empty_name :
  id_pattern "notes" = true
  ∧ nothing_at "notes" {[PROJECTS_ROOT := Dir]}
  ∧ ¬ create_then_get 10 11 12 "notes" "" "first" {[PROJECTS_ROOT := Dir]}.
Proof.
  split; [done|]. split; [exact nothing_at_notes|].
  intros (m & fs1 & Hcreate & _).
  by rewrite create_project_fresh in Hcreate
    by first [exact nothing_at_notes | exact root_ok_singleton | done].
Qed.

(** Nor does it hold for an identifier of 256 letters: it matches the
    pattern, the name is valid and nothing is stored under it, yet
    [create_project] raises the [OSError] of the look-up. *)
Lemma create_then_get_over_long :
  id_pattern long_id = true
  ∧ name_length_ok "Long" = true
  ∧ nothing_at long_id {[PROJECTS_ROOT := Dir]}
  ∧ create_project 10 11 long_id "Long" "" {[PROJECTS_ROOT := Dir]}
    = (inl OSError_ENAMETOOLONG, {[PROJECTS_ROOT := Dir]})
  ∧ ¬ create_then_get 10 11 12 long_id "Long" "" {[PROJECTS_ROOT := Dir]}.
Proof.
  assert (create_project 10 11 long_id "Long" "" {[PROJECTS_ROOT := Dir]}
          = (inl OSError_ENAMETOOLONG, {[PROJECTS_ROOT := Dir]})) as Hrun.
  { by_evaluation. }
  split; [by_evaluation|]. split; [done|]. split; [|split; [exact Hrun|]].
  - intros q. rewrite get_project_path_checked by by_evaluation.
    by apply lookup_singleton_ne.
  - intros (m & fs1 & Hcreate & _). by rewrite Hrun in Hcreate.
Qed.

(** Creating ["notes"] under an empty projects root and reading it back. *)
Lemma create_then_get_valid_witness :
  id_pattern "notes" = true
  ∧ PyStr.any_char not_hyphen "notes" = true
  ∧ (String.length "notes" ≤ NAME_MAX)%nat
  ∧ name_length_ok "Notes" = true
  ∧ root_ok {[PROJECTS_ROOT := Dir]}
  ∧ nothing_at "notes" {[PROJECTS_ROOT := Dir]}
  ∧ create_then_get 10 11 12 "notes" "Notes" "first" {[PROJECTS_ROOT := Dir]}.
Proof.
  assert (String.length "notes" ≤ NAME_MAX)%nat as Hlen.
  { unfold NAME_MAX. cbn [String.length]. lia. }
  split_and!;
    [reflexivity|reflexivity|exact Hlen|reflexivity
    |exact root_ok_singleton|exact nothing_at_notes|].
  apply create_then_get_valid;
    [reflexivity|reflexivity|exact Hlen|reflexivity
    |exact root_ok_singleton|exact nothing_at_notes].
Defined.

Lemma demo_fs_meta_dir : is_dir demo_fs (get_project_meta_path "notes") = true.
Proof. by_evaluation. Defined.

Lemma demo_fs_meta_file :
  demo_fs !! (get_project_meta_path "notes" </> "project.yaml")
  = Some (File (yaml_dump (model_dump demo_meta))).
Proof. by_evaluation. Defined.

Lemma demo_meta_yaml :
  yaml_safe_load (yaml_dump (model_dump demo_meta)) = inr (model_dump demo_meta).
Proof. by_evaluation. Defined.

Lemma demo_meta_kwargs t : ProjectMeta_kwargs t (model_dump demo_meta) = inr demo_meta.
Proof. reflexivity. Defined.

Lemma demo_fs_created :
  create_project 10 11 "notes" "Notes" "first" ∅ = (inr demo_meta, demo_fs).
Proof. by_evaluation. Defined.

Lemma two_fs_created :
  create_project 50 51 "log" "Log" "" demo_fs = (inr log_meta, two_fs).
Proof. by_evaluation. Defined.

Lemma two_fs_children :
  children two_fs PROJECTS_ROOT = [get_project_path "notes"; get_project_path "log"].
Proof. by_evaluation. Defined.

(** Opening the sample project at the instant 20. *)
Lemma open_project_touch_witness :
  is_dir demo_fs (get_project_meta_path "notes") = true
  ∧ demo_fs !! (get_project_meta_path "notes" </> "project.yaml")
    = Some (File (yaml_dump (model_dump demo_meta)))
  ∧ (20 ≤ 30)%Z
  ∧ ∃ m1 fs1,
      open_project 19 20 "notes" demo_fs = (inr m1, fs1)
      ∧ last_opened_at m1 = Some 20
      ∧ ∀ t, get_project t "notes" fs1 = (inr m1, fs1).
Proof.
  assert (20 ≤ 30)%Z as Hclock by lia.
  split_and!; [exact demo_fs_meta_dir|exact demo_fs_meta_file|exact Hclock|].
  destruct (open_project_touch 19 20 29 30 "notes" _ _ _ demo_fs
              demo_fs_meta_dir demo_fs_meta_file demo_meta_yaml (demo_meta_kwargs 19)
              Hclock)
    as (m1 & fs1 & Hopen & Hlast & _ & _ & _ & _ & _ & _ & _ & Hget & _).
  exists m1, fs1. split_and!; [exact Hopen|exact Hlast|exact Hget].
Defined.

(** Creating ["notes"] a second time on the sample disk. *)
Lemma create_project_twice_witness :
  create_project 10 11 "notes" "Notes" "first" ∅ = (inr demo_meta, demo_fs)
  ∧ project_exists "notes" demo_fs = inr true
  ∧ create_project 20 21 "notes" "Notes again" "second" demo_fs
    = (inl ProjectExistsError, demo_fs).
Proof.
  split; [exact demo_fs_created|].
  exact (create_project_twice 10 11 20 21 "notes" "Notes" "first"
           "Notes again" "second" ∅ demo_meta demo_fs demo_fs_created).
Defined.

(** Listing the disk with the two sample projects: the scan of the root
    meets ["notes"], created at 10, before ["log"], created at 50, and the
    listing returns the record of ["log"] first. *)
Lemma list_projects_sorted_loaded_witness :
  root_ok two_fs
  ∧ omap (loaded (λ _, 60) two_fs) (children two_fs PROJECTS_ROOT)
    = [demo_meta; log_meta]
  ∧ list_projects (λ _, 60) two_fs = (inr [log_meta; demo_meta], two_fs)
  ∧ ∃ l, list_projects (λ _, 60) two_fs = (inr l, two_fs)
      ∧ l ≡ₚ omap (loaded (λ _, 60) two_fs) (children two_fs PROJECTS_ROOT)
      ∧ descending (λ m, default (created_at m) (last_opened_at m)) l
      ∧ (two_fs !! PROJECTS_ROOT = None → l = []).
Proof.
  assert (root_ok two_fs) as Hroot.
  { right. by_evaluation. }
  split; [exact Hroot|]. split; [by_evaluation|]. split; [by_evaluation|].
  exact (list_projects_sorted_loaded (λ _, 60) two_fs Hroot).
Defined.

(** The empty folder ["broken"] is skipped by the listing. *)
Lemma list_projects_skips_unloadable_witness :
  children mixed_fs PROJECTS_ROOT = [["readme.txt"]; ["notes"]] ++ ["broken"] :: []
  ∧ path_exists mixed_fs (["broken"] </> "meta" </> "project.yaml") = false
  ∧ list_projects (λ _, 40) mixed_fs
    = (inr (sorted_reverse sort_key
              (omap (loaded (λ _, 40) mixed_fs) ([["readme.txt"]; ["notes"]] ++ []))),
       mixed_fs).
Proof.
  assert (mixed_fs !! PROJECTS_ROOT = Some Dir) as Hroot.
  { by_evaluation. }
  assert (children mixed_fs PROJECTS_ROOT
          = [["readme.txt"]; ["notes"]] ++ ["broken"] :: []) as Hentries.
  { by_evaluation. }
  assert (path_exists mixed_fs (["broken"] </> "meta" </> "project.yaml") = false)
    as Hmissing.
  { by_evaluation. }
  split_and!; [exact Hentries|exact Hmissing|].
  exact (list_projects_skips_unloadable (λ _, 40) mixed_fs _ _ _
           Hroot Hentries (no_metadata_file _ _ _ Hmissing)).
Defined.


(** Reading the sample project back. *)
Lemma get_project_returns_stored_witness :
  is_dir demo_fs (get_project_meta_path "notes") = true
  ∧ demo_fs !! (get_project_meta_path "notes" </> "project.yaml")
    = Some (File (yaml_dump (model_dump demo_meta)))
  ∧ yaml_safe_load (yaml_dump (model_dump demo_meta)) = inr (model_dump demo_meta)
  ∧ ProjectMeta_kwargs 30 (model_dump demo_meta) = inr demo_meta
  ∧ get_project 30 "notes" demo_fs = (inr demo_meta, demo_fs).
Proof.
  split_and!;
    [exact demo_fs_meta_dir|exact demo_fs_meta_file|exact demo_meta_yaml
    |exact (demo_meta_kwargs 30)|].
  exact (get_project_returns_stored 30 "notes" _ _ _ demo_fs
           demo_fs_meta_dir demo_fs_meta_file demo_meta_yaml (demo_meta_kwargs 30)).
Defined.

(** Reading the project that a failed [create_project] left behind. *)
Lemma open_get_without_metadata_witness :
  project_exists "draft" partial_fs = inr true
  ∧ path_exists partial_fs (get_project_meta_path "draft" </> "project.yaml") = false
  ∧ ∃ e, (e = FileNotFoundError ∨ e = NotADirectoryError)
      ∧ e ≠ ProjectNotFoundError
      ∧ open_project 20 21 "draft" partial_fs = (inl e, partial_fs)
      ∧ get_project 20 "draft" partial_fs = (inl e, partial_fs).
Proof.
  assert (project_exists "draft" partial_fs = inr true) as Hdir.
  { by_evaluation. }
  assert (path_exists partial_fs (get_project_meta_path "draft" </> "project.yaml")
          = false) as Hmissing.
  { by_evaluation. }
  split_and!; [exact Hdir|exact Hmissing|].
  exact (open_get_without_metadata 20 21 "draft" partial_fs Hdir Hmissing).
Defined.

(** * Further properties of the service *)

(** ** What the operations touch *)

Lemma walk_agree fs fs' cur rest :
  (∀ q, q `prefix_of` rest → fs' !! (cur ++ q) = fs !! (cur ++ q)) →
  walk fs' cur rest = walk fs cur rest.
Proof.
  revert cur. induction rest as [|c rest IH]; intros cur Hagree; cbn [walk].
  - f_equal. rewrite <- (app_nil_r cur). by apply Hagree.
  - pose proof (Hagree [] (prefix_nil _)) as Hcur. rewrite app_nil_r in Hcur.
    pose proof (Hagree [c] (prefix_cons c _ _ (prefix_nil _))) as Hc.
    rewrite Hcur, Hc. rewrite IH; [done|].
    intros q Hq. rewrite <- !app_assoc. apply Hagree.
    simpl. by apply prefix_cons.
Qed.

Lemma stat_agree p fs fs' : agree_along p fs fs' → stat fs' p = stat fs p.
Proof. intros Hagree. apply walk_agree. intros q Hq. by apply Hagree. Qed.

Lemma agree_along_prefix p q fs fs' :
  q `prefix_of` p → agree_along p fs fs' → agree_along q fs fs'.
Proof. intros Hqp Hagree r Hr. apply Hagree. by etrans. Qed.

Lemma touches_only_read_only {A : Type} (P : path → Prop) (c : M A) :
  read_only c → touches_only P c.
Proof. intros Hc fs r fs' Hrun q _. by rewrite (read_only_run _ _ _ _ Hc Hrun). Qed.

Lemma touches_only_effect (P : path → Prop) op :
  (∀ fs fs', op fs = inr fs' → ∀ q, ¬ P q → fs' !! q = fs !! q) →
  touches_only P (effect op).
Proof.
  intros Hop fs r fs'. unfold effect. destruct (op fs) as [e|fs1] eqn:Hfs.
  - by intros [= _ <-].
  - intros [= _ <-]. eauto.
Qed.

Lemma touches_only_bind {A B : Type} (P : path → Prop) (c : M A) (k : A → M B) :
  touches_only P c → (∀ a, touches_only P (k a)) → touches_only P (bind c k).
Proof.
  intros Hc Hk fs r fs'. unfold bind.
  destruct (c fs) as [[e|a] fs1] eqn:Hfs.
  - intros [= _ <-]. eauto.
  - intros Hrun q Hq. rewrite (Hk _ _ _ _ Hrun q Hq). eauto.
Qed.

(** The prefixes of a path at or below the project path of a checked
    identifier: the projects root, or at or below the project path. *)
Lemma project_area_prefix project_id p q :
  id_checks_pass project_id = true →
  get_project_path project_id `prefix_of` p →
  q `prefix_of` p → project_area project_id q.
Proof.
  intros Hpass. unfold project_area. rewrite get_project_path_checked by done.
  unfold PROJECTS_ROOT. cbn [app]. intros [r ->].
  destruct q as [|c q]; [by left|]. intros Hq. right.
  apply prefix_cons_inv_1 in Hq as ->. apply prefix_cons, prefix_nil.
Qed.

Lemma touches_only_mkdir project_id p parents exist_ok :
  id_checks_pass project_id = true →
  get_project_path project_id `prefix_of` p →
  touches_only (project_area project_id) (mkdir parents exist_ok p).
Proof.
  intros Hpass Hp fs res fs' Hmk q Hq.
  eapply dirs_added_elsewhere; [by eapply mkdir_dirs_added|].
  intros Hpre. by apply Hq, (project_area_prefix _ p).
Qed.

Lemma touches_only_write_text project_id p text :
  get_project_path project_id `prefix_of` p →
  touches_only (project_area project_id) (effect (write_text p text)).
Proof.
  intros Hp. apply touches_only_effect. intros fs fs' Hw q Hq.
  apply write_text_inr in Hw as (_ & -> & _). apply lookup_insert_ne.
  intros <-. apply Hq. by right.
Qed.

(** The paths that [create_project] uses are at or below the project
    path. *)
Lemma below_project_1 project_id a :
  get_project_path project_id `prefix_of` get_project_path project_id </> a.
Proof. by apply prefix_app_r. Qed.

Lemma below_project_2 project_id a b :
  get_project_path project_id `prefix_of` get_project_path project_id </> a </> b.
Proof. rewrite <- app_assoc. by apply prefix_app_r. Qed.

(** ** Relations that every step keeps *)

Lemma keeps_read_only {A : Type} (R : relation FS) `{!Reflexive R} (c : M A) :
  read_only c → keeps R c.
Proof. intros Hc fs r fs' Hrun. by rewrite (read_only_run _ _ _ _ Hc Hrun). Qed.

Lemma keeps_effect (R : relation FS) `{!Reflexive R} op :
  (∀ fs fs', op fs = inr fs' → R fs fs') → keeps R (effect op).
Proof.
  intros Hop fs r fs'. unfold effect. destruct (op fs) as [e|fs1] eqn:Hfs.
  - by intros [= _ <-].
  - intros [= _ <-]. eauto.
Qed.

Lemma keeps_bind {A B : Type} (R : relation FS) `{!Transitive R} (c : M A) (k : A → M B) :
  keeps R c → (∀ a, keeps R (k a)) → keeps R (bind c k).
Proof.
  intros Hc Hk fs r fs'. unfold bind.
  destruct (c fs) as [[e|a] fs1] eqn:Hfs.
  - intros [= _ <-]. eauto.
  - intros Hrun. etrans; [by eapply Hc|by eapply Hk].
Qed.

#[global] Instance kinds_kept_preorder : PreOrder kinds_kept.
Proof.
  split.
  - intros fs q. destruct (fs !! q) as [[]|]; eauto.
  - intros fs1 fs2 fs3 H12 H23 q. specialize (H12 q). specialize (H23 q).
    destruct (fs1 !! q) as [[]|]; [by rewrite H12 in H23| |done].
    destruct H12 as [text' H12]. by rewrite H12 in H23.
Qed.

Lemma kinds_kept_insert_file fs p text :
  fs !! p ≠ Some Dir → kinds_kept fs (<[p := File text]> fs).
Proof.
  intros Hp q. destruct (decide (p = q)) as [->|Hne].
  - rewrite lookup_insert_eq. destruct (fs !! q) as [[]|]; eauto. done.
  - rewrite lookup_insert_ne by done. destruct (fs !! q) as [[]|]; eauto.
Qed.

Lemma keeps_kinds_read_only {A : Type} (c : M A) : read_only c → keeps kinds_kept c.
Proof. apply keeps_read_only, _. Qed.

Lemma keeps_kinds_bind {A B : Type} (c : M A) (k : A → M B) :
  keeps kinds_kept c → (∀ a, keeps kinds_kept (k a)) → keeps kinds_kept (bind c k).
Proof. apply keeps_bind, _. Qed.

Lemma keeps_kinds_mkdir parents exist_ok p :
  keeps kinds_kept (mkdir parents exist_ok p).
Proof. intros fs r fs' Hrun. by eapply dirs_added_kinds_kept, mkdir_dirs_added. Qed.

Lemma keeps_kinds_write_text p text :
  keeps kinds_kept (effect (write_text p text)).
Proof.
  apply keeps_effect; [apply _|]. intros fs fs' Hw.
  apply write_text_inr in Hw as (Hp & -> & _). by apply kinds_kept_insert_file.
Qed.

Lemma effect_write_text_inr p text fs u fs' :
  effect (write_text p text) fs = (inr u, fs') →
  fs' = <[p := File text]> fs ∧ dirs_preserved fs fs'.
Proof. by intros (_ & -> & ?)%effect_inr%write_text_inr. Qed.



Section MoreCreation.
Context `{Libs}.

Lemma ProjectMeta_new_inr project_id nm descr now m :
  ProjectMeta_new project_id nm descr now = inr m →
  m = {| id := project_id; name := nm; created_at := now; last_opened_at := None;
         description := descr; status := ACTIVE; rules := ProjectRules_default |}
  ∧ id_pattern project_id = true ∧ name_length_ok nm = true.
Proof.
  unfold ProjectMeta_new.
  destruct (id_pattern project_id) eqn:Hid, (name_length_ok nm) eqn:Hname;
    intros [= <-]; done.
Qed.

(** What a successful [create_project] has done, from any disk: the
    record was built, the six directories stand on some disk [fsG], and
    the four files were written onto it. *)
Lemma create_project_inr_inv t_meta t_conv project_id nm descr fs m fs1 :
  create_project t_meta t_conv project_id nm descr fs = (inr m, fs1) →
  ∃ fsG,
    ProjectMeta_new project_id nm descr t_meta = inr m
    ∧ Forall (λ r, is_dir fsG (get_project_path project_id ++ r) = true)
        project_subdirs
    ∧ dirs_preserved fsG fs1
    ∧ fs1 = seed_files project_id (yaml_dump (model_dump m)) (summary_template descr)
              (Conversation_json_dump (Conversation_new "main" t_conv))
              (index_template nm descr) fsG.
Proof.
  intros Hrun.
  pose proof (create_project_inr_exists _ _ _ _ _ _ _ _ Hrun) as [Hpass _].
  rewrite create_project_checks_pass in Hrun by done.
  apply bind_inr in Hrun as (found & fs0 & [Hfound ->]%query_inr & Hrun).
  destruct found; [done|].
  apply bind_inr in Hrun as ([] & fsD & Hdirs & Hrun).
  cbn [for_each PROJECT_DIRS] in Hdirs.
  apply bind_inr in Hdirs as ([] & fsA & [_ Hdocs]%mkdir_inr & Hdirs).
  apply bind_inr in Hdirs as ([] & fsB & [HAB Hchat]%mkdir_inr & Hdirs).
  apply bind_inr in Hdirs as ([] & fsC & [HBC Hmeta]%mkdir_inr & Hdirs).
  apply bind_inr in Hdirs as ([] & fsD' & [HCD Hhist]%mkdir_inr & Hdirs).
  unfold ret in Hdirs. assert (fsD' = fsD) as -> by congruence. clear Hdirs.
  apply bind_inr in Hrun as ([] & fsE & [HDE Hhdocs]%mkdir_inr & Hrun).
  apply bind_inr in Hrun as ([] & fsG & [HEG Hhmeta]%mkdir_inr & Hrun).
  apply bind_inr in Hrun as (m' & fsG' & Hnew & Hrun).
  unfold lift in Hnew. assert (fsG' = fsG) as -> by congruence.
  assert (ProjectMeta_new project_id nm descr t_meta = inr m') as Hmeta' by congruence.
  clear Hnew.
  apply bind_inr in Hrun as ([] & fsH & [-> HGH]%effect_write_text_inr & Hrun).
  apply bind_inr in Hrun as ([] & fsI & [-> HHI]%effect_write_text_inr & Hrun).
  apply bind_inr in Hrun as ([] & fsJ & [-> HIJ]%effect_write_text_inr & Hrun).
  apply bind_inr in Hrun as ([] & fsK & [-> HJK]%effect_write_text_inr & Hrun).
  unfold ret in Hrun. assert (m' = m) as -> by congruence.
  assert (fs1 = <[get_project_docs_path project_id ++ ["index.md"]:=
                    File (index_template nm descr)]>
            (<[get_project_chat_path project_id ++ ["main.json"]:=
                 File (Conversation_json_dump (Conversation_new "main" t_conv))]>
               (<[get_project_meta_path project_id ++ ["summary.md"]:=
                    File (summary_template descr)]>
                  (<[get_project_meta_path project_id ++ ["project.yaml"]:=
                       File (yaml_dump (model_dump m))]> fsG)))) as -> by congruence.
  clear Hrun.
  exists fsG. split_and!; [done| |by repeat (etrans; [eassumption|])|done].
  assert (dirs_preserved fsD fsG) as HDG by by etrans.
  assert (dirs_preserved fsC fsG) as HCG by by etrans.
  assert (dirs_preserved fsB fsG) as HBG by by etrans.
  assert (dirs_preserved fsA fsG) as HAG by by etrans.
  apply (dirs_preserved_is_dir _ _ _ HAG) in Hdocs.
  apply (dirs_preserved_is_dir _ _ _ HBG) in Hchat.
  apply (dirs_preserved_is_dir _ _ _ HCG) in Hmeta.
  apply (dirs_preserved_is_dir _ _ _ HDG) in Hhist.
  apply (dirs_preserved_is_dir _ _ _ HEG) in Hhdocs.
  unfold project_subdirs. fs_paths.
  repeat apply Forall_cons_2; try apply Forall_nil_2; done.
Qed.

End MoreCreation.

Lemma passing_char_safe c : passing_char c = true → unsafe_char c = false.
Proof. by_cases_on_char c. Qed.

Section CreationExtras.
Context `{Libs}.

(** X1: [create_project] raises the [ValueError] of its identifier checks
    exactly when the identifier has no character other than a hyphen (the
    empty identifier included) or has a character, other than a hyphen,
    that is not alphanumeric or is upper case; when it does, the file
    system is returned untouched, even if the project already exists. *)
Theorem create_project_ValueError_iff t_meta t_conv project_id nm descr fs :
  ((create_project t_meta t_conv project_id nm descr fs).1 = inl ValueError
   ↔ PyStr.any_char not_hyphen project_id
     && PyStr.all_chars passing_char project_id = false)
  ∧ ((create_project t_meta t_conv project_id nm descr fs).1 = inl ValueError
     → (create_project t_meta t_conv project_id nm descr fs).2 = fs).
Proof.
  rewrite create_project_ValueError.
  assert (id_checks_pass project_id
          = PyStr.any_char not_hyphen project_id
            && PyStr.all_chars passing_char project_id) as Hspec.
  { apply eq_true_iff_eq. by rewrite id_checks_pass_spec, andb_true_iff. }
  split; [by rewrite Hspec|].
  intros Hfail. by rewrite create_project_checks_fail.
Qed.

(** X2: whenever [create_project] gets past its identifier checks, the
    identifier is not empty and has no upper-case letter A-Z, control
    character, space, dot, slash, colon, backslash or underscore: it
    names one folder directly below the projects root. *)
Theorem create_project_accepts_safe_ids t_meta t_conv project_id nm descr fs :
  (create_project t_meta t_conv project_id nm descr fs).1 ≠ inl ValueError →
  project_id ≠ EmptyString
  ∧ PyStr.any_char unsafe_char project_id = false.
Proof.
  rewrite create_project_ValueError. intros Hpass%not_false_is_true.
  apply id_checks_pass_spec in Hpass as [Hany Hall]. split.
  - by intros ->.
  - clear Hany. induction project_id as [|c s IH]; simpl in *; [done|].
    apply andb_true_iff in Hall as [Hc Hs].
    by rewrite (passing_char_safe _ Hc), IH.
Qed.

Lemma touches_only_create_project t_meta t_conv project_id nm descr :
  touches_only (project_area project_id)
    (create_project t_meta t_conv project_id nm descr).
Proof.
  destruct (id_checks_pass project_id) eqn:Hpass.
  - rewrite create_project_checks_pass by done.
    apply touches_only_bind; [by apply touches_only_read_only|].
    intros []; [by apply touches_only_read_only|].
    cbn [for_each PROJECT_DIRS].
    repeat (apply touches_only_bind; [|intros ?]);
      first
        [ by apply touches_only_read_only
        | apply touches_only_mkdir;
            [done|first [apply below_project_1|apply below_project_2]]
        | apply touches_only_write_text, below_project_2 ].
  - intros fs r fs' Hrun q _.
    rewrite create_project_checks_fail in Hrun by done. by simplify_eq.
Qed.

(** X3: whatever its outcome, [create_project] leaves every entry alone
    that is neither the projects root nor at or below the project path:
    the other projects and stray files keep their content. *)
Theorem create_project_frame t_meta t_conv project_id nm descr fs q :
  q ≠ PROJECTS_ROOT →
  ¬ get_project_path project_id `prefix_of` q →
  (create_project t_meta t_conv project_id nm descr fs).2 !! q = fs !! q.
Proof.
  intros Hroot Hbelow.
  destruct (create_project t_meta t_conv project_id nm descr fs) as [r fs'] eqn:Hrun.
  eapply touches_only_create_project; [done|]. by intros [?|?].
Qed.

Lemma keeps_kinds_create_project t_meta t_conv project_id nm descr :
  keeps kinds_kept (create_project t_meta t_conv project_id nm descr).
Proof.
  destruct (id_checks_pass project_id) eqn:Hpass.
  - rewrite create_project_checks_pass by done.
    apply keeps_kinds_bind; [by apply keeps_kinds_read_only|].
    intros []; [by apply keeps_kinds_read_only|].
    cbn [for_each PROJECT_DIRS].
    repeat (apply keeps_kinds_bind; [|intros ?]);
      first
        [ by apply keeps_kinds_read_only
        | apply keeps_kinds_mkdir
        | apply keeps_kinds_write_text ].
  - intros fs r fs' Hrun.
    rewrite create_project_checks_fail in Hrun by done. by simplify_eq.
Qed.

Lemma keeps_kinds_open_project t_load t_now project_id :
  keeps kinds_kept (open_project t_load t_now project_id).
Proof.
  unfold open_project.
  apply keeps_kinds_bind; [by apply keeps_kinds_read_only|].
  intros []; cbn [negb]; [|by apply keeps_kinds_read_only].
  apply keeps_kinds_bind; [apply keeps_kinds_read_only, read_only_load_meta|].
  intros m. apply keeps_kinds_bind; [apply keeps_kinds_write_text|].
  intros _. by apply keeps_kinds_read_only.
Qed.

(** X4: whatever their outcome, [create_project] and [open_project]
    remove nothing: every directory on disk is still a directory
    afterwards and every file is still a file. *)
Theorem create_open_keep_kinds t_a t_b project_id nm descr fs :
  kinds_kept fs (create_project t_a t_b project_id nm descr fs).2
  ∧ kinds_kept fs (open_project t_a t_b project_id fs).2.
Proof.
  split.
  - destruct (create_project _ _ _ _ _ fs) as [r fs'] eqn:Hrun.
    by eapply keeps_kinds_create_project.
  - destruct (open_project _ _ _ fs) as [r fs'] eqn:Hrun.
    by eapply keeps_kinds_open_project.
Qed.

(** The disk after a successful [create_project]: directories and files. *)
Lemma create_project_inr_layout t_meta t_conv project_id nm descr fs m fs1 :
  create_project t_meta t_conv project_id nm descr fs = (inr m, fs1) →
  Forall (λ r, is_dir fs1 (get_project_path project_id ++ r) = true) project_subdirs
  ∧ is_dir fs1 (get_project_path project_id) = true
  ∧ fs1 !! (get_project_meta_path project_id </> "project.yaml")
    = Some (File (yaml_dump (model_dump m)))
  ∧ fs1 !! (get_project_meta_path project_id </> "summary.md")
    = Some (File (summary_template descr))
  ∧ fs1 !! (get_project_chat_path project_id </> "main.json")
    = Some (File (Conversation_json_dump (Conversation_new "main" t_conv)))
  ∧ fs1 !! (get_project_docs_path project_id </> "index.md")
    = Some (File (index_template nm descr)).
Proof.
  intros Hrun.
  pose proof (create_project_inr_exists _ _ _ _ _ _ _ _ Hrun) as [Hpass _].
  apply create_project_inr_inv in Hrun as (fsG & _ & Hdirs & HG1 & ->).
  split_and!.
  - eapply Forall_impl; [exact Hdirs|]. intros r Hr. simpl in Hr.
    by eapply dirs_preserved_is_dir.
  - apply (is_dir_parent _ _ "docs"). eapply dirs_preserved_is_dir; [done|].
    by apply Forall_cons in Hdirs as [? _].
  - unfold seed_files. fs_paths. by fs_lookup.
  - unfold seed_files. fs_paths. by fs_lookup.
  - unfold seed_files. fs_paths. by fs_lookup.
  - unfold seed_files. fs_paths. by fs_lookup.
Qed.


(** X6: when [create_project] succeeds, from whatever disk it started,
    the identifier matches the pattern of the [id] field, the name has 1
    to 100 characters, the returned record carries the arguments, the
    instant of the call as [created_at], no [last_opened_at], the active
    status and the default rules, and [get_project] returns that record. *)
Theorem create_project_returns t_meta t_conv t_load project_id nm descr fs m fs1 :
  create_project t_meta t_conv project_id nm descr fs = (inr m, fs1) →
  id_pattern project_id = true
  ∧ name_length_ok nm = true
  ∧ m = {| id := project_id; name := nm; created_at := t_meta;
           last_opened_at := None; description := descr; status := ACTIVE;
           rules := ProjectRules_default |}
  ∧ get_project t_load project_id fs1 = (inr m, fs1).
Proof.
  intros Hrun.
  pose proof (create_project_inr_inv _ _ _ _ _ _ _ _ Hrun) as (fsG & Hnew & _).
  apply ProjectMeta_new_inr in Hnew as (Hm & Hid & Hname).
  pose proof (create_project_inr_layout _ _ _ _ _ _ _ _ Hrun)
    as (Hdirs & Hdir & Hyaml & _).
  split_and!; [done..|].
  rewrite get_project_exists by by apply project_exists_true.
  eapply (load_meta_decodes _ (get_project_meta_path project_id)); [|done| |].
  - unfold project_subdirs in Hdirs. rewrite !Forall_cons in Hdirs.
    by destruct Hdirs as (_ & _ & ? & _).
  - apply yaml_safe_load_dump.
  - apply ProjectMeta_kwargs_dump. by rewrite Hm.
Qed.

Lemma create_open_kinds_root t_meta t_conv project_id nm descr fs :
  match fs !! PROJECTS_ROOT with
  | Some Dir =>
      (create_project t_meta t_conv project_id nm descr fs).2 !! PROJECTS_ROOT
      = Some Dir
  | _ => True
  end.
Proof.
  destruct (create_project _ _ _ _ _ fs) as [r fs'] eqn:Hrun.
  pose proof (keeps_kinds_create_project _ _ _ _ _ _ _ _ Hrun PROJECTS_ROOT) as Hk.
  by destruct (fs !! PROJECTS_ROOT) as [[]|].
Qed.

End CreationExtras.

(** ** Listing after other operations *)

Section ListingExtras.
Context `{Libs}.

Lemma load_meta_agree now p fs fs' :
  agree_along p fs fs' → (load_meta now p fs').1 = (load_meta now p fs).1.
Proof.
  intros Hagree. rewrite !load_meta_run. cbn [fst].
  unfold read_text. by rewrite (stat_agree _ _ _ Hagree).
Qed.

Lemma loaded_agree clock p fs fs' :
  agree_along (p </> "meta" </> "project.yaml") fs fs' →
  loaded clock fs' p = loaded clock fs p.
Proof. intros Hagree. unfold loaded. by rewrite (load_meta_agree _ _ _ _ Hagree). Qed.

Lemma get_project_agree t_load project_id fs fs' :
  agree_along (get_project_meta_path project_id </> "project.yaml") fs fs' →
  (get_project t_load project_id fs').1 = (get_project t_load project_id fs).1.
Proof.
  intros Hagree. unfold get_project, bind, query, project_exists, Path_is_dir.
  rewrite (stat_agree (get_project_path project_id) fs fs').
  - destruct (stat fs (get_project_path project_id)) as [e|[[]|]]; cbn [negb]; try done.
    + by destruct (ignore_error e).
    + by apply load_meta_agree.
  - eapply agree_along_prefix; [|done].
    unfold get_project_meta_path. rewrite <- app_assoc. by apply prefix_app_r.
Qed.

(** The record of a project that [create_project] has just made is what
    its folder contributes to the listing. *)
Lemma loaded_after_create clock t_meta t_conv project_id nm descr fs m fs1 :
  create_project t_meta t_conv project_id nm descr fs = (inr m, fs1) →
  fs1 !! PROJECTS_ROOT = Some Dir
  ∧ get_project_path project_id ∈ children fs1 PROJECTS_ROOT
  ∧ loaded clock fs1 (get_project_path project_id) = Some m.
Proof.
  intros Hrun.
  pose proof (create_project_inr_exists _ _ _ _ _ _ _ _ Hrun) as [Hpass _].
  pose proof (create_project_inr_inv _ _ _ _ _ _ _ _ Hrun) as (fsG & Hnew & _).
  apply ProjectMeta_new_inr in Hnew as (Hm & Hid & Hname).
  pose proof (create_project_inr_layout _ _ _ _ _ _ _ _ Hrun)
    as (Hdirs & Hdir & Hyaml & _).
  split_and!.
  - rewrite is_dir_spec in Hdir. apply Hdir, prefix_nil.
  - apply elem_of_children. exists project_id.
    split; [by apply get_project_path_checked|].
    by rewrite (is_dir_lookup _ _ Hdir).
  - unfold loaded.
    rewrite (load_meta_decodes _ (get_project_meta_path project_id) "project.yaml"
               (yaml_dump (model_dump m)) (model_dump m) m); [done| |done| |].
    + unfold project_subdirs in Hdirs. rewrite !Forall_cons in Hdirs.
      by destruct Hdirs as (_ & _ & ? & _).
    + apply yaml_safe_load_dump.
    + apply ProjectMeta_kwargs_dump. by rewrite Hm.
Qed.

Lemma elem_of_list_projects clock fs p m :
  fs !! PROJECTS_ROOT = Some Dir →
  p ∈ children fs PROJECTS_ROOT → loaded clock fs p = Some m →
  ∃ l, list_projects clock fs = (inr l, fs) ∧ m ∈ l.
Proof.
  intros Hroot Hp Hm. rewrite list_projects_run, Hroot. eexists. split; [done|].
  rewrite sorted_reverse_perm. apply list_elem_of_omap. eauto.
Qed.

(** X7: after a successful [create_project], [list_projects] succeeds and
    its result contains the record that [create_project] returned. *)
Theorem list_projects_after_create clock t_meta t_conv project_id nm descr fs m fs1 :
  create_project t_meta t_conv project_id nm descr fs = (inr m, fs1) →
  ∃ l, list_projects clock fs1 = (inr l, fs1) ∧ m ∈ l.
Proof.
  intros (Hroot & Hchild & Hloaded)%(loaded_after_create clock).
  by eapply elem_of_list_projects.
Qed.

(** Creating a project does not disturb the way to a path that does not
    run through the folder of the project. *)
Lemma create_project_agree t_meta t_conv project_id nm descr p fs :
  ¬ get_project_path project_id `prefix_of` p → fs !! PROJECTS_ROOT = Some Dir →
  agree_along p fs (create_project t_meta t_conv project_id nm descr fs).2.
Proof.
  intros Hp Hroot q Hq. destruct (decide (q = PROJECTS_ROOT)) as [->|Hq'].
  - pose proof (create_open_kinds_root t_meta t_conv project_id nm descr fs) as Hk.
    by rewrite Hroot in Hk |- *.
  - destruct (create_project t_meta t_conv project_id nm descr fs) as [r fs'] eqn:Hrun.
    eapply touches_only_create_project; [done|].
    intros [?|Hpre]; [done|]. apply Hp. by etrans.
Qed.

(** The folders of two checked identifiers are the same or apart. *)
Lemma checked_paths_apart id_a id_b r :
  id_checks_pass id_a = true → id_checks_pass id_b = true → id_a ≠ id_b →
  ¬ get_project_path id_b `prefix_of` get_project_path id_a ++ r.
Proof.
  intros Ha Hb Hne. rewrite !get_project_path_checked by done.
  unfold PROJECTS_ROOT. cbn [app]. by intros ->%prefix_cons_inv_1.
Qed.

End ListingExtras.

Section CompositionExtras.
Context `{Libs}.

(** X8: after two successful calls of [create_project], one after the
    other, [list_projects] succeeds and its result contains both returned
    records. *)
Theorem list_projects_two_created clock t_a t_a' t_b t_b' id_a nm_a descr_a
    id_b nm_b descr_b fs m_a fs1 m_b fs2 :
  create_project t_a t_a' id_a nm_a descr_a fs = (inr m_a, fs1) →
  create_project t_b t_b' id_b nm_b descr_b fs1 = (inr m_b, fs2) →
  ∃ l, list_projects clock fs2 = (inr l, fs2) ∧ m_a ∈ l ∧ m_b ∈ l.
Proof.
  intros Hfirst Hsecond.
  pose proof (create_project_inr_exists _ _ _ _ _ _ _ _ Hfirst) as [Hpass Hdir].
  pose proof (create_project_inr_exists _ _ _ _ _ _ _ _ Hsecond) as [Hpass' _].
  assert (id_a ≠ id_b) as Hne.
  { intros <-. by rewrite create_project_exists in Hsecond. }
  pose proof (loaded_after_create clock _ _ _ _ _ _ _ _ Hfirst)
    as (Hroot1 & Hchild1 & Hloaded1).
  pose proof (loaded_after_create clock _ _ _ _ _ _ _ _ Hsecond)
    as (Hroot2 & Hchild2 & Hloaded2).
  pose proof (create_project_agree t_b t_b' id_b nm_b descr_b
                (get_project_path id_a ++ ["meta"; "project.yaml"]) fs1
                (checked_paths_apart _ _ _ Hpass Hpass' Hne) Hroot1) as Hagree.
  rewrite Hsecond in Hagree. cbn [snd] in Hagree.
  assert (loaded clock fs2 (get_project_path id_a) = Some m_a) as Hloaded.
  { rewrite <- Hloaded1. apply loaded_agree. by rewrite <- app_assoc. }
  assert (get_project_path id_a ∈ children fs2 PROJECTS_ROOT) as Hchild.
  { apply elem_of_children. exists id_a.
    split; [by apply get_project_path_checked|].
    rewrite (Hagree (get_project_path id_a)) by by apply prefix_app_r.
    by apply elem_of_children in Hchild1 as (c & _ & ?). }
  rewrite list_projects_run, Hroot2. eexists. split; [done|].
  rewrite sorted_reverse_perm, !list_elem_of_omap.
  split; [exists (get_project_path id_a)|exists (get_project_path id_b)]; done.
Qed.

(** What [open_project] does, case by case: nothing unless the metadata
    loads, and then one write to the metadata file. *)
Lemma open_project_run t_load t_now project_id fs :
  open_project t_load t_now project_id fs
  = match get_project t_load project_id fs with
    | (inl e, _) => (inl e, fs)
    | (inr m, _) =>
        (inr (set_last_opened_at m t_now),
         <[get_project_meta_path project_id </> "project.yaml" :=
             File (yaml_dump (model_dump (set_last_opened_at m t_now)))]> fs)
    end.
Proof.
  destruct (project_exists project_id fs) as [e|[]] eqn:Hdir.
  - unfold open_project, get_project. by rewrite !(query_raise _ _ fs e).
  - rewrite get_project_exists by done. unfold open_project.
    rewrite (query_step _ _ fs true) by done.
    cbn [negb]. unfold bind at 1.
    destruct (load_meta t_load _ fs) as [[e|m] fs'] eqn:Hload.
    + pose proof (read_only_load_meta t_load
                    (get_project_meta_path project_id </> "project.yaml") fs) as Hro.
      rewrite Hload in Hro. by simplify_eq/=.
    + apply load_meta_inr in Hload as (-> & Hmeta & text & data & Hfile & _).
      unfold bind, effect, ret. by rewrite (write_text_over _ _ _ text).
  - unfold open_project, get_project. by rewrite !(query_step _ _ fs false).
Qed.

(** X9: with the projects root in place, what [get_project] returns or
    raises for an identifier [other] is the same before and after
    [create_project] for an identifier whose folder is not on the way to
    the metadata file of [other], and the same before and after
    [open_project] for an identifier whose metadata file is not on that
    way.  Two spellings of one folder, as ["notes"] and ["notes/"], and a
    folder inside the other project, as ["notes/docs"], are on the way;
    the identifiers are those that stay in the tree below the root. *)
Theorem get_project_unaffected_by_others t_load t_a t_b other project_id nm descr fs :
  fs !! PROJECTS_ROOT = Some Dir →
  in_tree other = true →
  (¬ get_project_path project_id
       `prefix_of` get_project_meta_path other </> "project.yaml" →
   (get_project t_load other (create_project t_a t_b project_id nm descr fs).2).1
   = (get_project t_load other fs).1)
  ∧ (in_tree project_id = true →
     ¬ get_project_meta_path project_id </> "project.yaml"
         `prefix_of` get_project_meta_path other </> "project.yaml" →
     (get_project t_load other (open_project t_a t_b project_id fs).2).1
     = (get_project t_load other fs).1).
Proof.
  intros Hroot _. split.
  - intros Hway. by apply get_project_agree, create_project_agree.
  - intros _ Hway. apply get_project_agree. rewrite open_project_run.
    destruct (get_project t_a project_id fs) as [[e|m] fs']; [done|].
    intros q Hq. apply lookup_insert_ne. by intros <-.
Qed.

(** X10: [open_project] either fails and leaves the disk as it was, or
    succeeds, and then [get_project] would have returned a record [m],
    the result is [m] with [last_opened_at] set to the instant of the
    call, and the disk differs from the old one in the metadata file only,
    which holds the dump of the result. *)
Theorem open_project_outcome t_load t_now project_id fs :
  match open_project t_load t_now project_id fs with
  | (inl e, fs') => fs' = fs ∧ (get_project t_load project_id fs).1 = inl e
  | (inr m1, fs') =>
      ∃ m, get_project t_load project_id fs = (inr m, fs)
        ∧ m1 = set_last_opened_at m t_now
        ∧ fs' = <[get_project_meta_path project_id </> "project.yaml" :=
                    File (yaml_dump (model_dump m1))]> fs
  end.
Proof.
  rewrite open_project_run.
  pose proof (read_only_get_project t_load project_id fs) as Hro.
  destruct (get_project t_load project_id fs) as [[e|m] fs'];
    simpl in Hro; subst fs'; eauto.
Qed.

(** X11: opening a project twice leaves the same disk and returns the
    same record as opening it once at the later instant. *)
Theorem open_project_twice t_load t_now t_load' t_now' project_id text data m fs :
  is_dir fs (get_project_meta_path project_id) = true →
  fs !! (get_project_meta_path project_id </> "project.yaml") = Some (File text) →
  yaml_safe_load text = inr data →
  ProjectMeta_kwargs t_load data = inr m →
  open_project t_load' t_now' project_id
    (open_project t_load t_now project_id fs).2
  = open_project t_load t_now' project_id fs.
Proof.
  intros Hmeta Hfile Hyaml Hkw.
  pose proof (ProjectMeta_kwargs_valid _ _ _ Hkw) as Hvalid.
  rewrite !(open_project_stored t_load _ _ text data m fs) by done. cbn [snd].
  set (m1 := set_last_opened_at m t_now).
  rewrite (open_project_stored t_load' t_now' _
             (yaml_dump (model_dump m1)) (model_dump m1) m1).
  - by rewrite insert_insert_eq.
  - apply is_dir_insert; [|done]. left. by rewrite Hfile.
  - apply lookup_insert_eq.
  - apply yaml_safe_load_dump.
  - by apply ProjectMeta_kwargs_dump, set_last_opened_at_valid.
Qed.

Lemma descending_head {A} (key : A → Z) (x : A) (l : list A) :
  descending key l → x ∈ l →
  (∀ y, y ∈ l → y = x ∨ (key y < key x)%Z) →
  ∃ l', l = x :: l'.
Proof.
  intros Hsorted Hx Hmax. destruct l as [|h l']; [by apply elem_of_nil in Hx|].
  exists l'. f_equal.
  destruct (Hmax h) as [->|Hlt]; [by left|done|].
  apply StronglySorted_inv in Hsorted as [_ Hh].
  apply elem_of_cons in Hx as [->|Hx]; [done|].
  rewrite Forall_forall in Hh. specialize (Hh x Hx). simpl in Hh. lia.
Qed.

(** X12: when a project whose folder is an entry of the projects root is
    opened at an instant later than the sort keys of all other projects
    on disk, the next [list_projects] returns the opened record first. *)
Theorem open_project_moves_to_front clock t_load t_now project_id text data m fs :
  get_project_path project_id ∈ children fs PROJECTS_ROOT →
  is_dir fs (get_project_meta_path project_id) = true →
  fs !! (get_project_meta_path project_id </> "project.yaml") = Some (File text) →
  yaml_safe_load text = inr data →
  ProjectMeta_kwargs t_load data = inr m →
  (∀ p m', p ∈ children fs PROJECTS_ROOT → p ≠ get_project_path project_id →
           loaded clock fs p = Some m' → (sort_key m' < t_now)%Z) →
  ∃ m1 fs1 l,
    open_project t_load t_now project_id fs = (inr m1, fs1)
    ∧ list_projects clock fs1 = (inr (m1 :: l), fs1).
Proof.
  intros Hentry Hmeta Hfile Hyaml Hkw Hothers.
  pose proof (ProjectMeta_kwargs_valid _ _ _ Hkw) as Hvalid.
  set (m1 := set_last_opened_at m t_now).
  set (file := get_project_meta_path project_id </> "project.yaml").
  set (fs1 := <[file := File (yaml_dump (model_dump m1))]> fs).
  assert (open_project t_load t_now project_id fs = (inr m1, fs1)) as Hopen.
  { by apply (open_project_stored _ _ _ text data). }
  assert (dirs_preserved fs fs1) as Hpres.
  { apply dirs_preserved_insert. left. unfold file. by rewrite Hfile. }
  assert (is_dir fs1 (get_project_meta_path project_id) = true) as Hmeta1.
  { by eapply dirs_preserved_is_dir. }
  assert (fs1 !! PROJECTS_ROOT = Some Dir) as Hroot1.
  { rewrite is_dir_spec in Hmeta1. apply Hmeta1, prefix_nil. }
  assert (∀ q, is_Some (fs1 !! q) ↔ is_Some (fs !! q)) as Hdom.
  { intros q. unfold fs1. destruct (decide (file = q)) as [<-|Hq].
    - rewrite lookup_insert_eq. unfold file. rewrite Hfile. by split.
    - by rewrite lookup_insert_ne. }
  assert (loaded clock fs1 (get_project_path project_id) = Some m1) as Hloaded1.
  { unfold loaded.
    rewrite (load_meta_decodes _ (get_project_meta_path project_id) "project.yaml"
               (yaml_dump (model_dump m1)) (model_dump m1) m1); [done|done| | |].
    - apply lookup_insert_eq.
    - apply yaml_safe_load_dump.
    - by apply ProjectMeta_kwargs_dump, set_last_opened_at_valid. }
  assert (∀ p, p ∈ children fs1 PROJECTS_ROOT →
               p ≠ get_project_path project_id →
               loaded clock fs1 p = loaded clock fs p) as Hsame.
  { intros p (c & -> & _)%elem_of_children Hp. apply loaded_agree.
    intros q Hq. apply lookup_insert_ne. intros <-. apply Hp.
    apply elem_of_children in Hentry as (c' & Hc' & _).
    unfold file, get_project_meta_path in Hq. rewrite Hc' in Hq |- *.
    unfold PROJECTS_ROOT in *. cbn [app] in *.
    by apply prefix_cons_inv_1 in Hq as ->. }
  pose proof (list_projects_run clock fs1) as Hlist. rewrite Hroot1 in Hlist.
  set (found := omap (loaded clock fs1) (children fs1 PROJECTS_ROOT)) in *.
  destruct (descending_head sort_key m1 (sorted_reverse sort_key found))
    as [l Hl].
  - apply sorted_reverse_descending.
  - rewrite sorted_reverse_perm. apply list_elem_of_omap.
    exists (get_project_path project_id). split; [|done].
    apply elem_of_children in Hentry as (c' & Hc' & _).
    apply elem_of_children. exists c'. split; [done|].
    rewrite is_dir_spec in Hmeta1. rewrite Hmeta1; [done|].
    unfold get_project_meta_path. by apply prefix_app_r.
  - intros y. rewrite sorted_reverse_perm.
    intros (p & Hp & Hy)%list_elem_of_omap.
    destruct (decide (p = get_project_path project_id)) as [->|Hne].
    + left. congruence.
    + right. rewrite Hsame in Hy by done. apply (Hothers p); [|done..].
      apply elem_of_children in Hp as (c & -> & Hc).
      apply elem_of_children. exists c. split; [done|]. by apply Hdom.
  - exists m1, fs1, l. by rewrite <- Hl.
Qed.

End CompositionExtras.

(** ** Order of ties, validity of what is returned, and failures *)

Lemma insert_desc_filter {A} (key : A → Z) (k : Z) x l :
  filter (λ y, key y = k) (insert_desc key x l) = filter (λ y, key y = k) (x :: l).
Proof.
  induction l as [|y l IH]; simpl; [done|].
  destruct (key x <? key y)%Z eqn:Hlt; [|done]. apply Z.ltb_lt in Hlt.
  rewrite (filter_cons _ y), IH, !(filter_cons _ x), (filter_cons _ y).
  repeat case_decide; try done. lia.
Qed.

Lemma sorted_reverse_filter {A} (key : A → Z) (k : Z) l :
  filter (λ y, key y = k) (sorted_reverse key l) = filter (λ y, key y = k) l.
Proof.
  induction l as [|x l IH]; [done|].
  unfold sorted_reverse in *. cbn [foldr].
  by rewrite insert_desc_filter, !(filter_cons _ x), IH.
Qed.

Lemma omap_ext_elem {A B} (f g : A → option B) (l : list A) :
  (∀ x, x ∈ l → f x = g x) → omap f l = omap g l.
Proof.
  induction l as [|x l IH]; intros Hfg; [done|]. cbn [omap list_omap].
  rewrite (Hfg x) by by left. rewrite IH; [done|].
  intros y Hy. apply Hfg. by right.
Qed.

Section OutcomeExtras.
Context `{Libs}.

(** X13: the records with one and the same sort key come out of
    [list_projects] in the order in which the scan of the projects root
    met them: the descending sort keeps ties in place. *)
Theorem list_projects_ties_in_scan_order clock fs k :
  fs !! PROJECTS_ROOT = Some Dir →
  ∃ l, list_projects clock fs = (inr l, fs)
    ∧ filter (λ m, sort_key m = k) l
      = filter (λ m, sort_key m = k)
          (omap (loaded clock fs) (children fs PROJECTS_ROOT)).
Proof.
  intros Hroot. rewrite list_projects_run, Hroot. eexists. split; [done|].
  apply sorted_reverse_filter.
Qed.

Lemma get_project_inr t_load project_id fs m fs' :
  get_project t_load project_id fs = (inr m, fs') → ProjectMeta_valid m.
Proof.
  unfold get_project. intros (found & fs0 & Hfound & Hload)%bind_inr.
  destruct found; cbn [negb] in Hload; [|done].
  apply load_meta_inr in Hload as (_ & _ & text & data & _ & _ & Hkw).
  by eapply ProjectMeta_kwargs_valid.
Qed.

Lemma loaded_valid clock fs p m : loaded clock fs p = Some m → ProjectMeta_valid m.
Proof.
  unfold loaded.
  destruct (load_meta (clock p) _ fs) as [[e|m'] fs'] eqn:Hload; [done|].
  intros [= <-]. apply load_meta_inr in Hload as (_ & _ & text & data & _ & _ & Hkw).
  by eapply ProjectMeta_kwargs_valid.
Qed.

(** X14: every record that [get_project], [open_project] or
    [list_projects] returns has passed the validators of the schema: its
    [id] matches the pattern and its [name] has 1 to 100 characters; the
    record from [open_project] has [last_opened_at] set to the instant of
    the call. *)
Theorem returned_records_valid clock t_load t_now project_id fs :
  match (get_project t_load project_id fs).1 with
  | inr m => ProjectMeta_valid m
  | inl _ => True
  end
  ∧ match (open_project t_load t_now project_id fs).1 with
    | inr m => ProjectMeta_valid m ∧ last_opened_at m = Some t_now
    | inl _ => True
    end
  ∧ match (list_projects clock fs).1 with
    | inr l => Forall ProjectMeta_valid l
    | inl _ => True
    end.
Proof.
  split_and!.
  - destruct (get_project t_load project_id fs) as [[e|m] fs'] eqn:Hget; [done|].
    by eapply get_project_inr.
  - rewrite open_project_run.
    destruct (get_project t_load project_id fs) as [[e|m] fs'] eqn:Hget; [done|].
    split; [|done]. by eapply set_last_opened_at_valid, get_project_inr.
  - rewrite list_projects_run. destruct (fs !! PROJECTS_ROOT) as [[]|]; cbn [fst];
      [|done|by apply Forall_nil_2].
    apply Forall_forall. intros m. rewrite sorted_reverse_perm.
    intros (p & _ & Hp)%list_elem_of_omap. by eapply loaded_valid.
Qed.

(** X15: when a regular file sits where the project folder should be,
    [create_project] raises [NotADirectoryError] from its first [mkdir]
    and writes nothing. *)
Theorem create_project_path_is_file t_meta t_conv project_id nm descr text fs :
  id_checks_pass project_id = true →
  fs !! PROJECTS_ROOT = Some Dir →
  fs !! get_project_path project_id = Some (File text) →
  create_project t_meta t_conv project_id nm descr fs = (inl NotADirectoryError, fs).
Proof.
  intros Hpass Hroot Hfile. rewrite create_project_checks_pass by done.
  rewrite get_project_path_checked in Hfile by done.
  unfold PROJECTS_ROOT in *. cbn [app] in *.
  assert (project_exists project_id fs = inr false) as Hexists.
  { unfold project_exists, Path_is_dir, stat. rewrite get_project_path_checked by done.
    unfold PROJECTS_ROOT. cbn [app walk]. by rewrite Hroot, Hfile. }
  rewrite (query_step _ _ fs false) by done.
  apply bind_raise. cbn [for_each PROJECT_DIRS]. apply bind_raise.
  rewrite get_project_path_checked by done. unfold PROJECTS_ROOT. cbn [app].
  unfold mkdir, reverse. cbn [rev_append mkdir_rev]. unfold reverse. cbn [rev_append].
  unfold os_mkdir, stat. cbn [walk app]. rewrite Hroot, Hfile.
  unfold except_OSError, bind, query, Path_is_dir, stat. cbn [walk app].
  by rewrite Hroot, Hfile.
Qed.

Lemma create_project_tail_raises t_meta t_conv project_id nm descr fs e fs' :
  id_checks_pass project_id = true →
  project_exists project_id fs = inr false →
  create_project t_meta t_conv project_id nm descr fs = (inl e, fs') →
  e = ValidationError ∨ is_OSError e = true.
Proof.
  intros Hpass Hexists Hrun. rewrite create_project_checks_pass in Hrun by done.
  rewrite (query_step _ _ fs false) in Hrun by done.
  cbn [for_each PROJECT_DIRS] in Hrun.
  clear Hexists. revert e fs' Hrun. generalize fs.
  repeat (apply raises_only_bind; [|intros ?]);
    first
      [ apply raises_only_ret
      | apply raises_only_mkdir; intros; by right
      | apply raises_only_write_text; intros; by right
      | apply raises_only_ProjectMeta_new; by left ].
Qed.

(** An identifier too long for a file name, on a disk that holds nothing
    under it: the look-up made for [project_exists] fails when the
    projects root is there, and otherwise the first [mkdir] makes the
    root and then fails. *)
Lemma mkdir_parents_long c d fs :
  fs !! PROJECTS_ROOT = None → fs !! (PROJECTS_ROOT </> c) = None →
  name_too_long c = true →
  mkdir true true (PROJECTS_ROOT </> c </> d) fs
  = (inl OSError_ENAMETOOLONG, <[PROJECTS_ROOT := Dir]> fs).
Proof.
  unfold PROJECTS_ROOT. cbn [app]. intros Hroot Hnone Hlong.
  unfold mkdir, reverse. cbn [rev_append mkdir_rev]. unfold reverse. cbn [rev_append].
  unfold os_mkdir at 1, stat. cbn [walk app]. rewrite Hroot.
  unfold bind at 1. unfold bind at 1.
  unfold os_mkdir at 1, stat. cbn [walk app]. rewrite Hroot.
  unfold os_mkdir at 1, stat. cbn [walk]. rewrite Hroot. cbv beta iota.
  unfold mkdir_leaf at 1. unfold os_mkdir at 1, stat. cbn [walk app].
  rewrite lookup_insert_eq, lookup_insert_ne, Hnone, Hlong by done.
  unfold except_OSError, bind, query, Path_is_dir, stat. cbn [walk app].
  by rewrite lookup_insert_eq, lookup_insert_ne, Hnone, Hlong by done.
Qed.

Lemma create_project_name_too_long t_meta t_conv project_id nm descr fs :
  id_checks_pass project_id = true → name_too_long project_id = true →
  root_ok fs → fs !! get_project_path project_id = None →
  create_project t_meta t_conv project_id nm descr fs
  = (inl OSError_ENAMETOOLONG, <[PROJECTS_ROOT := Dir]> fs).
Proof.
  intros Hpass Hlong Hroot Hnone. rewrite create_project_checks_pass by done.
  destruct Hroot as [Hroot|Hroot].
  - rewrite (query_step _ _ fs false).
    + apply bind_raise. cbn [for_each PROJECT_DIRS]. apply bind_raise.
      rewrite get_project_path_checked in Hnone |- * by done.
      by apply mkdir_parents_long.
    + unfold project_exists, Path_is_dir, stat.
      rewrite get_project_path_checked by done.
      unfold PROJECTS_ROOT in *. cbn [app walk]. by rewrite Hroot.
  - rewrite (insert_id fs PROJECTS_ROOT) by done. apply query_raise.
    unfold project_exists, Path_is_dir.
    rewrite get_project_path_checked in Hnone |- * by done.
    rewrite stat_child_long; [done| |done..].
    apply is_dir_stat. by rewrite stat_root, Hroot.
Qed.

(** X16: the only exceptions [create_project] raises are the [ValueError]
    of its identifier checks, [ProjectExistsError], pydantic's
    [ValidationError] and the [OSError]s of the file operations. *)
Theorem create_project_raises t_meta t_conv project_id nm descr fs :
  match (create_project t_meta t_conv project_id nm descr fs).1 with
  | inl e =>
      e = ValueError ∨ e = ProjectExistsError ∨ e = ValidationError
      ∨ is_OSError e = true
  | inr _ => True
  end.
Proof.
  destruct (id_checks_pass project_id) eqn:Hpass;
    [|rewrite create_project_checks_fail by done; by left].
  destruct (create_project _ _ _ _ _ fs) as [[e|m] fs'] eqn:Hrun; [|done].
  cbn [fst].
  apply (create_project_raises_after_checks
           (λ e, e = ValueError ∨ e = ProjectExistsError ∨ e = ValidationError
                 ∨ is_OSError e = true) _ _ _ _ _ Hpass) in Hrun; [done|tauto..].
Qed.

(** X17: [create_project] raises [ProjectExistsError] exactly when the
    identifier passes the checks and the project folder exists as a
    directory, and then the disk is returned untouched. *)
Theorem create_project_ProjectExistsError_iff t_meta t_conv project_id nm descr fs :
  ((create_project t_meta t_conv project_id nm descr fs).1 = inl ProjectExistsError
   ↔ id_checks_pass project_id = true ∧ project_exists project_id fs = inr true)
  ∧ ((create_project t_meta t_conv project_id nm descr fs).1 = inl ProjectExistsError
     → (create_project t_meta t_conv project_id nm descr fs).2 = fs).
Proof.
  assert ((create_project t_meta t_conv project_id nm descr fs).1
          = inl ProjectExistsError
          → id_checks_pass project_id = true
            ∧ project_exists project_id fs = inr true)
    as Hinv.
  { destruct (id_checks_pass project_id) eqn:Hpass;
      [|by rewrite create_project_checks_fail].
    destruct (project_exists project_id fs) as [e0|[]] eqn:Hexists; [|done|].
    - rewrite create_project_checks_pass by done.
      rewrite (query_raise _ _ fs e0) by done. cbn [fst]. intros [= ->].
      by apply project_exists_inl in Hexists.
    - destruct (create_project _ _ _ _ _ fs) as [[e|m] fs'] eqn:Hrun; [|done].
      cbn [fst]. intros [= ->].
      by destruct (create_project_tail_raises _ _ _ _ _ _ _ _ Hpass Hexists Hrun). }
  split; [split; [done|]|].
  - intros [Hpass Hexists]. by rewrite create_project_exists.
  - intros [Hpass Hexists]%Hinv. by rewrite create_project_exists.
Qed.

(** X18: [list_projects] and [get_project] never write: whatever they
    return or raise, the disk after the call is the disk before it. *)
Theorem readers_never_write clock t_load project_id fs :
  (list_projects clock fs).2 = fs ∧ (get_project t_load project_id fs).2 = fs.
Proof.
  split; [|apply read_only_get_project].
  rewrite list_projects_run. by destruct (fs !! PROJECTS_ROOT) as [[]|].
Qed.

(** X19: when the projects root is a regular file, [list_projects] does
    not return an empty list: it raises [NotADirectoryError]. *)
Theorem list_projects_root_is_file clock text fs :
  fs !! PROJECTS_ROOT = Some (File text) →
  list_projects clock fs = (inl NotADirectoryError, fs).
Proof. intros Hroot. by rewrite list_projects_run, Hroot. Qed.

(** X20: a [create_project] that fails on the name leaves a folder behind
    (none when the identifier is too long to name one), but
    [list_projects] returns the same records as before the call. *)
Theorem list_projects_ignores_failed_create clock t_meta t_conv project_id nm descr fs :
  id_checks_pass project_id = true →
  id_pattern project_id && name_length_ok nm = false →
  fs !! PROJECTS_ROOT = Some Dir →
  nothing_at project_id fs →
  ∃ l l',
    list_projects clock fs = (inr l, fs)
    ∧ list_projects clock (create_project t_meta t_conv project_id nm descr fs).2
      = (inr l', (create_project t_meta t_conv project_id nm descr fs).2)
    ∧ l' ≡ₚ l.
Proof.
  intros Hpass Hinvalid Hroot Hfresh.
  assert (root_ok fs) as Hok by by right.
  pose proof (Hfresh []) as Hid. rewrite app_nil_r in Hid.
  destruct (name_too_long project_id) eqn:Hshort.
  { rewrite create_project_name_too_long, insert_id by done. cbn [snd].
    rewrite list_projects_run, Hroot. by eexists _, _. }
  destruct (create_project_invalid_meta t_meta t_conv project_id nm descr fs
              Hpass Hshort Hinvalid Hok Hfresh) as (Hrun & Hmissing & _).
  pose proof (create_open_kinds_root t_meta t_conv project_id nm descr fs) as Hroot'.
  pose proof (touches_only_create_project t_meta t_conv project_id nm descr
                _ _ _ Hrun) as Hframe.
  rewrite Hroot in Hroot'. rewrite Hrun in Hroot' |- *. cbn [snd] in *.
  set (fs' := scaffold project_id fs) in *.
  assert (fs' !! get_project_path project_id = Some Dir) as Hid'.
  { unfold fs', scaffold. fs_paths. by fs_lookup. }
  pose proof (get_project_path_checked _ Hpass) as Hpath.
  assert (∀ c, c ≠ project_id → fs' !! (PROJECTS_ROOT </> c) = fs !! (PROJECTS_ROOT </> c))
    as Hother.
  { intros c Hc. apply Hframe. unfold project_area. rewrite Hpath.
    unfold PROJECTS_ROOT. cbn [app].
    intros [?|Hpre]; [done|]. by apply prefix_cons_inv_1 in Hpre. }
  assert (children fs' PROJECTS_ROOT
          ≡ₚ get_project_path project_id :: children fs PROJECTS_ROOT) as Hchildren.
  { apply NoDup_Permutation.
    - apply NoDup_children.
    - apply NoDup_cons. split; [|apply NoDup_children].
      intros (c & _ & Hc)%elem_of_children. rewrite Hid in Hc. by destruct Hc.
    - intros q. rewrite elem_of_cons, !elem_of_children. split.
      + intros (c & -> & Hc). destruct (decide (c = project_id)) as [->|Hne];
          [by left|]. right. exists c. by rewrite <- Hother.
      + intros [->|(c & -> & Hc)].
        * exists project_id. by rewrite Hid'.
        * exists c. split; [done|]. rewrite Hother; [done|].
          intros ->. rewrite <- Hpath, Hid in Hc. by destruct Hc. }
  rewrite !list_projects_run, Hroot, Hroot'. eexists _, _. split_and!; [done..|].
  rewrite !sorted_reverse_perm, Hchildren. cbn [omap list_omap].
  rewrite (unloadable_loaded clock fs' (get_project_path project_id))
    by by apply no_metadata_file.
  erewrite omap_ext_elem; [done|].
  intros p (c & -> & Hc)%elem_of_children. apply loaded_agree.
  assert (c ≠ project_id) as Hne.
  { intros ->. rewrite <- Hpath, Hid in Hc. by destruct Hc. }
  pose proof (create_project_agree t_meta t_conv project_id nm descr
                (PROJECTS_ROOT </> c </> "meta" </> "project.yaml") fs) as Hagree.
  rewrite Hrun in Hagree. cbn [snd] in Hagree. apply Hagree; [|done].
  rewrite Hpath. unfold PROJECTS_ROOT. cbn [app]. by intros ->%prefix_cons_inv_1.
Qed.

End OutcomeExtras.

Section AcceptanceExtras.
Context `{Libs}.

(** X21: on a disk that holds nothing at the project path, with the
    projects root a directory or absent, [create_project] succeeds
    exactly when the identifier matches the pattern of the [id] field,
    has a character other than a hyphen and is at most 255 characters
    long, the longest name a folder can have, and the name has 1 to 100
    characters. *)
Theorem create_project_succeeds_iff t_meta t_conv project_id nm descr fs :
  root_ok fs → nothing_at project_id fs →
  (∃ m fs1, create_project t_meta t_conv project_id nm descr fs = (inr m, fs1))
  ↔ id_pattern project_id = true
    ∧ PyStr.any_char not_hyphen project_id = true
    ∧ (String.length project_id ≤ NAME_MAX)%nat
    ∧ name_length_ok nm = true.
Proof.
  intros Hroot Hfresh. split.
  - intros (m & fs1 & Hrun).
    pose proof (create_project_inr_exists _ _ _ _ _ _ _ _ Hrun) as [Hpass _].
    pose proof (create_project_inr_inv _ _ _ _ _ _ _ _ Hrun) as (fsG & Hnew & _).
    apply ProjectMeta_new_inr in Hnew as (_ & Hid & Hname).
    split_and!; [done|by rewrite id_checks_pass_pattern in Hpass| |done].
    destruct (name_too_long project_id) eqn:Hlong.
    + pose proof (Hfresh []) as Hnone. rewrite app_nil_r in Hnone.
      by rewrite create_project_name_too_long in Hrun.
    + rewrite id_pattern_name_length in Hlong by done.
      by apply negb_false_iff, Nat.leb_le in Hlong.
  - intros (Hid & Hany & Hlen & Hname).
    assert (id_checks_pass project_id = true) as Hpass
      by by rewrite id_checks_pass_pattern.
    assert (name_too_long project_id = false) as Hshort.
    { rewrite id_pattern_name_length by done.
      by apply negb_false_iff, Nat.leb_le. }
    rewrite create_project_fresh by done.
    unfold ProjectMeta_new. rewrite Hid, Hname. cbn [andb]. eauto.
Qed.

(** X22: after a successful [create_project], [open_project] succeeds and
    returns the created record with [last_opened_at] set to the instant
    of the call, and a following [get_project] returns that same record. *)
Theorem create_open_get t_meta t_conv t_load t_now t_load' project_id nm descr fs m fs1 :
  create_project t_meta t_conv project_id nm descr fs = (inr m, fs1) →
  ∃ fs2,
    open_project t_load t_now project_id fs1 = (inr (set_last_opened_at m t_now), fs2)
    ∧ get_project t_load' project_id fs2 = (inr (set_last_opened_at m t_now), fs2).
Proof.
  intros Hrun.
  pose proof (create_project_inr_inv _ _ _ _ _ _ _ _ Hrun) as (fsG & Hnew & _).
  apply ProjectMeta_new_inr in Hnew as (Hm & Hid & Hname).
  assert (ProjectMeta_valid m) as Hvalid by by rewrite Hm.
  pose proof (create_project_inr_layout _ _ _ _ _ _ _ _ Hrun)
    as (Hdirs & Hdir & Hyaml & _).
  assert (is_dir fs1 (get_project_meta_path project_id) = true) as Hmeta.
  { unfold project_subdirs in Hdirs. rewrite !Forall_cons in Hdirs.
    by destruct Hdirs as (_ & _ & ? & _). }
  set (m1 := set_last_opened_at m t_now).
  eexists. split.
  - apply (open_project_stored _ _ _ (yaml_dump (model_dump m)) (model_dump m));
      [done|done|apply yaml_safe_load_dump|by apply ProjectMeta_kwargs_dump].
  - rewrite get_project_exists.
    + eapply (load_meta_decodes _ (get_project_meta_path project_id)).
      * apply is_dir_insert; [|done]. left. by rewrite Hyaml.
      * apply lookup_insert_eq.
      * apply yaml_safe_load_dump.
      * by apply ProjectMeta_kwargs_dump, set_last_opened_at_valid.
    + apply project_exists_true, is_dir_insert; [|done]. left. by rewrite Hyaml.
Qed.

End AcceptanceExtras.

(** ** Identifiers that the file system or the path join treat specially *)

Lemma split_slash_trailing s :
  PyStr.all_chars (λ c, negb (PyStr.is_slash c)) s = true →
  PyStr.split_slash (s +:+ "/") = [s; ""].
Proof.
  induction s as [|c s IH]; simpl; [done|].
  rewrite andb_true_iff, negb_true_iff. intros [-> Hs]. by rewrite IH.
Qed.

Lemma get_project_path_trailing s :
  is_component s = true → get_project_path (s +:+ "/") = get_project_path s.
Proof.
  intros Hs. unfold get_project_path. rewrite (joinpath_component _ s) by done.
  apply is_component_spec in Hs as (Hne & Hdot & Hall).
  unfold joinpath, pathlib_parts. rewrite split_slash_trailing by done.
  destruct s as [|c s]; [done|]. simpl in Hall |- *.
  apply andb_true_iff in Hall as [Hc%negb_true_iff _]. rewrite Hc.
  rewrite filter_cons, decide_True by done.
  rewrite filter_cons, decide_False; [done|]. by intros [].
Qed.

Lemma trailing_slash_checks_fail s : id_checks_pass (s +:+ "/") = false.
Proof.
  apply not_true_is_false. rewrite id_checks_pass_spec. intros [_ Hall].
  induction s as [|c s IH]; simpl in Hall; [done|].
  apply andb_true_iff in Hall as [_ Hall]. auto.
Qed.

Section NamingExtras.
Context `{Libs}.

(** X23: an identifier that passes the checks but takes more than 255
    bytes cannot name a folder.  With the projects root in place and
    nothing stored under that name, [create_project], [open_project] and
    [get_project] all raise the [OSError] of the look-up made for
    [project_exists], and the disk stays as it was. *)
Theorem over_long_identifier_raises t_a t_b project_id nm descr fs :
  id_checks_pass project_id = true →
  name_too_long project_id = true →
  fs !! PROJECTS_ROOT = Some Dir →
  fs !! get_project_path project_id = None →
  create_project t_a t_b project_id nm descr fs = (inl OSError_ENAMETOOLONG, fs)
  ∧ open_project t_a t_b project_id fs = (inl OSError_ENAMETOOLONG, fs)
  ∧ get_project t_a project_id fs = (inl OSError_ENAMETOOLONG, fs).
Proof.
  intros Hpass Hlong Hroot Hnone.
  assert (project_exists project_id fs = inl OSError_ENAMETOOLONG) as Hexists.
  { unfold project_exists, Path_is_dir.
    rewrite get_project_path_checked in Hnone |- * by done.
    rewrite stat_child_long; [done| |done..].
    apply is_dir_stat. by rewrite stat_root, Hroot. }
  split_and!.
  - rewrite create_project_name_too_long by (done || by right).
    by rewrite insert_id.
  - unfold open_project. by apply query_raise.
  - unfold get_project. by apply query_raise.
Qed.

(** X24: the path join drops a trailing separator, so an identifier with
    a slash appended names the same folder: [open_project] and
    [get_project] treat it as the identifier without the slash, while
    [create_project] refuses it with the [ValueError] of its checks. *)
Theorem trailing_slash_same_project t_a t_b project_id nm descr fs :
  is_component project_id = true →
  get_project_path (project_id +:+ "/") = get_project_path project_id
  ∧ open_project t_a t_b (project_id +:+ "/") fs = open_project t_a t_b project_id fs
  ∧ get_project t_a (project_id +:+ "/") fs = get_project t_a project_id fs
  ∧ create_project t_a t_b (project_id +:+ "/") nm descr fs = (inl ValueError, fs).
Proof.
  intros Hs. pose proof (get_project_path_trailing _ Hs) as Hpath.
  split_and!; [done| | |].
  - unfold open_project, project_exists, get_project_meta_path. by rewrite Hpath.
  - unfold get_project, project_exists, get_project_meta_path. by rewrite Hpath.
  - apply create_project_checks_fail, trailing_slash_checks_fail.
Qed.

End NamingExtras.

(** ** Names on disk *)

#[global] Instance names_kept_preorder : PreOrder names_kept.
Proof.
  split.
  - intros fs q c Hnone Hsome. rewrite Hnone in Hsome. by destruct Hsome.
  - intros fs1 fs2 fs3 H12 H23 q c Hnone Hsome.
    destruct (fs2 !! (q </> c)) as [n|] eqn:H2; [|by eapply H23].
    eapply H12; [done|]. by rewrite H2.
Qed.












Section NamesOnDisk.
Context `{Libs}.




End NamesOnDisk.

(** ** The further properties on the sample inputs *)

Lemma demo_fs_tree :
  demo_fs
  = seed_files "notes" (yaml_dump (model_dump demo_meta)) (summary_template "first")
      (Conversation_json_dump (Conversation_new "main" 11))
      (index_template "Notes" "first") (scaffold "notes" ∅).
Proof. by_evaluation. Defined.

Lemma demo_fs_root : demo_fs !! PROJECTS_ROOT = Some Dir.
Proof. by_evaluation. Defined.

Lemma two_fs_root : two_fs !! PROJECTS_ROOT = Some Dir.
Proof. by_evaluation. Defined.

Lemma demo_fs_nothing_at_draft : nothing_at "draft" demo_fs.
Proof.
  intros q. rewrite demo_fs_tree. unfold seed_files, scaffold.
  unfold get_project_history_path, get_project_meta_path, get_project_chat_path,
    get_project_docs_path.
  rewrite !(get_project_path_checked "notes"), (get_project_path_checked "draft")
    by reflexivity.
  unfold PROJECTS_ROOT. cbn [app]. fs_lookup. apply lookup_empty.
Defined.

(** Creating ["notes"] passes the checks; the identifier is safe. *)
Lemma create_project_accepts_safe_ids_witness :
  (create_project 10 11 "notes" "Notes" "first" ∅).1 ≠ inl ValueError
  ∧ "notes" ≠ EmptyString
  ∧ PyStr.any_char unsafe_char "notes" = false.
Proof.
  assert ((create_project 10 11 "notes" "Notes" "first" ∅).1 ≠ inl ValueError)
    as Hpass.
  { rewrite demo_fs_created. discriminate. }
  split; [exact Hpass|].
  exact (create_project_accepts_safe_ids 10 11 "notes" "Notes" "first" ∅ Hpass).
Defined.

Lemma draft_not_on_the_way :
  ¬ get_project_path "draft" `prefix_of` ["notes"; "meta"; "project.yaml"].
Proof.
  rewrite (get_project_path_checked "draft") by reflexivity.
  intros [k Hk]. discriminate Hk.
Defined.

(** Creating ["draft"] leaves the metadata of ["notes"] alone. *)
Lemma create_project_frame_witness :
  ["notes"; "meta"; "project.yaml"] ≠ PROJECTS_ROOT
  ∧ ¬ get_project_path "draft" `prefix_of` ["notes"; "meta"; "project.yaml"]
  ∧ (create_project 20 21 "draft" "Draft" "" demo_fs).2
      !! ["notes"; "meta"; "project.yaml"]
    = demo_fs !! ["notes"; "meta"; "project.yaml"].
Proof.
  assert (["notes"; "meta"; "project.yaml"] ≠ PROJECTS_ROOT) as Hroot by discriminate.
  split_and!; [exact Hroot|exact draft_not_on_the_way|].
  exact (create_project_frame 20 21 "draft" "Draft" "" demo_fs _ Hroot
           draft_not_on_the_way).
Defined.


(** The record of the sample project. *)
Lemma create_project_returns_witness :
  create_project 10 11 "notes" "Notes" "first" ∅ = (inr demo_meta, demo_fs)
  ∧ id_pattern "notes" = true
  ∧ name_length_ok "Notes" = true
  ∧ get_project 30 "notes" demo_fs = (inr demo_meta, demo_fs).
Proof.
  split; [exact demo_fs_created|].
  destruct (create_project_returns 10 11 30 "notes" "Notes" "first" ∅ demo_meta demo_fs
              demo_fs_created) as (Hid & Hname & _ & Hget).
  split_and!; [exact Hid|exact Hname|exact Hget].
Defined.

(** The sample project is listed. *)
Lemma list_projects_after_create_witness :
  create_project 10 11 "notes" "Notes" "first" ∅ = (inr demo_meta, demo_fs)
  ∧ ∃ l, list_projects (λ _, 40) demo_fs = (inr l, demo_fs) ∧ demo_meta ∈ l.
Proof.
  split; [exact demo_fs_created|].
  exact (list_projects_after_create (λ _, 40) 10 11 "notes" "Notes" "first" ∅
           demo_meta demo_fs demo_fs_created).
Defined.

(** Both sample projects are listed. *)
Lemma list_projects_two_created_witness :
  create_project 10 11 "notes" "Notes" "first" ∅ = (inr demo_meta, demo_fs)
  ∧ create_project 50 51 "log" "Log" "" demo_fs = (inr log_meta, two_fs)
  ∧ ∃ l, list_projects (λ _, 60) two_fs = (inr l, two_fs)
      ∧ demo_meta ∈ l ∧ log_meta ∈ l.
Proof.
  split; [exact demo_fs_created|]. split; [exact two_fs_created|].
  exact (list_projects_two_created (λ _, 60) 10 11 50 51 "notes" "Notes" "first"
           "log" "Log" "" ∅ demo_meta demo_fs log_meta two_fs
           demo_fs_created two_fs_created).
Defined.

Lemma log_not_on_the_way :
  ¬ get_project_path "log"
      `prefix_of` get_project_meta_path "notes" </> "project.yaml".
Proof.
  unfold get_project_meta_path.
  rewrite (get_project_path_checked "log"), (get_project_path_checked "notes")
    by reflexivity.
  intros [k Hk]. discriminate Hk.
Defined.

Lemma log_file_not_on_the_way :
  ¬ get_project_meta_path "log" </> "project.yaml"
      `prefix_of` get_project_meta_path "notes" </> "project.yaml".
Proof.
  unfold get_project_meta_path.
  rewrite (get_project_path_checked "log"), (get_project_path_checked "notes")
    by reflexivity.
  intros [k Hk]. discriminate Hk.
Defined.

(** Creating ["log"] next to ["notes"], and opening ["log"] on the disk
    that holds both, does not change what ["notes"] reads as. *)
Lemma get_project_unaffected_by_others_witness :
  demo_fs !! PROJECTS_ROOT = Some Dir
  ∧ two_fs !! PROJECTS_ROOT = Some Dir
  ∧ in_tree "notes" = true
  ∧ in_tree "log" = true
  ∧ ¬ get_project_path "log"
        `prefix_of` get_project_meta_path "notes" </> "project.yaml"
  ∧ ¬ get_project_meta_path "log" </> "project.yaml"
        `prefix_of` get_project_meta_path "notes" </> "project.yaml"
  ∧ (get_project 60 "notes" (create_project 50 51 "log" "Log" "" demo_fs).2).1
    = (get_project 60 "notes" demo_fs).1
  ∧ (get_project 60 "notes" (open_project 70 71 "log" two_fs).2).1
    = (get_project 60 "notes" two_fs).1.
Proof.
  assert (in_tree "notes" = true) as Hnotes by reflexivity.
  assert (in_tree "log" = true) as Hlog by reflexivity.
  destruct (get_project_unaffected_by_others 60 50 51 "notes" "log" "Log" "" demo_fs
              demo_fs_root Hnotes) as [Hcreate _].
  destruct (get_project_unaffected_by_others 60 70 71 "notes" "log" "Log" "" two_fs
              two_fs_root Hnotes) as [_ Hopen].
  split_and!;
    [exact demo_fs_root|exact two_fs_root|exact Hnotes|exact Hlog
    |exact log_not_on_the_way|exact log_file_not_on_the_way
    |exact (Hcreate log_not_on_the_way)
    |exact (Hopen Hlog log_file_not_on_the_way)].
Defined.

(** Without the conditions on the way it is otherwise: opening ["notes"]
    changes what ["notes/"] reads as, and creating ["notes"] changes what
    ["notes/docs"] raises. *)
Lemma get_project_affected_on_the_way :
  (get_project 60 "notes/" (open_project 19 20 "notes" demo_fs).2).1
  = inr (set_last_opened_at demo_meta 20)
  ∧ (get_project 60 "notes/" demo_fs).1 = inr demo_meta
  ∧ (get_project 60 "notes/docs" (create_project 10 11 "notes" "Notes" "first" ∅).2).1
    = inl FileNotFoundError
  ∧ (get_project 60 "notes/docs" ∅).1 = inl ProjectNotFoundError.
Proof. split_and!; by_evaluation. Qed.

(** Opening the sample project at 20 and then at 30, or once at 30. *)
Lemma open_project_twice_witness :
  is_dir demo_fs (get_project_meta_path "notes") = true
  ∧ open_project 29 30 "notes" (open_project 19 20 "notes" demo_fs).2
    = open_project 19 30 "notes" demo_fs.
Proof.
  split; [exact demo_fs_meta_dir|].
  exact (open_project_twice 19 20 29 30 "notes" _ _ _ demo_fs
           demo_fs_meta_dir demo_fs_meta_file demo_meta_yaml (demo_meta_kwargs 19)).
Defined.

Lemma two_fs_meta_dir : is_dir two_fs (get_project_meta_path "notes") = true.
Proof. by_evaluation. Defined.

Lemma two_fs_meta_file :
  two_fs !! (get_project_meta_path "notes" </> "project.yaml")
  = Some (File (yaml_dump (model_dump demo_meta))).
Proof. by_evaluation. Defined.

Lemma two_fs_entry_notes : get_project_path "notes" ∈ children two_fs PROJECTS_ROOT.
Proof. rewrite two_fs_children. apply list_elem_of_here. Defined.

Lemma two_fs_loaded_log : loaded (λ _, 60) two_fs (get_project_path "log") = Some log_meta.
Proof. by_evaluation. Defined.

(** Opening ["notes"] at 100, after ["log"] was created at 50, puts
    ["notes"] first in the listing. *)
Lemma open_project_moves_to_front_witness :
  get_project_path "notes" ∈ children two_fs PROJECTS_ROOT
  ∧ is_dir two_fs (get_project_meta_path "notes") = true
  ∧ ∃ m1 fs1 l,
      open_project 19 100 "notes" two_fs = (inr m1, fs1)
      ∧ list_projects (λ _, 60) fs1 = (inr (m1 :: l), fs1).
Proof.
  split; [exact two_fs_entry_notes|]. split; [exact two_fs_meta_dir|].
  apply (open_project_moves_to_front (λ _, 60) 19 100 "notes" _ _ _ two_fs
           two_fs_entry_notes two_fs_meta_dir two_fs_meta_file demo_meta_yaml
           (demo_meta_kwargs 19)).
  intros p m' Hp Hne Hloaded. rewrite two_fs_children in Hp.
  apply elem_of_cons in Hp as [Hp|Hp]; [destruct (Hne Hp)|].
  apply elem_of_cons in Hp as [Hp|Hp]; [|destruct (proj1 (elem_of_nil _) Hp)].
  rewrite Hp, two_fs_loaded_log in Hloaded. injection Hloaded as <-.
  vm_compute. reflexivity.
Defined.

(** A project inside the folder of another is opened but not listed. *)
Lemma open_project_nested_not_listed :
  (get_project_path "notes/docs" ∉ children nested_fs PROJECTS_ROOT)
  ∧ (open_project 19 100 "notes/docs" nested_fs).1
    = inr (set_last_opened_at demo_meta 100)
  ∧ (list_projects (λ _, 60) (open_project 19 100 "notes/docs" nested_fs).2).1
    = inr [demo_meta].
Proof.
  split; [|split; by_evaluation].
  assert (children nested_fs PROJECTS_ROOT = [["notes"]]) as Hentries.
  { by_evaluation. }
  assert (get_project_path "notes/docs" = ["notes"; "docs"]) as Hpath.
  { by_evaluation. }
  rewrite Hentries, Hpath. by intros ?%list_elem_of_singleton.
Qed.

(** On the disk with three projects the scan of the root meets ["notes"]
    and ["todo"], both with sort key 10, before ["log"] with sort key 50.
    The listing puts ["log"] first and leaves the two others in the order
    of the scan. *)
Lemma list_projects_ties_in_scan_order_witness :
  tie_fs !! PROJECTS_ROOT = Some Dir
  ∧ omap (loaded (λ _, 60) tie_fs) (children tie_fs PROJECTS_ROOT)
    = [demo_meta; todo_meta; log_meta]
  ∧ sort_key demo_meta = 10 ∧ sort_key todo_meta = 10 ∧ sort_key log_meta = 50
  ∧ list_projects (λ _, 60) tie_fs = (inr [log_meta; demo_meta; todo_meta], tie_fs)
  ∧ ∃ l, list_projects (λ _, 60) tie_fs = (inr l, tie_fs)
      ∧ filter (λ m, sort_key m = 10) l
        = filter (λ m, sort_key m = 10)
            (omap (loaded (λ _, 60) tie_fs) (children tie_fs PROJECTS_ROOT)).
Proof.
  assert (tie_fs !! PROJECTS_ROOT = Some Dir) as Hroot.
  { by_evaluation. }
  split; [exact Hroot|]. split; [by_evaluation|].
  split; [reflexivity|]. split; [reflexivity|]. split; [reflexivity|].
  split; [by_evaluation|].
  exact (list_projects_ties_in_scan_order (λ _, 60) tie_fs 10 Hroot).
Defined.

(** Creating ["notes"] where a file of that name lies. *)
Lemma create_project_path_is_file_witness :
  id_checks_pass "notes" = true
  ∧ blocked_fs !! PROJECTS_ROOT = Some Dir
  ∧ blocked_fs !! get_project_path "notes" = Some (File "in the way")
  ∧ create_project 10 11 "notes" "Notes" "first" blocked_fs
    = (inl NotADirectoryError, blocked_fs).
Proof.
  assert (id_checks_pass "notes" = true) as Hpass by reflexivity.
  assert (blocked_fs !! PROJECTS_ROOT = Some Dir) as Hroot.
  { by_evaluation. }
  assert (blocked_fs !! get_project_path "notes" = Some (File "in the way")) as Hfile.
  { by_evaluation. }
  split_and!; [exact Hpass|exact Hroot|exact Hfile|].
  exact (create_project_path_is_file 10 11 "notes" "Notes" "first" _ blocked_fs
           Hpass Hroot Hfile).
Defined.

(** Listing when the projects root is a file. *)
Lemma list_projects_root_is_file_witness :
  file_root_fs !! PROJECTS_ROOT = Some (File "not a folder")
  ∧ list_projects (λ _, 40) file_root_fs = (inl NotADirectoryError, file_root_fs).
Proof.
  assert (file_root_fs !! PROJECTS_ROOT = Some (File "not a folder")) as Hroot.
  { by_evaluation. }
  split; [exact Hroot|].
  exact (list_projects_root_is_file (λ _, 40) _ file_root_fs Hroot).
Defined.

(** A failed [create_project("draft", "")] on the sample disk does not
    change its listing. *)
Lemma list_projects_ignores_failed_create_witness :
  id_checks_pass "draft" = true
  ∧ id_pattern "draft" && name_length_ok "" = false
  ∧ demo_fs !! PROJECTS_ROOT = Some Dir
  ∧ nothing_at "draft" demo_fs
  ∧ ∃ l l',
      list_projects (λ _, 40) demo_fs = (inr l, demo_fs)
      ∧ list_projects (λ _, 40) (create_project 20 21 "draft" "" "" demo_fs).2
        = (inr l', (create_project 20 21 "draft" "" "" demo_fs).2)
      ∧ l' ≡ₚ l.
Proof.
  assert (id_checks_pass "draft" = true) as Hpass by reflexivity.
  assert (id_pattern "draft" && name_length_ok "" = false) as Hinvalid by reflexivity.
  split_and!;
    [exact Hpass|exact Hinvalid|exact demo_fs_root|exact demo_fs_nothing_at_draft|].
  exact (list_projects_ignores_failed_create (λ _, 40) 20 21 "draft" "" "" demo_fs
           Hpass Hinvalid demo_fs_root demo_fs_nothing_at_draft).
Defined.

(** Creating ["notes"] under an empty projects root succeeds. *)
Lemma create_project_succeeds_iff_witness :
  root_ok {[PROJECTS_ROOT := Dir]}
  ∧ nothing_at "notes" {[PROJECTS_ROOT := Dir]}
  ∧ ((∃ m fs1, create_project 10 11 "notes" "Notes" "first" {[PROJECTS_ROOT := Dir]}
               = (inr m, fs1))
     ↔ id_pattern "notes" = true
       ∧ PyStr.any_char not_hyphen "notes" = true
       ∧ (String.length "notes" ≤ NAME_MAX)%nat
       ∧ name_length_ok "Notes" = true).
Proof.
  split_and!; [exact root_ok_singleton|exact nothing_at_notes|].
  exact (create_project_succeeds_iff 10 11 "notes" "Notes" "first" _
           root_ok_singleton nothing_at_notes).
Defined.

(** Creating, opening and reading the sample project. *)
Lemma create_open_get_witness :
  create_project 10 11 "notes" "Notes" "first" ∅ = (inr demo_meta, demo_fs)
  ∧ ∃ fs2,
      open_project 19 20 "notes" demo_fs = (inr (set_last_opened_at demo_meta 20), fs2)
      ∧ get_project 21 "notes" fs2 = (inr (set_last_opened_at demo_meta 20), fs2).
Proof.
  split; [exact demo_fs_created|].
  exact (create_open_get 10 11 19 20 21 "notes" "Notes" "first" ∅ demo_meta demo_fs
           demo_fs_created).
Defined.

(** An identifier of 256 letters on the sample disk. *)
Lemma over_long_identifier_raises_witness :
  id_checks_pass long_id = true
  ∧ name_too_long long_id = true
  ∧ demo_fs !! PROJECTS_ROOT = Some Dir
  ∧ demo_fs !! get_project_path long_id = None
  ∧ create_project 20 21 long_id "Long" "" demo_fs = (inl OSError_ENAMETOOLONG, demo_fs)
  ∧ open_project 20 21 long_id demo_fs = (inl OSError_ENAMETOOLONG, demo_fs)
  ∧ get_project 20 long_id demo_fs = (inl OSError_ENAMETOOLONG, demo_fs).
Proof.
  assert (id_checks_pass long_id = true) as Hpass.
  { by_evaluation. }
  assert (name_too_long long_id = true) as Hlong.
  { by_evaluation. }
  assert (demo_fs !! get_project_path long_id = None) as Hnone.
  { by_evaluation. }
  split_and!; [exact Hpass|exact Hlong|exact demo_fs_root|exact Hnone|..];
    apply (over_long_identifier_raises 20 21 long_id "Long" "" demo_fs
             Hpass Hlong demo_fs_root Hnone).
Defined.



(** ["notes/"] names the sample project. *)
Lemma trailing_slash_same_project_witness :
  is_component "notes" = true
  ∧ get_project_path "notes/" = get_project_path "notes"
  ∧ get_project 30 "notes/" demo_fs = get_project 30 "notes" demo_fs
  ∧ create_project 20 21 "notes/" "Notes" "" demo_fs = (inl ValueError, demo_fs).
Proof.
  assert (is_component "notes" = true) as Hnotes by reflexivity.
  destruct (trailing_slash_same_project 30 21 "notes" "Notes" "" demo_fs Hnotes)
    as (Hpath & _ & Hget & _).
  destruct (trailing_slash_same_project 20 21 "notes" "Notes" "" demo_fs Hnotes)
    as (_ & _ & _ & Hcreate).
  split_and!; [exact Hnotes|exact Hpath|exact Hget|exact Hcreate].
Defined.
